(** * MG-Simulazione: record normalisation, id reconciliation and profit

    A shallow embedding of the normalisation engine of [mg_simulazione.py]
    ([_ensure_header], [_ensure_ids], [_normalize], [_load_generic],
    [_write_generic]), of its profit helpers ([profit_unit_stake],
    [profit_with_stake]), and of the lines of the script that add a wager
    and compute the two reports.  The single table variant
    [mg_simulazione_app_gsheet_sync_full_MGSTORICO.py] carries the same
    [_ensure_header], [_ensure_ids] and [profit_unit_stake]; its [_normalize]
    is [_normalize_storico].  Of [mg_decision_app_gsheet_v2.py] the file
    embeds [open_ws], [sheet_to_df] and the loop that adds up the profit.

    Modelling choices.
    - A pandas [DataFrame] is an ordered association list of labelled columns
      together with the length of its index; a [Series] is a list of cells.
      The statements are about well-formed tables ([wf]): distinct labels,
      one cell per row in every column.
    - A cell is Python's [None], a [str] or a number.  Numbers are float64
      values with their [nan] and infinities; a finite value is a rational,
      and the arithmetic on odds, stakes and profits ([fadd], [fsub], [fmul],
      [series_sum]) is exact: it neither rounds nor overflows.  The theorems
      that bound a sum therefore bound its terms and their number, so that
      the float64 sum of the script stays within the range of float64 too.
      The dtype of a column is not modelled: int64 [1] and float64 [1.0] are
      the same cell, and an assignment never fails on the dtype of its
      column.
    - The ids are integers held in int64 and float64 columns.  [_ensure_ids]
      is written out for the integers both hold exactly (magnitude at most
      2^53, [max_exact]) and for sums within int64; what NumPy and pandas do
      beyond (a rounded id, an exception of [range], a cast that wraps) is
      part of the runtime.  The theorems about the ids that are kept assume
      [exact_ids]: numeric ids and fresh ids of magnitude at most 2^53 in a
      table of at most 2^53 rows.  [edge_table_normalised] and
      [beyond_table_raises] show what happens outside.
    - Exceptions are values of [result]; code that raises returns [Raise].
    - What the Python runtime and pandas decide about individual strings (the
      numeric reading of a string, whether [strip] leaves anything, the
      spelling of a number) and about integers beyond the ranges above is an
      interface, [Runtime]; every theorem holds for every runtime, and
      [cpython] is a small instance to compute with.  The [strip] of the
      forms is a parameter in the same way.
    - The clock is an argument: [now] is the value of
      [datetime.now().strftime("%Y-%m-%d")] at the call.
    - [sort_values] is modelled by a stable sort; pandas leaves the order of
      rows with equal keys to its sorting algorithm, and no statement below
      depends on it.
    - A worksheet is the grid of strings last written to it.
    - The widgets are what they return: a form is a function of the values
      of its fields.  The reports are stated for tables with rows (what
      [DataFrame.apply] returns for a table without rows depends on the
      pandas release), and the mean odds of the won wagers are left out.
    - [df_to_sheet] of the decision script is left out: it writes with
      [USER_ENTERED], so what a cell then holds is for the spreadsheet to
      decide. *)

From Stdlib Require Import String Ascii Bool ZArith QArith Lia Lqa.
From Stdlib Require Import List Permutation Sorted.
Import ListNotations.
Local Open Scope string_scope.
Local Open Scope list_scope.

Set Implicit Arguments.

(** ** Exceptions *)

Inductive exn : Type :=
| KeyError (label : string)
| ValueError
| TypeError
| OverflowError
| IntCastingNaNError.

Inductive result (A : Type) : Type :=
| Ok (a : A)
| Raise (e : exn).
Arguments Ok {A} a.
Arguments Raise {A} e.

Definition bind {A B : Type} (r : result A) (k : A -> result B) : result B :=
  match r with
  | Ok a => k a
  | Raise e => Raise e
  end.

Notation "x <- e ;; k" := (bind e (fun x => k))
  (at level 61, e at next level, right associativity).

Definition raises {A : Type} (r : result A) : bool :=
  match r with Ok _ => false | Raise _ => true end.

(** ** Numbers: float64 values *)

Inductive float : Type :=
| NaN
| Inf (negative : bool)
| Fin (q : Q).

Definition isnan (x : float) : bool :=
  match x with NaN => true | _ => false end.

Definition isfinite (x : float) : bool :=
  match x with Fin _ => true | _ => false end.

(** A float that is missing or finite. *)
Definition known (x : float) : bool := isnan x || isfinite x.

(** [x == y] on floats; [nan] equals nothing. *)
Definition float_eqb (x y : float) : bool :=
  match x, y with
  | Fin a, Fin b => Qeq_bool a b
  | Inf s, Inf t => Bool.eqb s t
  | _, _ => false
  end.

(** [x <= y] on floats; false when either side is [nan]. *)
Definition float_leb (x y : float) : bool :=
  match x, y with
  | NaN, _ | _, NaN => false
  | Inf true, _ => true
  | _, Inf false => true
  | Fin a, Fin b => Qle_bool a b
  | _, _ => false
  end.

Definition of_int (z : Z) : float := Fin (inject_Z z).

(** Truncation toward zero, as [int(x)] and [astype(int)] do on a finite float. *)
Definition Qtrunc (q : Q) : Z := Z.quot (Qnum q) (Zpos (Qden q)).

(** The integer a finite float is cast to. *)
Definition int_value (x : float) : Z :=
  match x with Fin q => Qtrunc q | _ => 0%Z end.

(** A float that is a whole number. *)
Definition is_integer (x : float) : bool :=
  match x with
  | Fin q => Qeq_bool q (inject_Z (Qtrunc q))
  | _ => false
  end.

(** A float that is missing or a whole number. *)
Definition whole (x : float) : bool := isnan x || is_integer x.

(** Python's [int(x)] on a float. *)
Definition py_int (x : float) : result Z :=
  match x with
  | Fin q => Ok (Qtrunc q)
  | Inf _ => Raise OverflowError
  | NaN => Raise ValueError
  end.

Definition fneg (x : float) : float :=
  match x with
  | NaN => NaN
  | Inf s => Inf (negb s)
  | Fin q => Fin (- q)
  end.

Definition Qneg_b (q : Q) : bool := (Qnum q <? 0)%Z.

Definition fsub (x y : float) : float :=
  match x, y with
  | NaN, _ | _, NaN => NaN
  | Inf s, Inf t => if Bool.eqb s t then NaN else Inf s
  | Inf s, Fin _ => Inf s
  | Fin _, Inf t => Inf (negb t)
  | Fin a, Fin b => Fin (a - b)
  end.

Definition fmul (x y : float) : float :=
  match x, y with
  | NaN, _ | _, NaN => NaN
  | Inf s, Inf t => Inf (xorb s t)
  | Inf s, Fin q | Fin q, Inf s =>
      if Qeq_bool q 0 then NaN else Inf (xorb s (Qneg_b q))
  | Fin a, Fin b => Fin (a * b)
  end.

(** Equality of floats as values ([Q] has several fractions per number). *)
Definition float_equiv (x y : float) : Prop :=
  match x, y with
  | NaN, NaN => True
  | Inf s, Inf t => s = t
  | Fin a, Fin b => a == b
  | _, _ => False
  end.

(** ** The ranges of int64 and float64

    An int64 holds the integers from -2^63 to 2^63 - 1; a float64 holds every
    integer of magnitude at most 2^53 and rounds the others.  Inside these
    ranges the arithmetic of the program on ids is exact, and the definitions
    below write it out.  What NumPy and pandas do outside differs between
    their releases, and is left to the runtime. *)

Definition max_exact : Z := 2 ^ 53.

Definition int64 (z : Z) : bool := ((- 2 ^ 63 <=? z) && (z <? 2 ^ 63))%Z.

Definition float64_holds (z : Z) : bool := (Z.abs z <=? max_exact)%Z.

(** ** Cells and series *)

Inductive cell : Type :=
| PyNone
| Str (s : string)
| Num (x : float).

Definition Series : Type := list cell.

Definition Int (z : Z) : cell := Num (of_int z).

(** [pd.isna] on one cell. *)
Definition isna (c : cell) : bool :=
  match c with
  | PyNone | Num NaN => true
  | _ => false
  end.

(** ** The runtime: what Python and pandas decide about single strings, and
    about numbers beyond the ranges of int64 and float64 *)

Class Runtime : Type := {
  (** [pd.to_numeric(..., errors="coerce")] on one string: the number read,
      [NaN] when the string is not a number. *)
  str_to_float : string -> float;
  (** [s.strip() == ""]. *)
  strip_is_empty : string -> bool;
  (** [str] of a number held in the column of the given label (the spelling
      depends on the dtype of the column: int64 prints [1], float64 [1.0]). *)
  num_to_str : string -> float -> string;
  (** [list(range(a, a + n))] for a Python int [a] and a [numpy.int64] [n]
      when [a] or [a + n] is not an int64: the list, or the exception the sum
      or [range] raises. *)
  range_beyond_int64 : Z -> Z -> result (list Z);
  (** The float64 a column holds for an integer beyond 2^53. *)
  float64_of_large : Z -> float;
  (** [astype(int)] on a finite float that is outside the range of int64. *)
  int64_of_large : Q -> result Z
}.

(** ** Program constants *)

Definition LEAGUES : list string :=
  [ "Serie A"; "Serie B"; "Premier League"; "Bundesliga"; "Liga"; "Ligue 1";
    "Eredivisie"; "Primeira Liga (Portogallo)"; "Altro" ].

Definition OUTCOMES : list string := [ "In attesa"; "Vinta"; "Persa" ].

Definition REQUIRED_COLUMNS_SINGOLE : list string :=
  [ "ID"; "Data"; "Campionato"; "Partita"; "Mercato"; "Quota"; "Esito"; "Note" ].

Definition REQUIRED_COLUMNS_MULTIPLE : list string :=
  [ "ID"; "Data"; "Multipla"; "Quota Totale"; "Stake"; "Esito"; "Note" ].

(** ** Series operations *)

(** [list(range(a, b))]. *)
Definition range (a b : Z) : list Z :=
  map (fun i => (a + Z.of_nat i)%Z) (seq 0 (Z.to_nat (b - a))).

(** [c in l] for a list of strings. *)
Definition mem (c : string) (l : list string) : bool := existsb (String.eqb c) l.

(** [m.any()] on a boolean series. *)
Definition any (m : list bool) : bool := existsb (fun b => b) m.

(** [m.sum()] on a boolean series. *)
Definition count_true (m : list bool) : nat :=
  length (filter (fun b => b) m).

(** [s.fillna(v)]. *)
Definition fillna (v : cell) (s : Series) : Series :=
  map (fun c => if isna c then v else c) s.

(** [s.replace({old: new})] for string keys. *)
Definition replace (old new : string) (s : Series) : Series :=
  map (fun c => match c with
                | Str t => if String.eqb t old then Str new else c
                | _ => c
                end) s.

(** [s.isin(values)] for a list of strings. *)
Definition isin (values : list string) (s : Series) : list bool :=
  map (fun c => match c with
                | Str t => existsb (String.eqb t) values
                | _ => false
                end) s.

(** [df.loc[mask, col] = v] seen on the column: a scalar under a mask. *)
Fixpoint loc_set (mask : list bool) (v : cell) (s : Series) : Series :=
  match mask, s with
  | b :: mask', c :: s' => (if b then v else c) :: loc_set mask' v s'
  | _, _ => s
  end.

(** [df.loc[mask, col] = values] seen on the column: the values go, in order,
    to the rows the mask selects (the program passes as many values as the
    mask has rows). *)
Fixpoint loc_set_list (mask : list bool) (values : list cell) (s : Series) : Series :=
  match mask, s with
  | true :: mask', c :: s' =>
      match values with
      | v :: values' => v :: loc_set_list mask' values' s'
      | [] => c :: loc_set_list mask' [] s'
      end
  | false :: mask', c :: s' => c :: loc_set_list mask' values s'
  | _, _ => s
  end.

(** [s.duplicated()] on numbers: a row is marked when its value occurred in
    an earlier row. *)
Fixpoint duplicated_from (seen : list float) (s : list float) : list bool :=
  match s with
  | [] => []
  | x :: s' => existsb (float_eqb x) seen :: duplicated_from (x :: seen) s'
  end.

Definition duplicated (s : list float) : list bool := duplicated_from [] s.

(** [s.max()]: the largest value, [nan] rows skipped; [nan] when none is left. *)
Definition fmax (x y : float) : float :=
  match x, y with
  | NaN, _ => y
  | _, NaN => x
  | _, _ => if float_leb x y then y else x
  end.

Definition series_max (s : list float) : float := fold_left fmax s NaN.

(** The results of [f] on the elements of a list, or the first exception. *)
Fixpoint collect {A B : Type} (f : A -> result B) (l : list A) : result (list B) :=
  match l with
  | [] => Ok []
  | x :: l' =>
      y <- f x ;;
      ys <- collect f l' ;;
      Ok (y :: ys)
  end.

(** A numeric result stored back into a column. *)
Definition numeric (s : list float) : Series := map Num s.
Definition integers (s : list Z) : Series := map Int s.

Section Engine.

Context {R : Runtime}.

(** [pd.to_numeric(s, errors="coerce")], cell by cell. *)
Definition to_float (c : cell) : float :=
  match c with
  | PyNone => NaN
  | Str s => str_to_float s
  | Num x => x
  end.

Definition to_numeric (s : Series) : list float := map to_float s.

(** A Python int stored in a float64 column. *)
Definition float64_of_int (z : Z) : float :=
  if float64_holds z then of_int z else float64_of_large z.

(** [list(range(a, a + n))] for a Python int [a] and a [numpy.int64] [n]. *)
Definition int_range (a n : Z) : result (list Z) :=
  if int64 a && int64 (a + n) then Ok (range a (a + n))
  else range_beyond_int64 a n.

(** [astype(int)] on one finite float: truncation, within the int64 range. *)
Definition int64_of_float (x : float) : result Z :=
  match x with
  | Fin q => if int64 (Qtrunc q) then Ok (Qtrunc q) else int64_of_large q
  | _ => Raise IntCastingNaNError
  end.

(** [s.astype(int)] on a float series: pandas refuses [nan] and the
    infinities, and truncates the rest. *)
Definition astype_int (s : list float) : result (list Z) :=
  if forallb isfinite s
  then collect int64_of_float s
  else Raise IntCastingNaNError.

(** [str(c)], as [astype(str)] applies it to the cells of column [label]. *)
Definition astype_str (label : string) (c : cell) : string :=
  match c with
  | PyNone => "None"
  | Str s => s
  | Num NaN => "nan"
  | Num x => num_to_str label x
  end.

(** [s.astype(str).str.strip().eq("")]. *)
Definition blank (label : string) (s : Series) : list bool :=
  map (fun c => strip_is_empty (astype_str label c)) s.

(** ** Data frames *)

Record DataFrame : Type := mkDF {
  nrows : nat;
  cols : list (string * Series)
}.

Fixpoint assoc (c : string) (l : list (string * Series)) : option Series :=
  match l with
  | [] => None
  | (k, s) :: l' => if String.eqb k c then Some s else assoc c l'
  end.

(** A column written under its label: in place when the label exists,
    appended as the last column otherwise. *)
Fixpoint assoc_set (c : string) (s : Series) (l : list (string * Series))
  : list (string * Series) :=
  match l with
  | [] => [(c, s)]
  | (k, v) :: l' =>
      if String.eqb k c then (k, s) :: l' else (k, v) :: assoc_set c s l'
  end.

Definition labels (df : DataFrame) : list string := map fst (cols df).

(** [df.empty]: no row or no column. *)
Definition empty (df : DataFrame) : bool :=
  (nrows df =? 0)%nat || (length (cols df) =? 0)%nat.

(** [c in df.columns]. *)
Definition has_column (df : DataFrame) (c : string) : bool :=
  existsb (String.eqb c) (labels df).

(** [df[c]]. *)
Definition getitem (df : DataFrame) (c : string) : result Series :=
  match assoc c (cols df) with
  | Some s => Ok s
  | None => Raise (KeyError c)
  end.

(** [df[c] = s]. *)
Definition setitem (df : DataFrame) (c : string) (s : Series) : DataFrame :=
  mkDF (nrows df) (assoc_set c s (cols df)).

(** [pd.DataFrame(columns=cs)]. *)
Definition new_frame (cs : list string) : DataFrame :=
  mkDF 0 (map (fun c => (c, [])) cs).

(** [df[cs]] for a list of labels. *)
Fixpoint select_cols (df : DataFrame) (cs : list string)
  : result (list (string * Series)) :=
  match cs with
  | [] => Ok []
  | c :: cs' =>
      s <- getitem df c ;;
      rest <- select_cols df cs' ;;
      Ok ((c, s) :: rest)
  end.

Definition select (df : DataFrame) (cs : list string) : result DataFrame :=
  l <- select_cols df cs ;;
  Ok (mkDF (nrows df) l).

(** ** Sorting by a column *)

Fixpoint insert_by {A : Type} (le : A -> A -> bool) (x : A) (l : list A) : list A :=
  match l with
  | [] => [x]
  | y :: l' => if le x y then x :: l else y :: insert_by le x l'
  end.

Definition sort_by {A : Type} (le : A -> A -> bool) (l : list A) : list A :=
  fold_right (insert_by le) [] l.

(** The order [sort_values] puts the keys in: ascending, [nan] last. *)
Definition key_leb (x y : float) : bool :=
  match x, y with
  | _, NaN => true
  | NaN, _ => false
  | _, _ => float_leb x y
  end.

(** The row positions in the order of their keys; rows with equal keys stay in
    row order (pandas leaves their order to the sorting algorithm). *)
Definition by_key (a b : float * nat) : bool := key_leb (fst a) (fst b).

Definition argsort (keys : list float) : list nat :=
  map snd (sort_by by_key (combine keys (seq 0 (length keys)))).

(** [s.iloc[order]]. *)
Definition take (order : list nat) (s : Series) : Series :=
  map (fun i => nth i s PyNone) order.

(** The rows of every column put in the given order. *)
Definition reorder (order : list nat) (l : list (string * Series))
  : list (string * Series) :=
  map (fun cs => (fst cs, take order (snd cs))) l.

(** The keys of a numeric column; a column holding a [str] next to numbers
    cannot be ordered ([TypeError]).  The program only sorts by "ID". *)
Fixpoint sort_keys (s : Series) : result (list float) :=
  match s with
  | [] => Ok []
  | c :: s' =>
      k <- match c with
           | Num x => Ok x
           | PyNone => Ok NaN
           | Str _ => Raise TypeError
           end ;;
      ks <- sort_keys s' ;;
      Ok (k :: ks)
  end.

(** [df.sort_values(by).reset_index(drop=True)]. *)
Definition sort_values (df : DataFrame) (by_ : string) : result DataFrame :=
  col <- getitem df by_ ;;
  keys <- sort_keys col ;;
  let order := argsort keys in
  Ok (mkDF (nrows df) (reorder order (cols df))).

(** ** [_ensure_ids] *)

Definition notna (s : list float) : list bool := map (fun x => negb (isnan x)) s.

Definition _ensure_ids (df : DataFrame) : result DataFrame :=
  if empty df then Ok df else
  ids <- getitem df "ID" ;;
  let id_num := to_numeric ids in
  let df := setitem df "ID" (numeric id_num) in
  if (0 <? count_true (notna id_num))%nat
     && any (duplicated (filter (fun x => negb (isnan x)) id_num))
  then
    Ok (setitem df "ID" (integers (range 1 (Z.of_nat (nrows df) + 1))))
  else
    max_id <- (if any (notna id_num) then py_int (series_max id_num) else Ok 0%Z) ;;
    let missing := map isnan id_num in
    df <- (if any missing
           then
             fresh <- int_range (max_id + 1) (Z.of_nat (count_true missing)) ;;
             cur <- getitem df "ID" ;;
             if (length fresh =? count_true missing)%nat
             then Ok (setitem df "ID"
                        (loc_set_list missing
                           (numeric (map float64_of_int fresh)) cur))
             else Raise ValueError
           else Ok df) ;;
    cur <- getitem df "ID" ;;
    ints <- astype_int (to_numeric cur) ;;
    Ok (setitem df "ID" (integers ints)).

(** ** [_normalize] *)

Definition add_missing (df : DataFrame) (required_cols : list string) : DataFrame :=
  fold_left
    (fun df c =>
       if has_column df c then df
       else setitem df c (repeat (Str "") (nrows df)))
    required_cols df.

Definition _normalize (now : string) (df : option DataFrame)
  (required_cols : list string) (kind : string) : result DataFrame :=
  match df with
  | None => Ok (new_frame required_cols)
  | Some df =>
    if empty df then Ok (new_frame required_cols) else
    let df := add_missing df required_cols in
    (* Common fields *)
    esito <- getitem df "Esito" ;;
    let df := setitem df "Esito" (replace "" "In attesa" (fillna (Str "") esito)) in
    esito <- getitem df "Esito" ;;
    let df := setitem df "Esito"
                (loc_set (map negb (isin OUTCOMES esito)) (Str "In attesa") esito) in
    data <- getitem df "Data" ;;
    let df := setitem df "Data" (fillna (Str "") data) in
    data <- getitem df "Data" ;;
    let df := setitem df "Data" (loc_set (blank "Data" data) (Str now) data) in
    note <- getitem df "Note" ;;
    let df := setitem df "Note" (fillna (Str "") note) in
    df <- (if String.eqb kind "singole" then
             quota <- getitem df "Quota" ;;
             let df := setitem df "Quota" (numeric (to_numeric quota)) in
             camp <- getitem df "Campionato" ;;
             let df := setitem df "Campionato" (fillna (Str "Altro") camp) in
             camp <- getitem df "Campionato" ;;
             let df := setitem df "Campionato"
                         (loc_set (map negb (isin LEAGUES camp)) (Str "Altro") camp) in
             partita <- getitem df "Partita" ;;
             let df := setitem df "Partita" (fillna (Str "") partita) in
             mercato <- getitem df "Mercato" ;;
             Ok (setitem df "Mercato" (fillna (Str "") mercato))
           else if String.eqb kind "multiple" then
             quota <- getitem df "Quota Totale" ;;
             let df := setitem df "Quota Totale" (numeric (to_numeric quota)) in
             stake <- getitem df "Stake" ;;
             let df := setitem df "Stake"
                         (fillna (Num (Fin 0)) (numeric (to_numeric stake))) in
             multipla <- getitem df "Multipla" ;;
             Ok (setitem df "Multipla" (fillna (Str "") multipla))
           else Raise ValueError) ;;
    df <- _ensure_ids df ;;
    df <- select df required_cols ;;
    sort_values df "ID"
  end.

(** [_normalize] of [mg_simulazione_app_gsheet_sync_full_MGSTORICO.py]: one
    kind of record, the columns of the single wagers, and the same statements
    in another order. *)
Definition _normalize_storico (now : string) (df : option DataFrame)
  : result DataFrame :=
  match df with
  | None => Ok (new_frame REQUIRED_COLUMNS_SINGOLE)
  | Some df =>
    if empty df then Ok (new_frame REQUIRED_COLUMNS_SINGOLE) else
    let df := add_missing df REQUIRED_COLUMNS_SINGOLE in
    quota <- getitem df "Quota" ;;
    let df := setitem df "Quota" (numeric (to_numeric quota)) in
    esito <- getitem df "Esito" ;;
    let df := setitem df "Esito" (replace "" "In attesa" (fillna (Str "") esito)) in
    esito <- getitem df "Esito" ;;
    let df := setitem df "Esito"
                (loc_set (map negb (isin OUTCOMES esito)) (Str "In attesa") esito) in
    camp <- getitem df "Campionato" ;;
    let df := setitem df "Campionato" (fillna (Str "Altro") camp) in
    camp <- getitem df "Campionato" ;;
    let df := setitem df "Campionato"
                (loc_set (map negb (isin LEAGUES camp)) (Str "Altro") camp) in
    data <- getitem df "Data" ;;
    let df := setitem df "Data" (fillna (Str "") data) in
    data <- getitem df "Data" ;;
    let df := setitem df "Data" (loc_set (blank "Data" data) (Str now) data) in
    note <- getitem df "Note" ;;
    let df := setitem df "Note" (fillna (Str "") note) in
    df <- _ensure_ids df ;;
    df <- select df REQUIRED_COLUMNS_SINGOLE ;;
    sort_values df "ID"
  end.

(** ** The record store: one worksheet

    A worksheet is the grid of strings last written to it, header row first
    (the adapter's contract: [get_all_values] returns what [update] stored,
    every row filled with [""] to the width of the widest).  A tab that does
    not exist yet is the empty grid.  The 15 second read cache of
    [_load_generic] is not modelled: every write clears it. *)

Definition Worksheet : Type := list (list string).

(** [ws.row_values(1)]. *)
Definition row_values1 (ws : Worksheet) : list string := hd [] ws.

(** [ws.update("A1", [row])]. *)
Definition update_row1 (ws : Worksheet) (row : list string) : Worksheet :=
  row :: tl ws.

Definition width (ws : Worksheet) : nat :=
  fold_right (fun r w => Nat.max (length r) w) 0%nat ws.

(** [ws.get_all_values()]. *)
Definition get_all_values (ws : Worksheet) : list (list string) :=
  map (fun r => r ++ repeat "" (width ws - length r)) ws.

Definition _ensure_header (ws : Worksheet) (required_cols : list string)
  : Worksheet * list string :=
  let header := row_values1 ws in
  if (length header =? 0)%nat then (update_row1 ws required_cols, required_cols)
  else
    let '(header, changed) :=
      fold_left
        (fun (st : list string * bool) c =>
           let (header, changed) := st in
           if negb (mem c header) then (header ++ [c], true) else st)
        required_cols (header, false) in
    if changed then (update_row1 ws header, header) else (ws, header).

(** [pd.DataFrame(rows, columns=header)] on rows of strings. *)
Definition frame_of_rows (rows : list (list string)) (header : list string)
  : result DataFrame :=
  if forallb (fun r => (length r =? length header)%nat) rows
  then Ok (mkDF (length rows)
             (map (fun jh => (snd jh, map (fun r => Str (nth (fst jh) r "")) rows))
                  (combine (seq 0 (length header)) header)))
  else Raise ValueError.

(** [df.astype(str).values.tolist()]. *)
Definition values_tolist (df : DataFrame) : list (list string) :=
  map (fun i => map (fun cs => astype_str (fst cs) (nth i (snd cs) PyNone)) (cols df))
      (seq 0 (nrows df)).

Definition required_cols_of (kind : string) : result (list string) :=
  if String.eqb kind "singole" then Ok REQUIRED_COLUMNS_SINGOLE
  else if String.eqb kind "multiple" then Ok REQUIRED_COLUMNS_MULTIPLE
  else Raise ValueError.

(** [_load_generic]: the table read, and the worksheet as the header repair
    left it. *)
Definition _load_generic (now : string) (ws : Worksheet) (kind : string)
  : result (Worksheet * DataFrame) :=
  required_cols <- required_cols_of kind ;;
  let ws := fst (_ensure_header ws required_cols) in
  let values := get_all_values ws in
  if ((length values =? 0) || (length values =? 1))%nat
  then Ok (ws, new_frame required_cols)
  else
    let header := hd [] values in
    let rows := tl values in
    df <- frame_of_rows rows header ;;
    df <- _normalize now (Some df) required_cols kind ;;
    Ok (ws, df).

(** [_write_generic]: the worksheet after the write.  When [_normalize]
    raises, nothing is written (the sheet keeps what the header repair left);
    the model then returns the exception alone. *)
Definition _write_generic (now : string) (ws : Worksheet) (df : DataFrame)
  (kind : string) : result Worksheet :=
  required_cols <- required_cols_of kind ;;
  let ws := fst (_ensure_header ws required_cols) in
  df <- _normalize now (Some df) required_cols kind ;;
  let values := required_cols :: values_tolist df in
  Ok values.

End Engine.

(** ** Profit helpers *)

(** [profit_unit_stake(odds, outcome)]; [pd.isna(odds)] is [isnan]. *)
Definition profit_unit_stake (odds : float) (outcome : string) : float :=
  if isnan odds then Fin 0
  else if String.eqb outcome "Vinta" then fsub odds (Fin 1)
  else if String.eqb outcome "Persa" then Fin (- (1))
  else Fin 0.

(** [profit_with_stake(odds, outcome, stake)]. *)
Definition profit_with_stake (odds : float) (outcome : string) (stake : float) : float :=
  if isnan odds || isnan stake then Fin 0
  else if String.eqb outcome "Vinta" then fmul stake (fsub odds (Fin 1))
  else if String.eqb outcome "Persa" then fneg stake
  else Fin 0.

(** ** A reference runtime

    [cpython] reads plain decimal literals ([12], [-3], [1.80], [.5]) as the
    rationals they spell, [inf] with an optional sign, and [nan]; it strips
    ASCII white space; it spells the numbers of the "ID" column as integers
    and the others as floats.  Beyond the exact ranges it does as NumPy 2 on
    x86-64: the sum of a Python int that is no int64 and a [numpy.int64]
    raises [OverflowError], a float64 column rounds an integer to the nearest
    float64, ties to even, and the cast of a float past int64 gives -2^63. *)

Module Ref.

Definition is_digit (a : ascii) : bool :=
  ((48 <=? nat_of_ascii a) && (nat_of_ascii a <=? 57))%nat.

Definition is_space (a : ascii) : bool :=
  let n := nat_of_ascii a in
  (((9 <=? n) && (n <=? 13)) || ((28 <=? n) && (n <=? 32)))%nat.

Fixpoint all_space (s : string) : bool :=
  match s with
  | EmptyString => true
  | String a s' => is_space a && all_space s'
  end.

Fixpoint digits_value (s : string) (acc : Z) : option Z :=
  match s with
  | EmptyString => Some acc
  | String a s' =>
      if is_digit a
      then digits_value s' (10 * acc + Z.of_nat (nat_of_ascii a - 48))%Z
      else None
  end.

(** The text before the first dot, and the text after it when there is one. *)
Fixpoint split_dot (s : string) : string * option string :=
  match s with
  | EmptyString => (EmptyString, None)
  | String a s' =>
      if Ascii.eqb a "."%char then (EmptyString, Some s')
      else let (i, f) := split_dot s' in (String a i, f)
  end.

Definition parse_unsigned (s : string) : option Q :=
  let (i, f) := split_dot s in
  let f := match f with Some f => f | None => EmptyString end in
  if ((String.length i + String.length f) =? 0)%nat then None
  else
    match digits_value i 0, digits_value f 0 with
    | Some a, Some b =>
        let scale := Pos.pow 10 (Pos.of_nat (String.length f)) in
        if (String.length f =? 0)%nat then Some (inject_Z a)
        else Some (Qred (Qmake (a * Zpos scale + b) scale))
    | _, _ => None
    end.

Definition parse_float (s : string) : float :=
  let '(negative, body) :=
    match s with
    | String "-"%char s' => (true, s')
    | String "+"%char s' => (false, s')
    | _ => (false, s)
    end in
  if String.eqb body "inf" then Inf negative
  else match parse_unsigned body with
       | Some q => Fin (if negative then - q else q)
       | None => NaN
       end.

Definition digit_char (d : Z) : ascii := ascii_of_nat (48 + Z.to_nat d).

Fixpoint Z_digits (fuel : nat) (n : Z) (acc : string) : string :=
  match fuel with
  | O => acc
  | S fuel' =>
      let acc := String (digit_char (n mod 10)) acc in
      if (n / 10 =? 0)%Z then acc else Z_digits fuel' (n / 10) acc
  end.

Definition nat_str (n : Z) : string := Z_digits (S (Z.to_nat (Z.log2 n))) n "".

Definition int_str (z : Z) : string :=
  if (z <? 0)%Z then "-" ++ nat_str (- z) else nat_str z.

Fixpoint frac_digits (fuel : nat) (r d : Z) : string :=
  match fuel with
  | O => ""
  | S fuel' =>
      if (r =? 0)%Z then ""
      else String (digit_char (10 * r / d)) (frac_digits fuel' ((10 * r) mod d) d)
  end.

Definition finite_str (q : Q) : string :=
  let n := Qnum q in
  let d := Zpos (Qden q) in
  let f := frac_digits 17 (Z.abs n mod d) d in
  (if (n <? 0)%Z then "-" else "") ++ nat_str (Z.abs n / d) ++ "."
    ++ (if String.eqb f "" then "0" else f).

Definition float_str (label : string) (x : float) : string :=
  match x with
  | NaN => "nan"
  | Inf negative => if negative then "-inf" else "inf"
  | Fin q => if String.eqb label "ID" then int_str (Qtrunc q) else finite_str q
  end.

(** The float64 nearest to an integer beyond 2^53, ties to even: 53 bits of
    the magnitude are kept. *)
Definition nearest_float64 (z : Z) : float :=
  let a := Z.abs z in
  let k := (Z.log2 a - 52)%Z in
  let m := Z.shiftr a k in
  let r := Z.land a (Z.ones k) in
  let half := Z.shiftl 1 (k - 1) in
  let m := if (half <? r)%Z || ((r =? half)%Z && Z.odd m) then (m + 1)%Z else m in
  of_int (Z.sgn z * Z.shiftl m k).

(** [s.strip()] on ASCII white space. *)
Fixpoint lstrip (s : string) : string :=
  match s with
  | String a s' => if is_space a then lstrip s' else s
  | EmptyString => EmptyString
  end.

Fixpoint rstrip (s : string) : string :=
  match s with
  | String a s' =>
      let t := rstrip s' in
      if is_space a && String.eqb t "" then EmptyString else String a t
  | EmptyString => EmptyString
  end.

Definition strip (s : string) : string := rstrip (lstrip s).

End Ref.

#[export] Instance cpython : Runtime := {
  str_to_float := Ref.parse_float;
  strip_is_empty := Ref.all_space;
  num_to_str := Ref.float_str;
  range_beyond_int64 := fun _ _ => Raise OverflowError;
  float64_of_large := Ref.nearest_float64;
  int64_of_large := fun _ => Ok (- 2 ^ 63)%Z
}.

(** ** Example tables *)

Module Examples.

Definition today : string := "2024-05-01".

(** Single wagers read from a sheet in which the id 3 occurs twice. *)
Definition duplicated_table : DataFrame :=
  mkDF 3
    [ ("ID", [Str "3"; Str "3"; Str "7"]);
      ("Data", [Str "2024-01-10"; Str ""; Str "2024-02-01"]);
      ("Campionato", [Str "Serie A"; Str "Serie C"; Str "Liga"]);
      ("Partita", [Str "Juve - Napoli"; Str "Pisa - Lucca"; Str "Real - Betis"]);
      ("Mercato", [Str "MG 1-2 Casa"; Str ""; Str "MG 2-4"]);
      ("Quota", [Str "1.80"; Str "boh"; Str "2.5"]);
      ("Esito", [Str "Vinta"; Str ""; Str "persa"]);
      ("Note", [Str ""; Str "x"; Str ""]) ].

(** Combination wagers, one of them without an id. *)
Definition gaps_table : DataFrame :=
  mkDF 3
    [ ("ID", [Str "7"; Str ""; Str "3"]);
      ("Data", [Str "2024-01-10"; Str "2024-01-11"; Str "2024-02-01"]);
      ("Multipla", [Str "a"; Str "b"; Str "c"]);
      ("Quota Totale", [Str "2.5"; Str ""; Str "4"]);
      ("Stake", [Str "10"; Str "dieci"; Str "3.5"]);
      ("Esito", [Str "Vinta"; Str "Persa"; Str "In attesa"]);
      ("Note", [Str ""; Str ""; Str ""]) ].

(** A sheet edited by hand: ids that are numbers but not valid ids. *)
Definition fractional_table : DataFrame :=
  mkDF 2 [ ("ID", [Str "2.5"; Str ""]) ].

Definition colliding_table : DataFrame :=
  mkDF 2 [ ("ID", [Str "1"; Str "1.5"]);
           ("Data", [Str "2024-01-10"; Str "2024-01-10"]) ].

Definition infinite_table : DataFrame :=
  mkDF 1 [ ("ID", [Str "inf"]) ].

Definition zero_table : DataFrame :=
  mkDF 1 [ ("ID", [Str "0"]) ].

(** Combination wagers typed into a sheet that has no "ID" column. *)
Definition unnumbered_table : DataFrame :=
  mkDF 2
    [ ("Data", [Str "2024-03-01"; Str "2024-03-02"]);
      ("Multipla", [Str "x"; Str "y"]);
      ("Quota Totale", [Str "3"; Str "2"]);
      ("Stake", [Str "5"; Str "5"]);
      ("Esito", [Str "Vinta"; Str "In attesa"]) ].

(** Ids at the edge of what float64 holds exactly, and past int64. *)
Definition edge_table : DataFrame :=
  mkDF 2 [ ("ID", [Str "9007199254740992"; Str ""]) ].

Definition beyond_table : DataFrame :=
  mkDF 2 [ ("ID", [Str "10000000000000000000"; Str ""]) ].

(** Single wagers as [load_singole] returns them. *)
Definition stored_singole : DataFrame :=
  mkDF 2
    [ ("ID", [Int 1; Int 4]);
      ("Data", [Str "2024-01-10"; Str "2024-02-01"]);
      ("Campionato", [Str "Serie A"; Str "Liga"]);
      ("Partita", [Str "Juve - Napoli"; Str "Real - Betis"]);
      ("Mercato", [Str "MG 1-2 Casa"; Str "MG 2-4"]);
      ("Quota", [Num (Fin (9 # 5)); Num NaN]);
      ("Esito", [Str "Vinta"; Str "Persa"]);
      ("Note", [Str ""; Str ""]) ].

(** Combination wagers as [load_multiple] returns them. *)
Definition stored_multiple : DataFrame :=
  mkDF 1
    [ ("ID", [Int 2]);
      ("Data", [Str "2024-01-10"]);
      ("Multipla", [Str "a + b"]);
      ("Quota Totale", [Num (Fin 4)]);
      ("Stake", [Num (Fin 10)]);
      ("Esito", [Str "Vinta"]);
      ("Note", [Str ""]) ].

(** A worksheet kept by hand: three of the columns, and a short row. *)
Definition hand_sheet : Worksheet :=
  [ ["Partita"; "Quota"; "Esito"];
    ["Inter - Milan"; "1.9"; "Vinta"];
    ["Roma - Lazio"] ].

(** Single wagers as the table editor returns them: the second row is new,
    and its free-text cells are empty. *)
Definition edited_table : DataFrame :=
  mkDF 2
    [ ("ID", [Int 1; PyNone]);
      ("Data", [Str "2024-01-10"; PyNone]);
      ("Campionato", [Str "Serie A"; Str "Liga"]);
      ("Partita", [Str "Juve - Napoli"; PyNone]);
      ("Mercato", [Str "MG 1-2 Casa"; PyNone]);
      ("Quota", [Num (Fin (9 # 5)); Num (Fin 2)]);
      ("Esito", [Str "Vinta"; Str "In attesa"]);
      ("Note", [Str ""; PyNone]) ].

End Examples.

(** ** Views used by the statements *)

Section Views.

Context {R : Runtime}.

(** A table is well formed when its labels are distinct and every column has
    one cell per row. *)
Fixpoint distinct (l : list string) : bool :=
  match l with
  | [] => true
  | c :: l' => negb (mem c l') && distinct l'
  end.

Definition wf (df : DataFrame) : bool :=
  distinct (labels df)
  && forallb (fun cs => (length (snd cs) =? nrows df)%nat) (cols df).

(** The column [c] as [_normalize] sees it after its first loop: the column of
    the table, or a column of empty strings when the table has none. *)
Definition column (df : DataFrame) (c : string) : Series :=
  match assoc c (cols df) with
  | Some s => s
  | None => repeat (Str "") (nrows df)
  end.

(** What the statements of [_normalize] do to one column, composed. *)
Definition coerce_esito (s : Series) : Series :=
  let s := replace "" "In attesa" (fillna (Str "") s) in
  loc_set (map negb (isin OUTCOMES s)) (Str "In attesa") s.

Definition coerce_data (now : string) (s : Series) : Series :=
  let s := fillna (Str "") s in
  loc_set (blank "Data" s) (Str now) s.

Definition coerce_campionato (s : Series) : Series :=
  let s := fillna (Str "Altro") s in
  loc_set (map negb (isin LEAGUES s)) (Str "Altro") s.

Definition coerce_text (s : Series) : Series := fillna (Str "") s.

Definition coerce_number (s : Series) : Series := numeric (to_numeric s).

Definition coerce_stake (s : Series) : Series :=
  fillna (Num (Fin 0)) (numeric (to_numeric s)).

(** The coercions as the specification words them, cell by cell.  An outcome
    outside [OUTCOMES] (the empty one included) is "In attesa"; a league
    outside [LEAGUES] is "Altro"; odds that do not parse are null; a stake
    that does not parse is 0. *)
Definition outcome_of_spec (c : cell) : cell :=
  match c with
  | Str s => if mem s OUTCOMES then Str s else Str "In attesa"
  | _ => Str "In attesa"
  end.

Definition league_of_spec (c : cell) : cell :=
  match c with
  | Str s => if mem s LEAGUES then Str s else Str "Altro"
  | _ => Str "Altro"
  end.

Definition odds_of_spec (c : cell) : cell :=
  if isnan (to_float c) then Num NaN else Num (to_float c).

Definition stake_of_spec (c : cell) : cell :=
  if isnan (to_float c) then Num (Fin 0) else Num (to_float c).

(** The id a cell of the "ID" column of a normalised table holds. *)
Definition id_of (c : cell) : Z :=
  match c with Num x => int_value x | _ => 0%Z end.

Definition positive_ids (s : Series) : bool :=
  forallb (fun c => (0 <? id_of c)%Z) s.

(** The canonical form of a table: what the cells of each column are once
    normalised.  Dates are strings that [strip] does not empty, outcomes and
    leagues belong to their lists, odds are numbers or null, stakes are
    numbers, the other fields are strings. *)
Definition text_cell (c : cell) : bool :=
  match c with Str _ => true | _ => false end.

Definition date_cell (c : cell) : bool :=
  match c with Str s => negb (strip_is_empty s) | _ => false end.

Definition outcome_cell (c : cell) : bool :=
  match c with Str s => mem s OUTCOMES | _ => false end.

Definition league_cell (c : cell) : bool :=
  match c with Str s => mem s LEAGUES | _ => false end.

Definition number_cell (c : cell) : bool :=
  match c with Num _ => true | _ => false end.

Definition stake_cell (c : cell) : bool :=
  match c with Num x => negb (isnan x) | _ => false end.

Definition cell_ok (label : string) : cell -> bool :=
  if String.eqb label "Data" then date_cell
  else if String.eqb label "Esito" then outcome_cell
  else if String.eqb label "Campionato" then league_cell
  else if String.eqb label "Quota" then number_cell
  else if String.eqb label "Quota Totale" then number_cell
  else if String.eqb label "Stake" then stake_cell
  else text_cell.

(** Whole ids that a float64 column holds exactly, in a table of no more rows
    than that. *)
Definition exact_ints (zs : list Z) : Prop :=
  Forall (fun z => (- max_exact <= z <= max_exact)%Z) zs
  /\ (Z.of_nat (length zs) <= max_exact)%Z.

(** A table in canonical form: the columns of its kind in their order, whole
    ids within the exact range that increase down the rows, and cells as
    [cell_ok] says. *)
Definition canonical (req : list string) (df : DataFrame) : Prop :=
  exists (zs : list Z) (body : list (string * Series)),
    cols df = ("ID", integers zs) :: body
    /\ "ID" :: map fst body = req
    /\ Sorted Z.lt zs
    /\ exact_ints zs
    /\ length zs = nrows df
    /\ Forall (fun cs => length (snd cs) = nrows df
                         /\ forallb (cell_ok (fst cs)) (snd cs) = true) body.

(** The free-text columns of a kind, the date among them. *)
Definition text_columns (kind : string) : list string :=
  if String.eqb kind "singole" then [ "Data"; "Partita"; "Mercato"; "Note" ]
  else [ "Data"; "Multipla"; "Note" ].

(** A cell that is a string or missing. *)
Definition text_or_null (c : cell) : bool :=
  match c with Num x => isnan x | _ => true end.

(** A table whose free-text columns hold strings or nothing, as the rows read
    from a worksheet and the rows of the form do. *)
Definition raw_text (kind : string) (df : DataFrame) : bool :=
  forallb (fun c => forallb text_or_null (column df c)) (text_columns kind).

(** Two floats that are the same value, written the same way. *)
Definition float_same (x y : float) : bool :=
  match x, y with
  | NaN, NaN => true
  | Inf s, Inf t => Bool.eqb s t
  | Fin a, Fin b => (Qnum a =? Qnum b)%Z && (Qden a =? Qden b)%positive
  | _, _ => false
  end.

(** Every number of the table is read back from the string [astype(str)]
    writes for it. *)
Definition reads_cell (label : string) (v : cell) : bool :=
  match v with
  | Num x => float_same (to_float (Str (astype_str label v))) x
  | _ => true
  end.

Definition reads_back (df : DataFrame) : bool :=
  forallb (fun cs => forallb (reads_cell (fst cs)) (snd cs)) (cols df).

(** The table [pd.DataFrame(rows, columns=header)] builds from the rows
    [values_tolist] made of a table. *)
Definition stringified (df : DataFrame) : DataFrame :=
  mkDF (nrows df)
    (map (fun cs => (fst cs, map (fun v => Str (astype_str (fst cs) v)) (snd cs)))
         (cols df)).

(** The test of [_ensure_ids] for ids that occur twice. *)
Definition duplicated_ids (id_num : list float) : bool :=
  (0 <? count_true (notna id_num))%nat
  && any (duplicated (filter (fun x => negb (isnan x)) id_num)).

(** What [_ensure_ids] computes for the "ID" column, from its numeric
    reading. *)
Definition reconcile (id_num : list float) : result (list Z) :=
  if duplicated_ids id_num
  then Ok (range 1 (Z.of_nat (length id_num) + 1))
  else
    max_id <- (if any (notna id_num) then py_int (series_max id_num) else Ok 0%Z) ;;
    let missing := map isnan id_num in
    cur <- (if any missing
            then
              fresh <- int_range (max_id + 1) (Z.of_nat (count_true missing)) ;;
              if (length fresh =? count_true missing)%nat
              then Ok (loc_set_list missing
                         (numeric (map float64_of_int fresh)) (numeric id_num))
              else Raise ValueError
            else Ok (numeric id_num)) ;;
    astype_int (to_numeric cur).

(** The ids of the branch of [_ensure_ids] that keeps the ids it finds: a
    numeric id is cast to [int], a missing one takes the next fresh value. *)
Fixpoint fill_ids (next : Z) (id_num : list float) : list Z :=
  match id_num with
  | [] => []
  | x :: l =>
      if isnan x then next :: fill_ids (next + 1) l
      else int_value x :: fill_ids next l
  end.

(** The value [max_id] takes in [_ensure_ids] when no id is infinite. *)
Definition max_id_of (id_num : list float) : Z := int_value (series_max id_num).

(** An id that int64 and float64 both hold exactly: missing, or a number of
    magnitude at most 2^53. *)
Definition in_exact_range (x : float) : bool :=
  match x with
  | NaN => true
  | Inf _ => false
  | Fin q => Qle_bool (inject_Z (- max_exact)) q && Qle_bool q (inject_Z max_exact)
  end.

(** Ids on which the arithmetic of [_ensure_ids] is exact: every numeric id
    is within the exact range, so is the last of the ids given to the rows
    that have none, and the table has at most 2^53 rows. *)
Definition exact_ids (id_num : list float) : bool :=
  forallb in_exact_range id_num
  && (max_id_of id_num + Z.of_nat (count_true (map isnan id_num)) <=? max_exact)%Z
  && (Z.of_nat (length id_num) <=? max_exact)%Z.

(** A cell that reads as nothing, or as a number of magnitude at most 2^52:
    a table of at most 2^52 rows whose ids are such has [exact_ids]. *)
Definition half_range (x : float) : bool :=
  match x with
  | NaN => true
  | Inf _ => false
  | Fin q => Qle_bool (inject_Z (- 2 ^ 52)) q && Qle_bool q (inject_Z (2 ^ 52))
  end.

(** A table that has room for one more row within the exact range: fewer
    than 2^53 rows, and every id below 2^53. *)
Definition room_for_row (df : DataFrame) : bool :=
  (Z.of_nat (nrows df) <? max_exact)%Z
  && forallb (fun c => match c with
                       | Num (Fin q) => Qle_bool q (inject_Z (max_exact - 1))
                       | _ => true
                       end) (column df "ID").

(** Ids that hold an infinity, or on which the arithmetic is exact. *)
Definition exact_unless_infinite (id_num : list float) : bool :=
  negb (forallb known id_num) || exact_ids id_num.

(** The ids given to the rows that had none, in row order. *)
Definition fresh_ids (id_num : list float) (ids : list Z) : list Z :=
  map snd (filter (fun p => isnan (fst p)) (combine id_num ids)).

(** The columns of a normalised table before the final sort, given the ids. *)
Definition coerced_cols (now kind : string) (df : DataFrame) (ids : list Z)
  : list (string * Series) :=
  if String.eqb kind "singole" then
    [ ("ID", integers ids);
      ("Data", coerce_data now (column df "Data"));
      ("Campionato", coerce_campionato (column df "Campionato"));
      ("Partita", coerce_text (column df "Partita"));
      ("Mercato", coerce_text (column df "Mercato"));
      ("Quota", coerce_number (column df "Quota"));
      ("Esito", coerce_esito (column df "Esito"));
      ("Note", coerce_text (column df "Note")) ]
  else
    [ ("ID", integers ids);
      ("Data", coerce_data now (column df "Data"));
      ("Multipla", coerce_text (column df "Multipla"));
      ("Quota Totale", coerce_number (column df "Quota Totale"));
      ("Stake", coerce_stake (column df "Stake"));
      ("Esito", coerce_esito (column df "Esito"));
      ("Note", coerce_text (column df "Note")) ].

End Views.

(** ** The forms and the reports

    The blocks of the script that run when a form is submitted and the lines
    that compute the report of the single wagers, as functions of what the
    widgets return.  [strip] is Python's [str.strip]. *)

(** [x + y] on floats, exact on finite values. *)
Definition fadd (x y : float) : float :=
  match x, y with
  | NaN, _ | _, NaN => NaN
  | Inf s, Inf t => if Bool.eqb s t then Inf s else NaN
  | Inf s, Fin _ | Fin _, Inf s => Inf s
  | Fin a, Fin b => Fin (a + b)
  end.

(** [x / n] for a float [x] and an integer [n > 0]. *)
Definition fdiv_count (x : float) (n : nat) : float :=
  match x with
  | Fin a => Fin (a / inject_Z (Z.of_nat n))
  | _ => x
  end.

(** [(x / n * 100) if n else 0.0] for a count [n]. *)
Definition percent_of (x : float) (n : nat) : float :=
  match n with
  | O => Fin 0
  | S _ => fmul (fdiv_count x n) (Fin 100)
  end.

(** [s == v] for a string [v]. *)
Definition eq_str (v : string) (s : Series) : list bool :=
  map (fun c => match c with Str t => String.eqb t v | _ => false end) s.

(** [s[mask]]. *)
Fixpoint select_rows {A : Type} (mask : list bool) (l : list A) : list A :=
  match mask, l with
  | b :: mask', x :: l' => if b then x :: select_rows mask' l' else select_rows mask' l'
  | _, _ => []
  end.

(** [s.sum()]: the sum of the values that are not [nan], 0 for none.  The
    sum is exact; the float64 sum of pandas rounds, and gives an infinity
    once it passes the largest float64 (about 1.8e308). *)
Definition series_sum (s : list float) : float :=
  fold_left fadd (filter (fun x => negb (isnan x)) s) (Fin 0).

(** The outcome the comparisons of the profit helpers see in a cell: a cell
    that is not a string equals neither "Vinta" nor "Persa". *)
Definition outcome_text (c : cell) : string :=
  match c with Str s => s | _ => "" end.

Section Forms.

Context {R : Runtime}.

Variable strip : string -> string.

Definition load_singole (now : string) (ws : Worksheet) :=
  _load_generic now ws "singole".

Definition load_multiple (now : string) (ws : Worksheet) :=
  _load_generic now ws "multiple".

Definition write_singole (now : string) (ws : Worksheet) (df : DataFrame) :=
  _write_generic now ws df "singole".

Definition write_multiple (now : string) (ws : Worksheet) (df : DataFrame) :=
  _write_generic now ws df "multiple".

(** [1 if df.empty else int(pd.to_numeric(df["ID"], errors="coerce").max()) + 1]. *)
Definition next_id (df : DataFrame) : result Z :=
  if empty df then Ok 1%Z
  else
    ids <- getitem df "ID" ;;
    m <- py_int (series_max (to_numeric ids)) ;;
    Ok (m + 1)%Z.

(** [pd.DataFrame([row])] for a dict. *)
Definition row_frame (row : list (string * cell)) : DataFrame :=
  mkDF 1 (map (fun kv => (fst kv, [snd kv])) row).

(** [pd.concat([a, b], ignore_index=True)]: the columns of [a], then those of
    [b] that [a] has not; a table that lacks a column has [nan] there. *)
Definition col_or_nan (df : DataFrame) (c : string) : Series :=
  match assoc c (cols df) with
  | Some s => s
  | None => repeat (Num NaN) (nrows df)
  end.

Definition concat (a b : DataFrame) : DataFrame :=
  mkDF (nrows a + nrows b)
    (map (fun c => (c, col_or_nan a c ++ col_or_nan b c))
         (labels a ++ filter (fun c => negb (mem c (labels a))) (labels b))).

(** The dict [new_row] of the form of the single wagers. *)
Definition new_singola (next : Z) (now campionato partita mercato : string)
  (quota : float) (esito note : string) : list (string * cell) :=
  [ ("ID", Int next);
    ("Data", Str now);
    ("Campionato", Str campionato);
    ("Partita", Str (strip partita));
    ("Mercato", Str (strip mercato));
    ("Quota", Num quota);
    ("Esito", Str esito);
    ("Note", Str (strip note)) ].

(** The dict [new_row] of the form of the combination wagers. *)
Definition new_multipla (next : Z) (now multipla : string)
  (quota_tot stake : float) (esito note : string) : list (string * cell) :=
  [ ("ID", Int next);
    ("Data", Str now);
    ("Multipla", Str (strip multipla));
    ("Quota Totale", Num quota_tot);
    ("Stake", Num stake);
    ("Esito", Str esito);
    ("Note", Str (strip note)) ].

(** The block under [if add:]: the id given and the worksheet written.
    [now] is the date the form reads, [now'] the one [_normalize] reads. *)
Definition add_singola (now now' : string) (ws : Worksheet) (df_s : DataFrame)
  (campionato partita mercato : string) (quota : float) (esito note : string)
  : result (Z * Worksheet) :=
  next <- next_id df_s ;;
  let new_row := new_singola next now campionato partita mercato quota esito note in
  let df2 := concat df_s (row_frame new_row) in
  ws' <- write_singole now' ws df2 ;;
  Ok (next, ws').

(** The block under [if add_m:]. *)
Definition add_multipla (now now' : string) (ws : Worksheet) (df_m : DataFrame)
  (multipla : string) (quota_tot stake : float) (esito note : string)
  : result (Z * Worksheet) :=
  next <- next_id df_m ;;
  let new_row := new_multipla next now multipla quota_tot stake esito note in
  let df2 := concat df_m (row_frame new_row) in
  ws' <- write_multiple now' ws df2 ;;
  Ok (next, ws').

End Forms.

Section Reports.

Context {R : Runtime}.

(** The report of the single wagers (stake 1), but for [avg_odds_wins]. *)
Record Report : Type := mkReport {
  tot_closed : nat;
  wins : nat;
  losses : nat;
  pending : nat;
  win_rate : float;
  profit_total : float;
  roi : float
}.

(** [df_calc.apply(lambda r: profit_unit_stake(r["Quota"], r["Esito"]), axis=1)]. *)
Fixpoint profit_rows (quota : list float) (esito : Series) : list float :=
  match quota, esito with
  | q :: quota', e :: esito' =>
      profit_unit_stake q (outcome_text e) :: profit_rows quota' esito'
  | _, _ => []
  end.

(** The lines from [df_calc = df_s.copy()] to [roi = ...], for a table with
    rows. *)
Definition report_singole (df_s : DataFrame) : result Report :=
  quota <- getitem df_s "Quota" ;;
  let df_calc := setitem df_s "Quota" (numeric (to_numeric quota)) in
  let quota := to_numeric quota in
  esito <- getitem df_calc "Esito" ;;
  let profit := profit_rows quota esito in
  let closed := isin ["Vinta"; "Persa"] esito in
  let esito_closed := select_rows closed esito in
  let profit_closed := select_rows closed profit in
  let tot_closed := length esito_closed in
  let wins := count_true (eq_str "Vinta" esito_closed) in
  let losses := count_true (eq_str "Persa" esito_closed) in
  let pending := count_true (eq_str "In attesa" esito) in
  let win_rate := percent_of (of_int (Z.of_nat wins)) tot_closed in
  let profit_total :=
    if (tot_closed =? 0)%nat then Fin 0 else series_sum profit_closed in
  let roi := percent_of profit_total tot_closed in
  Ok (mkReport tot_closed wins losses pending win_rate profit_total roi).

End Reports.

(** ** The report of the combination wagers *)

Section ReportsMultiple.

Context {R : Runtime}.

(** The report of the combination wagers, but for [avg_odds_wins_m]. *)
Record ReportM : Type := mkReportM {
  tot_closed_m : nat;
  wins_m : nat;
  losses_m : nat;
  pending_m : nat;
  win_rate_m : float;
  profit_total_m : float;
  stake_total_m : float;
  roi_m : float
}.

(** [dfm.apply(lambda r: profit_with_stake(r["Quota Totale"], r["Esito"], r["Stake"]), axis=1)]. *)
Fixpoint profit_rows_m (quota stake : list float) (esito : Series) : list float :=
  match quota, stake, esito with
  | q :: quota', s :: stake', e :: esito' =>
      profit_with_stake q (outcome_text e) s :: profit_rows_m quota' stake' esito'
  | _, _, _ => []
  end.

(** [(p / s * 100) if s else 0.0] for floats: a float is false when it is 0. *)
Definition percent_of_stake (p s : float) : float :=
  match s with
  | NaN => NaN
  | Inf _ => fmul (match p with Fin _ => Fin 0 | _ => NaN end) (Fin 100)
  | Fin b =>
      if Qeq_bool b 0 then Fin 0
      else fmul (match p with
                 | NaN => NaN
                 | Inf t => Inf (xorb t (Qneg_b b))
                 | Fin a => Fin (a / b)
                 end) (Fin 100)
  end.

(** The lines from [dfm = df_m.copy()] to [roi_m = ...], for a table with
    rows. *)
Definition report_multiple (df_m : DataFrame) : result ReportM :=
  quota <- getitem df_m "Quota Totale" ;;
  let dfm := setitem df_m "Quota Totale" (numeric (to_numeric quota)) in
  stake <- getitem dfm "Stake" ;;
  let stake := fillna (Num (Fin 0)) (numeric (to_numeric stake)) in
  let dfm := setitem dfm "Stake" stake in
  let quota := to_numeric quota in
  let stake := to_numeric stake in
  esito <- getitem dfm "Esito" ;;
  let profit := profit_rows_m quota stake esito in
  let closed := isin ["Vinta"; "Persa"] esito in
  let esito_closed := select_rows closed esito in
  let tot_closed := length esito_closed in
  let wins := count_true (eq_str "Vinta" esito_closed) in
  let losses := count_true (eq_str "Persa" esito_closed) in
  let pending := count_true (eq_str "In attesa" esito) in
  let win_rate := percent_of (of_int (Z.of_nat wins)) tot_closed in
  let profit_total :=
    if (tot_closed =? 0)%nat then Fin 0
    else series_sum (select_rows closed profit) in
  let stake_total :=
    if (tot_closed =? 0)%nat then Fin 0
    else series_sum (select_rows closed stake) in
  let roi := percent_of_stake profit_total stake_total in
  Ok (mkReportM tot_closed wins losses pending win_rate profit_total
        stake_total roi).

End ReportsMultiple.

(** ** The other two scripts

    [load_from_sheet] and [write_to_sheet] of
    [mg_simulazione_app_gsheet_sync_full_MGSTORICO.py], whose one table has
    the columns of the single wagers, and the worksheet functions and the
    profit loop of [mg_decision_app_gsheet_v2.py]. *)

Section OtherScripts.

Context {R : Runtime}.

Definition load_from_sheet (now : string) (ws : Worksheet)
  : result (Worksheet * DataFrame) :=
  let ws := fst (_ensure_header ws REQUIRED_COLUMNS_SINGOLE) in
  let values := get_all_values ws in
  if ((length values =? 0) || (length values =? 1))%nat
  then Ok (ws, new_frame REQUIRED_COLUMNS_SINGOLE)
  else
    let header := hd [] values in
    let rows := tl values in
    df <- frame_of_rows rows header ;;
    df <- _normalize_storico now (Some df) ;;
    Ok (ws, df).

Definition write_to_sheet (now : string) (ws : Worksheet) (df : DataFrame)
  : result Worksheet :=
  let ws := fst (_ensure_header ws REQUIRED_COLUMNS_SINGOLE) in
  df <- _normalize_storico now (Some df) ;;
  let values := REQUIRED_COLUMNS_SINGOLE :: values_tolist df in
  Ok values.

Definition COLUMNS : list string :=
  [ "Campionato"; "Partita"; "Giocata"; "Quota"; "Esito"; "Note";
    "DataInserimento" ].

(** [ws.append_row(row)] and [ws.clear()]. *)
Definition append_row (ws : Worksheet) (row : list string) : Worksheet :=
  ws ++ [row].

Definition clear (ws : Worksheet) : Worksheet := [].

(** [a == b] on lists of strings. *)
Fixpoint labels_eqb (a b : list string) : bool :=
  match a, b with
  | [], [] => true
  | x :: a', y :: b' => String.eqb x y && labels_eqb a' b'
  | _, _ => false
  end.

(** [open_ws]: the worksheet it leaves. *)
Definition open_ws (ws : Worksheet) : Worksheet :=
  let values := get_all_values ws in
  if (length values =? 0)%nat then append_row ws COLUMNS
  else
    let header := hd [] values in
    if negb (labels_eqb header COLUMNS)
    then append_row (clear ws) COLUMNS
    else ws.

Definition sheet_to_df (ws : Worksheet) : result DataFrame :=
  let values := get_all_values ws in
  if (length values <=? 1)%nat then Ok (new_frame COLUMNS)
  else
    df <- frame_of_rows (tl values) (hd [] values) ;;
    quota <- getitem df "Quota" ;;
    let df := setitem df "Quota" (numeric (to_numeric quota)) in
    let df := add_missing df COLUMNS in
    select df COLUMNS.

(** The loop over [df.iterrows()] that adds up the profit; the "Quota" column
    holds floats. *)
Fixpoint profit_loop (quota : list float) (esito : Series) (profit : float)
  : float :=
  match quota, esito with
  | q :: quota', e :: esito' =>
      let profit :=
        if String.eqb (outcome_text e) "Vinta" then fadd profit (fsub q (Fin 1))
        else if String.eqb (outcome_text e) "Persa" then fsub profit (Fin 1)
        else profit in
      profit_loop quota' esito' profit
  | _, _ => profit
  end.

End OtherScripts.

(** ** Further views *)

(** The loop of [_ensure_header] over the required columns. *)
Definition add_labels (req header : list string) (changed : bool)
  : list string * bool :=
  fold_left
    (fun (st : list string * bool) c =>
       let (header, changed) := st in
       if negb (mem c header) then (header ++ [c], true) else st)
    req (header, changed).

(** The cell a dict has under a key ([None] without the key). *)
Fixpoint row_cell (row : list (string * cell)) (c : string) : cell :=
  match row with
  | [] => PyNone
  | (k, v) :: row' => if String.eqb k c then v else row_cell row' c
  end.

(** A table with one more row at its end. *)
Definition with_row (df : DataFrame) (row : list (string * cell)) : DataFrame :=
  mkDF (nrows df + 1)
       (map (fun cs => (fst cs, snd cs ++ [row_cell row (fst cs)])) (cols df)).

(** A stake as the report sees it: null, or a number that is not negative. *)
Definition fair_stake (x : float) : bool :=
  match x with
  | NaN => true
  | Fin q => Qle_bool 0 q
  | Inf _ => false
  end.

(** Odds as the forms give them: null, or a number that is at least 1. *)
Definition fair_odds (x : float) : bool :=
  match x with
  | NaN => true
  | Fin q => Qle_bool 1 q
  | Inf _ => false
  end.

(** Every closed wager has odds. *)
Fixpoint odds_given (quota : list float) (esito : Series) : bool :=
  match quota, esito with
  | q :: quota', e :: esito' =>
      (negb (String.eqb (outcome_text e) "Vinta" || String.eqb (outcome_text e) "Persa")
       || negb (isnan q))
      && odds_given quota' esito'
  | _, _ => true
  end.

(** Some won wager has null odds. *)
Fixpoint won_without_odds (quota : list float) (esito : Series) : bool :=
  match quota, esito with
  | q :: quota', e :: esito' =>
      (String.eqb (outcome_text e) "Vinta" && isnan q)
      || won_without_odds quota' esito'
  | _, _ => false
  end.

Section StoricoViews.

Context {R : Runtime}.

(** The columns [_normalize_storico] computes, before the rows are sorted:
    those of the single wagers, but "Partita" and "Mercato" as they come. *)
Definition coerced_cols_storico (now : string) (df : DataFrame) (ids : list Z)
  : list (string * Series) :=
  [ ("ID", integers ids);
    ("Data", coerce_data now (column df "Data"));
    ("Campionato", coerce_campionato (column df "Campionato"));
    ("Partita", column df "Partita");
    ("Mercato", column df "Mercato");
    ("Quota", coerce_number (column df "Quota"));
    ("Esito", coerce_esito (column df "Esito"));
    ("Note", coerce_text (column df "Note")) ].

End StoricoViews.

(** * Properties *)

(** ** The result monad *)

Lemma bind_ok {A B : Type} (r : result A) (k : A -> result B) (b : B) :
  bind r k = Ok b -> exists a, r = Ok a /\ k a = Ok b.
Proof.
  destruct r as [a|e]; simpl; intros H; [eauto | discriminate].
Qed.

(** ** Association lists and frames *)

Section FrameFacts.

Context {R : Runtime}.

Lemma assoc_assoc_set (c c' : string) (s : Series) (l : list (string * Series)) :
  assoc c (assoc_set c' s l) = if String.eqb c' c then Some s else assoc c l.
Proof.
  induction l as [|[k v] l IH]; simpl.
  - destruct (String.eqb c' c); reflexivity.
  - destruct (String.eqb k c') eqn:Ekc'; simpl.
    + apply String.eqb_eq in Ekc'; subst k.
      destruct (String.eqb c' c); reflexivity.
    + destruct (String.eqb k c) eqn:Ekc.
      * apply String.eqb_eq in Ekc; subst k.
        rewrite String.eqb_sym, Ekc'. reflexivity.
      * exact IH.
Qed.

Lemma assoc_set_twice (c : string) (s s' : Series) (l : list (string * Series)) :
  assoc_set c s' (assoc_set c s l) = assoc_set c s' l.
Proof.
  induction l as [|[k v] l IH]; simpl.
  - rewrite String.eqb_refl. reflexivity.
  - destruct (String.eqb k c) eqn:E; simpl; rewrite E; [reflexivity|].
    now rewrite IH.
Qed.

Lemma getitem_setitem (df : DataFrame) (c c' : string) (s : Series) :
  getitem (setitem df c' s) c
  = if String.eqb c' c then Ok s else getitem df c.
Proof.
  unfold getitem, setitem; simpl. rewrite assoc_assoc_set.
  destruct (String.eqb c' c); reflexivity.
Qed.

Lemma setitem_setitem (df : DataFrame) (c : string) (s s' : Series) :
  setitem (setitem df c s) c s' = setitem df c s'.
Proof.
  unfold setitem; simpl. now rewrite assoc_set_twice.
Qed.

Lemma has_column_assoc (df : DataFrame) (c : string) :
  has_column df c = match assoc c (cols df) with Some _ => true | None => false end.
Proof.
  unfold has_column, labels. induction (cols df) as [|[k v] l IH]; simpl; [reflexivity|].
  rewrite (String.eqb_sym c k). destruct (String.eqb k c); simpl; auto.
Qed.

Lemma empty_setitem (df : DataFrame) (c : string) (s : Series) :
  empty df = false -> empty (setitem df c s) = false.
Proof.
  unfold empty, setitem; simpl. intros H.
  apply orb_false_iff in H as [H1 _]. rewrite H1; simpl.
  destruct (cols df) as [|[k v] l]; simpl; [reflexivity|].
  destruct (String.eqb k c); reflexivity.
Qed.

Lemma nrows_add_missing (req : list string) (df : DataFrame) :
  nrows (add_missing df req) = nrows df.
Proof.
  unfold add_missing. revert df.
  induction req as [|c req IH]; intros df; simpl; [reflexivity|].
  rewrite IH. destruct (has_column df c); reflexivity.
Qed.

Lemma empty_add_missing (req : list string) (df : DataFrame) :
  empty df = false -> empty (add_missing df req) = false.
Proof.
  unfold add_missing. revert df.
  induction req as [|c req IH]; intros df H; simpl; [exact H|].
  apply IH. destruct (has_column df c); [exact H | now apply empty_setitem].
Qed.

Lemma assoc_add_missing (req : list string) (df : DataFrame) (c : string) :
  assoc c (cols (add_missing df req))
  = match assoc c (cols df) with
    | Some s => Some s
    | None => if mem c req then Some (repeat (Str "") (nrows df)) else None
    end.
Proof.
  unfold add_missing. revert df.
  induction req as [|k req IH]; intros df; simpl.
  - destruct (assoc c (cols df)); reflexivity.
  - rewrite IH. rewrite has_column_assoc.
    destruct (assoc k (cols df)) eqn:Ek; simpl.
    + destruct (assoc c (cols df)) eqn:Ec; [reflexivity|].
      destruct (String.eqb c k) eqn:Eck; simpl; [|reflexivity].
      apply String.eqb_eq in Eck; subst. congruence.
    + rewrite assoc_assoc_set. rewrite (String.eqb_sym c k).
      destruct (String.eqb k c) eqn:Ekc; simpl.
      * apply String.eqb_eq in Ekc; subst. now rewrite Ek.
      * destruct (assoc c (cols df)); reflexivity.
Qed.

Lemma getitem_add_missing (req : list string) (df : DataFrame) (c : string) :
  mem c req = true ->
  getitem (add_missing df req) c = Ok (column df c).
Proof.
  intros H. unfold getitem, column. rewrite assoc_add_missing, H.
  destruct (assoc c (cols df)); reflexivity.
Qed.

End FrameFacts.

(** ** [_ensure_ids] and [_normalize], column by column *)

Section NormalizeFacts.
Context {R : Runtime}.

Lemma wf_lengths (df : DataFrame) (c : string) (s : Series) :
  wf df = true -> assoc c (cols df) = Some s -> length s = nrows df.
Proof.
  unfold wf. intros H Hc. apply andb_true_iff in H as [_ H].
  rewrite forallb_forall in H.
  induction (cols df) as [|[k v] l IH]; simpl in *; [discriminate|].
  destruct (String.eqb k c).
  - injection Hc as <-. specialize (H (k, v) (or_introl eq_refl)).
    now apply Nat.eqb_eq in H.
  - apply IH; auto.
Qed.

Lemma column_length (df : DataFrame) (c : string) :
  wf df = true -> length (column df c) = nrows df.
Proof.
  intros H. unfold column. destruct (assoc c (cols df)) eqn:E.
  - eapply wf_lengths; eauto.
  - apply repeat_length.
Qed.

Lemma ensure_ids_spec (df : DataFrame) (ids : Series) :
  empty df = false -> getitem df "ID" = Ok ids -> length ids = nrows df ->
  _ensure_ids df
  = (z <- reconcile (to_numeric ids) ;; Ok (setitem df "ID" (integers z))).
Proof.
  intros He Hid Hlen. unfold _ensure_ids, reconcile, duplicated_ids.
  rewrite He, Hid. cbn [bind].
  assert (Hn : length (to_numeric ids) = nrows df)
    by (unfold to_numeric; now rewrite length_map).
  rewrite Hn.
  destruct ((0 <? count_true (notna (to_numeric ids)))%nat && _); cbn [bind].
  - now rewrite setitem_setitem.
  - destruct (if any (notna (to_numeric ids)) then _ else _) as [m|e]; cbn [bind];
      [|reflexivity].
    destruct (any (map isnan (to_numeric ids))); cbn [bind].
    + destruct (int_range _ _) as [fresh|e]; cbn [bind]; [|reflexivity].
      rewrite getitem_setitem, String.eqb_refl. cbn [bind].
      destruct (length fresh =? _)%nat; cbn [bind]; [|reflexivity].
      rewrite getitem_setitem, String.eqb_refl. cbn [bind].
      destruct (astype_int _); cbn [bind]; rewrite ?setitem_setitem; reflexivity.
    + rewrite getitem_setitem, String.eqb_refl. cbn [bind].
      destruct (astype_int _); cbn [bind]; rewrite ?setitem_setitem; reflexivity.
Qed.


Lemma nrows_setitem (df : DataFrame) (c : string) (s : Series) :
  nrows (setitem df c s) = nrows df.
Proof. reflexivity. Qed.

Ltac frame_step H :=
  repeat first
    [ rewrite setitem_setitem
    | rewrite getitem_setitem; simpl (String.eqb _ _)
    | rewrite H by reflexivity
    | progress cbn [bind] ].

Lemma normalize_spec (now : string) (df : DataFrame) (kind : string) (req : list string) :
  wf df = true -> empty df = false -> required_cols_of kind = Ok req ->
  _normalize now (Some df) req kind
  = (z <- reconcile (to_numeric (column df "ID")) ;;
     sort_values (mkDF (nrows df) (coerced_cols now kind df z)) "ID").
Proof.
  intros Hwf He Hk. unfold required_cols_of in Hk.
  unfold _normalize, coerced_cols. rewrite He.
  pose proof (empty_add_missing req df He) as He0.
  pose proof (nrows_add_missing req df) as Hn0.
  pose proof (fun c => getitem_add_missing req df c) as Hg.
  set (d0 := add_missing df req) in *. clearbody d0.
  destruct (String.eqb kind "singole") eqn:Ek.
  - injection Hk as <-.
    frame_step Hg.
    erewrite ensure_ids_spec;
      [ | repeat apply empty_setitem; exact He0
        | frame_step Hg; reflexivity
        | rewrite !nrows_setitem, Hn0; now apply column_length ].
    destruct (reconcile _) as [z|e]; cbn [bind]; [|reflexivity].
    unfold select, REQUIRED_COLUMNS_SINGOLE. cbn [select_cols]. frame_step Hg.
    rewrite !nrows_setitem, Hn0. reflexivity.
  - destruct (String.eqb kind "multiple") eqn:Ek'; [|discriminate].
    injection Hk as <-.
    frame_step Hg.
    erewrite ensure_ids_spec;
      [ | repeat apply empty_setitem; exact He0
        | frame_step Hg; reflexivity
        | rewrite !nrows_setitem, Hn0; now apply column_length ].
    destruct (reconcile _) as [z|e]; cbn [bind]; [|reflexivity].
    unfold select, REQUIRED_COLUMNS_MULTIPLE. cbn [select_cols]. frame_step Hg.
    rewrite !nrows_setitem, Hn0. reflexivity.
Qed.

Lemma fillna_no_null (v : cell) (s : Series) :
  forallb (fun c => negb (isna c)) s = true -> fillna v s = s.
Proof.
  intros H. unfold fillna. rewrite forallb_forall in H.
  rewrite <- (map_id s) at 2. apply map_ext_in. intros c Hc.
  specialize (H c Hc). now destruct (isna c).
Qed.

(** The single-table variant does not fill the nulls of "Partita" and
    "Mercato"; on a table that has none there (a table read from the sheet,
    where every cell is a string) it computes what the "singole" branch
    computes. *)
Lemma normalize_storico_agrees (now : string) (df : DataFrame) :
  wf df = true ->
  forallb (fun c => negb (isna c)) (column df "Partita") = true ->
  forallb (fun c => negb (isna c)) (column df "Mercato") = true ->
  _normalize_storico now (Some df)
  = _normalize now (Some df) REQUIRED_COLUMNS_SINGOLE "singole".
Proof.
  intros Hwf Hp Hm. destruct (empty df) eqn:He.
  - unfold _normalize_storico, _normalize. now rewrite He.
  - rewrite (@normalize_spec now df "singole" REQUIRED_COLUMNS_SINGOLE Hwf He eq_refl).
    unfold _normalize_storico, coerced_cols, coerce_text. rewrite He.
    rewrite (fillna_no_null _ _ Hp), (fillna_no_null _ _ Hm).
    pose proof (empty_add_missing REQUIRED_COLUMNS_SINGOLE df He) as He0.
    pose proof (nrows_add_missing REQUIRED_COLUMNS_SINGOLE df) as Hn0.
    pose proof (fun c => getitem_add_missing REQUIRED_COLUMNS_SINGOLE df c) as Hg.
    set (d0 := add_missing df REQUIRED_COLUMNS_SINGOLE) in *. clearbody d0.
    frame_step Hg.
    erewrite ensure_ids_spec;
      [ | repeat apply empty_setitem; exact He0
        | frame_step Hg; reflexivity
        | rewrite !nrows_setitem, Hn0; now apply column_length ].
    destruct (reconcile _) as [z|e]; cbn [bind]; [|reflexivity].
    unfold select, REQUIRED_COLUMNS_SINGOLE. cbn [select_cols]. frame_step Hg.
    rewrite !nrows_setitem, Hn0. reflexivity.
Qed.

End NormalizeFacts.

(** ** Insertion sort *)

Section SortFacts.

Variable A : Type.
Variable le : A -> A -> bool.

Let ordered (x y : A) : Prop := le x y = true.

Lemma insert_by_perm (x : A) (l : list A) :
  Permutation (insert_by le x l) (x :: l).
Proof.
  induction l as [|y l IH]; simpl; [reflexivity|].
  destruct (le x y); [reflexivity|].
  rewrite IH. apply perm_swap.
Qed.

Lemma sort_by_perm (l : list A) : Permutation (sort_by le l) l.
Proof.
  induction l as [|x l IH]; [reflexivity|].
  change (Permutation (insert_by le x (sort_by le l)) (x :: l)).
  rewrite insert_by_perm. now constructor.
Qed.

Lemma sort_by_sorted_input (l : list A) :
  Sorted ordered l -> sort_by le l = l.
Proof.
  induction 1 as [|x l Hs IH Hd]; [reflexivity|].
  change (insert_by le x (sort_by le l) = x :: l). rewrite IH.
  destruct Hd as [|y l Hxy]; simpl; [reflexivity|].
  unfold ordered in Hxy. now rewrite Hxy.
Qed.

Hypothesis le_total : forall x y, le x y = true \/ le y x = true.

Lemma insert_by_sorted (x : A) (l : list A) :
  Sorted ordered l -> Sorted ordered (insert_by le x l).
Proof.
  induction 1 as [|y l Hs IH Hd]; simpl.
  - repeat constructor.
  - destruct (le x y) eqn:E.
    + constructor; [now constructor|]. now constructor.
    + constructor; [exact IH|].
      destruct Hd as [|z l Hyz]; simpl.
      * constructor. destruct (le_total x y); [congruence|assumption].
      * destruct (le x z); constructor; [|assumption].
        destruct (le_total x y); [congruence|assumption].
  Qed.

Lemma sort_by_sorted (l : list A) : Sorted ordered (sort_by le l).
Proof.
  induction l as [|x l IH]; [constructor|].
  change (Sorted ordered (insert_by le x (sort_by le l))).
  now apply insert_by_sorted.
Qed.

End SortFacts.

(** ** The order of the keys *)

Lemma Qle_bool_inject_Z (a b : Z) :
  Qle_bool (inject_Z a) (inject_Z b) = (a <=? b)%Z.
Proof.
  unfold Qle_bool, inject_Z; simpl. now rewrite !Z.mul_1_r.
Qed.

Lemma Qeq_bool_inject_Z (a b : Z) :
  Qeq_bool (inject_Z a) (inject_Z b) = (a =? b)%Z.
Proof.
  unfold Qeq_bool, inject_Z; simpl. now rewrite !Z.mul_1_r.
Qed.

Lemma Qtrunc_inject_Z (z : Z) : Qtrunc (inject_Z z) = z.
Proof. unfold Qtrunc, inject_Z; simpl. apply Z.quot_1_r. Qed.

Lemma key_leb_of_int (a b : Z) : key_leb (of_int a) (of_int b) = (a <=? b)%Z.
Proof. unfold key_leb, of_int, float_leb. apply Qle_bool_inject_Z. Qed.

Lemma key_leb_total (x y : float) : key_leb x y = true \/ key_leb y x = true.
Proof.
  destruct x as [|[]|a], y as [|[]|b]; simpl; auto.
  unfold Qle_bool. destruct (Z.le_ge_cases (Qnum a * QDen b) (Qnum b * QDen a)) as [H|H].
  - left. now apply Z.leb_le.
  - right. now apply Z.leb_le.
Qed.

(** ** [argsort] and [take] *)

Lemma map_snd_combine {A B : Type} (l : list A) (l' : list B) :
  length l = length l' -> map snd (combine l l') = l'.
Proof.
  revert l'. induction l as [|a l IH]; intros [|b l'] H; simpl in *;
    try reflexivity; try discriminate.
  f_equal. apply IH. now injection H.
Qed.

Lemma argsort_perm (keys : list float) :
  Permutation (argsort keys) (seq 0 (length keys)).
Proof.
  unfold argsort.
  rewrite (sort_by_perm by_key).
  rewrite map_snd_combine; [reflexivity | now rewrite length_seq].
Qed.

Lemma map_snd_combine_seq (keys : list float) (k : nat) :
  map snd (combine keys (seq k (length keys))) = seq k (length keys).
Proof. apply map_snd_combine. now rewrite length_seq. Qed.

Lemma combine_seq_sorted (zs : list Z) (k : nat) :
  Sorted Z.le zs ->
  Sorted (fun a b => by_key a b = true)
         (combine (map of_int zs) (seq k (length (map of_int zs)))).
Proof.
  intros H. revert k.
  induction H as [|z zs Hs IH Hd]; intros k; cbn [map length seq combine].
  - constructor.
  - constructor; [apply IH|].
    destruct Hd as [|y zs Hzy]; cbn [map length seq combine]; constructor.
    unfold by_key; cbn [fst]. rewrite key_leb_of_int. now apply Z.leb_le.
Qed.

Lemma argsort_sorted_input (zs : list Z) :
  Sorted Z.le zs -> argsort (map of_int zs) = seq 0 (length zs).
Proof.
  intros H. unfold argsort.
  rewrite sort_by_sorted_input by (apply (combine_seq_sorted 0 H)).
  rewrite map_snd_combine_seq. now rewrite length_map.
Qed.

Lemma take_seq (s : Series) : take (seq 0 (length s)) s = s.
Proof.
  unfold take. induction s as [|c s IH]; simpl; [reflexivity|].
  f_equal. rewrite <- seq_shift, map_map. exact IH.
Qed.

Lemma take_integers (order : list nat) (zs : list Z) :
  Forall (fun i => i < length zs)%nat order ->
  take order (integers zs) = integers (map (fun i => nth i zs 0%Z) order).
Proof.
  unfold take, integers. intros H. rewrite map_map.
  apply map_ext_in. intros i Hi.
  rewrite Forall_forall in H. specialize (H i Hi).
  rewrite (nth_indep _ PyNone (Int 0)) by now rewrite length_map.
  apply (map_nth Int).
Qed.

Lemma argsort_bound (keys : list float) :
  Forall (fun i => i < length keys)%nat (argsort keys).
Proof.
  apply Forall_forall. intros i Hi.
  apply (Permutation_in _ (argsort_perm keys)) in Hi.
  apply in_seq in Hi. lia.
Qed.

Lemma argsort_sorted (zs : list Z) :
  Sorted Z.le (map (fun i => nth i zs 0%Z) (argsort (map of_int zs))).
Proof.
  unfold argsort.
  set (pairs := combine (map of_int zs) (seq 0 (length (map of_int zs)))).
  assert (Hin : forall p, In p (sort_by by_key pairs) ->
                          fst p = of_int (nth (snd p) zs 0%Z)).
  { intros [k i] Hp.
    apply (Permutation_in _ (sort_by_perm _ pairs)) in Hp.
    unfold pairs in Hp. simpl.
    assert (Hgen : forall (l : list Z) (b : nat),
               In (k, i) (combine (map of_int l) (seq b (length (map of_int l)))) ->
               k = of_int (nth (i - b) l 0%Z) /\ (b <= i)%nat).
    { induction l as [|z l IHl]; intros b Hl; simpl in Hl; [contradiction|].
      destruct Hl as [Heq|Hl].
      - injection Heq as <- <-. rewrite Nat.sub_diag. auto.
      - apply IHl in Hl as [-> Hb]. split; [|lia].
        replace (i - b)%nat with (S (i - S b)) by lia. reflexivity. }
    apply Hgen in Hp as [-> _]. now rewrite Nat.sub_0_r. }
  pose proof (sort_by_sorted by_key
                (fun a b => key_leb_total (fst a) (fst b)) pairs) as Hs.
  induction Hs as [|p l Hs IH Hd]; simpl; [constructor|].
  constructor.
  - apply IH. intros q Hq. apply Hin. now right.
  - destruct Hd as [|q l Hpq]; simpl; constructor.
    unfold by_key in Hpq.
    rewrite (Hin p (or_introl eq_refl)) in Hpq.
    rewrite (Hin q (or_intror (or_introl eq_refl))) in Hpq.
    rewrite key_leb_of_int in Hpq. now apply Z.leb_le.
Qed.

(** ** Ranges and masks *)

Lemma range_nil (a : Z) : range a a = [].
Proof. unfold range. now rewrite Z.sub_diag. Qed.

Lemma range_cons (a : Z) (k : nat) :
  range a (a + Z.of_nat (S k)) = a :: range (a + 1) (a + 1 + Z.of_nat k).
Proof.
  unfold range.
  replace (a + Z.of_nat (S k) - a)%Z with (Z.of_nat (S k)) by lia.
  replace (a + 1 + Z.of_nat k - (a + 1))%Z with (Z.of_nat k) by lia.
  rewrite !Nat2Z.id. cbn [seq map]. f_equal; [lia|].
  rewrite <- seq_shift, map_map. apply map_ext. intros i. lia.
Qed.

Lemma range_length (a : Z) (k : nat) : length (range a (a + Z.of_nat k)) = k.
Proof.
  unfold range. rewrite length_map, length_seq.
  replace (a + Z.of_nat k - a)%Z with (Z.of_nat k) by lia. apply Nat2Z.id.
Qed.

Lemma loc_set_list_no_mask (mask : list bool) (values : list cell) (s : Series) :
  any mask = false -> loc_set_list mask values s = s.
Proof.
  revert s. induction mask as [|[|] mask IH]; intros [|c s] H; simpl in *;
    try reflexivity; try discriminate.
  now rewrite IH.
Qed.

(** ** The largest id *)


Lemma known_cases (x : float) : known x = true -> x = NaN \/ exists q, x = Fin q.
Proof. destruct x; try discriminate; eauto. Qed.

Lemma float_leb_refl (x : float) : isnan x = false -> float_leb x x = true.
Proof.
  destruct x as [|[]|q]; simpl; try discriminate; auto.
  intros _. apply Qle_bool_iff, Qle_refl.
Qed.

Lemma Qle_bool_total (a b : Q) : Qle_bool a b = true \/ Qle_bool b a = true.
Proof.
  destruct (Qlt_le_dec a b) as [H|H].
  - left. apply Qle_bool_iff. now apply Qlt_le_weak.
  - right. now apply Qle_bool_iff.
Qed.

Lemma Qle_bool_trans (a b c : Q) :
  Qle_bool a b = true -> Qle_bool b c = true -> Qle_bool a c = true.
Proof.
  rewrite !Qle_bool_iff. apply Qle_trans.
Qed.

Lemma fmax_known (x y : float) :
  known x = true -> known y = true ->
  known (fmax x y) = true
  /\ (fmax x y = x \/ fmax x y = y)
  /\ (isnan (fmax x y) = true -> isnan x = true /\ isnan y = true)
  /\ (isnan x = false -> float_leb x (fmax x y) = true)
  /\ (isnan y = false -> float_leb y (fmax x y) = true).
Proof.
  intros Hx Hy.
  destruct (known_cases x Hx) as [->|[a ->]], (known_cases y Hy) as [->|[b ->]];
    simpl; repeat split; auto; try discriminate;
    try (intros _; apply Qle_bool_iff, Qle_refl).
  - destruct (Qle_bool a b); reflexivity.
  - destruct (Qle_bool a b); auto.
  - destruct (Qle_bool a b); discriminate.
  - destruct (Qle_bool a b); discriminate.
  - intros _. destruct (Qle_bool a b) eqn:E; simpl; [exact E|].
    apply Qle_bool_iff, Qle_refl.
  - intros _. destruct (Qle_bool a b) eqn:E; simpl.
    + apply Qle_bool_iff, Qle_refl.
    + destruct (Qle_bool_total a b); congruence.
Qed.

Lemma float_leb_trans_known (x y z : float) :
  known x = true -> known y = true -> known z = true ->
  float_leb x y = true -> float_leb y z = true -> float_leb x z = true.
Proof.
  intros Hx Hy Hz.
  destruct (known_cases x Hx) as [->|[a ->]], (known_cases y Hy) as [->|[b ->]],
    (known_cases z Hz) as [->|[c ->]]; simpl; try discriminate.
  apply Qle_bool_trans.
Qed.

Lemma fold_fmax_spec (l : list float) (acc : float) :
  known acc = true -> forallb known l = true ->
  known (fold_left fmax l acc) = true
  /\ (fold_left fmax l acc = acc \/ In (fold_left fmax l acc) l)
  /\ (isnan (fold_left fmax l acc) = true ->
      isnan acc = true /\ forallb isnan l = true)
  /\ (forall x, x = acc \/ In x l -> isnan x = false ->
      float_leb x (fold_left fmax l acc) = true).
Proof.
  revert acc. induction l as [|y l IH]; intros acc Ha Hl; cbn [fold_left].
  - repeat split; auto.
    intros x [->|[]] Hx. now apply float_leb_refl.
  - cbn [forallb] in Hl. apply andb_true_iff in Hl as [Hy Hl].
    destruct (fmax_known acc y Ha Hy) as (Hk & Hsel & Hnan & Hla & Hly).
    destruct (IH (fmax acc y) Hk Hl) as (K & HIn & HN & HU).
    repeat split.
    + exact K.
    + destruct HIn as [E|HIn]; [|right; now right].
      rewrite E. destruct Hsel as [->| ->]; [now left | right; now left].
    + now apply Hnan, HN.
    + cbn [forallb]. destruct (HN H) as [H1 H2]. rewrite H2.
      destruct (Hnan H1) as [_ ->]. reflexivity.
    + intros x Hx Hnx.
      assert (Hm : isnan (fmax acc y) = false ->
                   float_leb (fmax acc y) (fold_left fmax l (fmax acc y)) = true)
        by (intros Hf; apply HU; auto).
      assert (Hkx : known x = true).
      { destruct Hx as [Hx|[Hx|Hx]]; try (subst x; assumption).
        rewrite forallb_forall in Hl. now apply Hl. }
      assert (Hnm : float_leb x (fmax acc y) = true -> isnan (fmax acc y) = false).
      { destruct x as [|?|?], (fmax acc y) as [|?|?]; simpl; auto; discriminate. }
      destruct Hx as [Hx|[Hx|Hx]].
      * subst x. apply float_leb_trans_known with (y := fmax acc y); auto.
      * subst x. apply float_leb_trans_known with (y := fmax acc y); auto.
      * apply HU; auto.
Qed.

Lemma series_max_spec (l : list float) :
  forallb known l = true ->
  known (series_max l) = true
  /\ (isnan (series_max l) = false -> In (series_max l) l)
  /\ (any (notna l) = true -> isnan (series_max l) = false)
  /\ (forall x, In x l -> isnan x = false -> float_leb x (series_max l) = true).
Proof.
  intros Hl. unfold series_max.
  destruct (fold_fmax_spec l NaN eq_refl Hl) as (K & HIn & HN & HU).
  repeat split; auto.
  - intros Hn. destruct HIn as [E|HIn]; [|exact HIn].
    rewrite E in Hn. discriminate.
  - intros Hany. destruct (isnan (fold_left fmax l NaN)) eqn:E; [|reflexivity].
    destruct (HN eq_refl) as [_ Hall].
    exfalso. unfold any, notna in Hany. rewrite existsb_exists in Hany.
    destruct Hany as (b & Hb & ->). apply in_map_iff in Hb as (x & Hx & Hxl).
    rewrite forallb_forall in Hall. rewrite (Hall x Hxl) in Hx. discriminate.
Qed.

Lemma max_id_of_all_nan (l : list float) :
  any (notna l) = false -> max_id_of l = 0%Z.
Proof.
  intros H. unfold max_id_of, series_max.
  assert (E : fold_left fmax l NaN = NaN); [|now rewrite E].
  induction l as [|x l IH]; [reflexivity|].
  unfold any, notna in H. cbn in H. apply orb_false_iff in H as [Hx Hl].
  destruct x; try discriminate. cbn. now apply IH.
Qed.

(** ** Duplicates *)

Lemma float_eqb_sym (x y : float) : float_eqb x y = float_eqb y x.
Proof.
  destruct x as [|s|a], y as [|t|b]; simpl; auto.
  - destruct s, t; reflexivity.
  - destruct (Qeq_bool a b) eqn:E.
    + symmetry. apply Qeq_bool_iff. symmetry. now apply Qeq_bool_iff.
    + destruct (Qeq_bool b a) eqn:E'; [|reflexivity].
      apply Qeq_bool_iff in E'. symmetry in E'. apply Qeq_bool_iff in E'. congruence.
Qed.

Lemma float_eqb_notnan (x y : float) :
  float_eqb x y = true -> isnan x = false /\ isnan y = false.
Proof. destruct x, y; simpl; auto; discriminate. Qed.

Lemma any_cons (b : bool) (m : list bool) : any (b :: m) = b || any m.
Proof. reflexivity. Qed.

Lemma duplicated_from_seen (seen l1 l2 : list float) (x : float) :
  existsb (float_eqb x) seen = true ->
  any (duplicated_from seen (l1 ++ x :: l2)) = true.
Proof.
  revert seen. induction l1 as [|y l1 IH]; intros seen H;
    cbn [app duplicated_from]; rewrite any_cons.
  - now rewrite H.
  - rewrite IH; [apply orb_true_r|]. cbn [existsb]. rewrite H. apply orb_true_r.
Qed.

Lemma duplicated_from_pair (seen l1 l2 l3 : list float) (x y : float) :
  float_eqb y x = true ->
  any (duplicated_from seen (l1 ++ x :: l2 ++ y :: l3)) = true.
Proof.
  intros H. revert seen. induction l1 as [|z l1 IH]; intros seen;
    cbn [app duplicated_from]; rewrite any_cons.
  - rewrite duplicated_from_seen; [apply orb_true_r|].
    cbn [existsb]. now rewrite H.
  - rewrite IH. apply orb_true_r.
Qed.

Lemma count_notna_pos (l : list float) (x : float) :
  In x l -> isnan x = false -> (0 <? count_true (notna l))%nat = true.
Proof.
  intros Hin Hx. apply Nat.ltb_lt. unfold count_true, notna.
  induction l as [|y l IH]; [contradiction|].
  cbn [map filter]. destruct Hin as [->|Hin].
  - rewrite Hx. cbn. lia.
  - specialize (IH Hin). destruct (negb (isnan y)); cbn [length]; lia.
Qed.

Lemma rows_with_same_id (l : list float) (i j : nat) :
  (i < j < length l)%nat ->
  float_eqb (nth i l NaN) (nth j l NaN) = true ->
  duplicated_ids l = true.
Proof.
  intros [Hij Hj] Heq.
  destruct (float_eqb_notnan _ _ Heq) as [Hxi Hxj].
  destruct (nth_split l NaN Hj) as (lj & l3 & El & Hlj).
  assert (Hi : (i < length lj)%nat) by lia.
  destruct (nth_split lj NaN Hi) as (l1 & l2 & Elj & Hl1).
  assert (Ei : nth i l NaN = nth i lj NaN).
  { rewrite El at 1. now apply app_nth1. }
  rewrite Ei in *. set (x := nth i lj NaN) in *. set (y := nth j l NaN) in *.
  unfold duplicated_ids. apply andb_true_iff. split.
  - apply count_notna_pos with (x := y); [|exact Hxj].
    rewrite El. apply in_or_app. right. now left.
  - rewrite El, Elj. rewrite <- app_assoc. cbn [app].
    rewrite !filter_app. cbn [filter]. rewrite !filter_app. cbn [filter].
    rewrite Hxi, Hxj. cbn [negb].
    unfold duplicated. apply duplicated_from_pair.
    now rewrite float_eqb_sym.
Qed.

(** ** Whole numbers *)

Lemma is_integer_spec (x : float) :
  is_integer x = true -> exists q, x = Fin q /\ q == inject_Z (int_value x).
Proof.
  destruct x as [|s|q]; simpl; try discriminate.
  intros H. exists q. split; [reflexivity|]. now apply Qeq_bool_iff.
Qed.

Lemma is_integer_of_int (z : Z) : is_integer (of_int z) = true.
Proof.
  unfold is_integer, of_int. rewrite Qtrunc_inject_Z.
  apply Qeq_bool_iff. reflexivity.
Qed.

Lemma int_value_of_int (z : Z) : int_value (of_int z) = z.
Proof. apply Qtrunc_inject_Z. Qed.

Lemma int_value_inj (x y : float) :
  is_integer x = true -> is_integer y = true ->
  int_value x = int_value y -> float_eqb x y = true.
Proof.
  intros Hx Hy E.
  destruct (is_integer_spec x Hx) as (a & -> & Ha).
  destruct (is_integer_spec y Hy) as (b & -> & Hb).
  simpl. apply Qeq_bool_iff. rewrite Ha, Hb, E. reflexivity.
Qed.

Lemma int_value_le (x y : float) :
  is_integer x = true -> is_integer y = true ->
  float_leb x y = true -> (int_value x <= int_value y)%Z.
Proof.
  intros Hx Hy H.
  destruct (is_integer_spec x Hx) as (a & -> & Ha).
  destruct (is_integer_spec y Hy) as (b & -> & Hb).
  simpl in H. apply Qle_bool_iff in H. rewrite Ha, Hb in H.
  now rewrite Zle_Qle.
Qed.

Lemma of_int_int_value (x : float) :
  is_integer x = true -> float_equiv (of_int (int_value x)) x.
Proof.
  intros Hx. destruct (is_integer_spec x Hx) as (a & -> & Ha).
  simpl. now symmetry.
Qed.

Lemma whole_known (l : list float) :
  forallb whole l = true -> forallb known l = true.
Proof.
  rewrite !forallb_forall. intros H x Hx. specialize (H x Hx).
  unfold whole, known in *. destruct x as [|s|q]; auto.
Qed.

Lemma distinct_int_values (seen l : list float) :
  any (duplicated_from seen l) = false ->
  forallb is_integer l = true -> forallb is_integer seen = true ->
  NoDup (map int_value l)
  /\ (forall v, In v (map int_value l) -> ~ In v (map int_value seen)).
Proof.
  revert seen. induction l as [|x l IH]; intros seen Hd Hl Hs.
  - split; [constructor | intros v []].
  - cbn [duplicated_from] in Hd. rewrite any_cons in Hd.
    apply orb_false_iff in Hd as [Hx Hd].
    cbn [forallb] in Hl. apply andb_true_iff in Hl as [Hix Hl].
    destruct (IH (x :: seen) Hd Hl) as [Hnd Hout].
    { cbn [forallb]. now rewrite Hix, Hs. }
    cbn [map]. split.
    + constructor; [|exact Hnd].
      intros Hin. apply (Hout _ Hin). now left.
    + intros v [<-|Hv] Hin.
      * apply in_map_iff in Hin as (s & Es & Hsin).
        rewrite forallb_forall in Hs.
        assert (float_eqb x s = true)
          by (apply int_value_inj; auto).
        assert (existsb (float_eqb x) seen = true)
          by (apply existsb_exists; eauto).
        congruence.
      * apply (Hout _ Hv). now right.
Qed.

Lemma filter_whole (l : list float) :
  forallb whole l = true ->
  forallb is_integer (filter (fun x => negb (isnan x)) l) = true.
Proof.
  rewrite !forallb_forall. intros H x Hx.
  apply filter_In in Hx as [Hx Hn]. specialize (H x Hx).
  unfold whole in H. destruct (isnan x); [discriminate|exact H].
Qed.

Lemma count_notna_filter (l : list float) :
  count_true (notna l) = length (filter (fun x => negb (isnan x)) l).
Proof.
  unfold count_true, notna. induction l as [|x l IH]; [reflexivity|].
  cbn [map filter]. destruct (negb (isnan x)); cbn [length]; now rewrite IH.
Qed.

Lemma kept_ids_distinct (l : list float) :
  duplicated_ids l = false -> forallb whole l = true ->
  NoDup (map int_value (filter (fun x => negb (isnan x)) l)).
Proof.
  intros Hd Hw. unfold duplicated_ids in Hd.
  apply andb_false_iff in Hd as [Hc|Hd].
  - apply Nat.ltb_ge in Hc. rewrite count_notna_filter in Hc.
    destruct (filter _ l); [constructor | cbn in Hc; lia].
  - apply (distinct_int_values [] _ Hd); [now apply filter_whole | reflexivity].
Qed.

(** ** The ids that are kept and the ids that are given *)

Lemma fill_ids_length (l : list float) (a : Z) : length (fill_ids a l) = length l.
Proof.
  revert a. induction l as [|x l IH]; intros a; cbn [fill_ids]; [reflexivity|].
  destruct (isnan x); cbn [length]; now rewrite IH.
Qed.

Lemma fill_ids_In (l : list float) (a v : Z) :
  In v (fill_ids a l) ->
  (exists x, In x l /\ isnan x = false /\ v = int_value x) \/ (a <= v)%Z.
Proof.
  revert a. induction l as [|x l IH]; intros a H; cbn [fill_ids] in H; [contradiction|].
  destruct (isnan x) eqn:Ex; destruct H as [<-|H].
  - right. lia.
  - destruct (IH _ H) as [(y & Hy & Hn & ->)|Hle].
    + left. exists y. repeat split; auto. now right.
    + right. lia.
  - left. exists x. repeat split; auto. now left.
  - destruct (IH _ H) as [(y & Hy & Hn & ->)|Hle].
    + left. exists y. repeat split; auto. now right.
    + now right.
Qed.

Lemma fill_ids_NoDup (l : list float) (a : Z) :
  (forall x, In x l -> isnan x = false -> (int_value x < a)%Z) ->
  NoDup (map int_value (filter (fun x => negb (isnan x)) l)) ->
  NoDup (fill_ids a l).
Proof.
  revert a. induction l as [|x l IH]; intros a Hb Hnd; cbn [fill_ids]; [constructor|].
  cbn [filter] in Hnd. destruct (isnan x) eqn:Ex; cbn [negb] in Hnd.
  - constructor.
    + intros Hin. destruct (fill_ids_In _ _ _ Hin) as [(y & Hy & Hn & E)|Hle]; [|lia].
      specialize (Hb y (or_intror Hy) Hn). lia.
    + apply IH; [|exact Hnd].
      intros y Hy Hn. specialize (Hb y (or_intror Hy) Hn). lia.
  - cbn [map] in Hnd. inversion Hnd as [|v l' Hnotin Hnd']; subst.
    constructor.
    + intros Hin. destruct (fill_ids_In _ _ _ Hin) as [(y & Hy & Hn & E)|Hle].
      * apply Hnotin. rewrite E. apply in_map. apply filter_In. split; [exact Hy|].
        now rewrite Hn.
      * specialize (Hb x (or_introl eq_refl) Ex). lia.
    + apply IH; [|exact Hnd'].
      intros y Hy Hn. apply Hb; [now right | exact Hn].
Qed.

Lemma fill_ids_nth (l : list float) (a : Z) (i : nat) :
  (i < length l)%nat -> isnan (nth i l NaN) = false ->
  nth i (fill_ids a l) 0%Z = int_value (nth i l NaN).
Proof.
  revert a i. induction l as [|x l IH]; intros a i Hi Hn; cbn [length] in Hi; [lia|].
  destruct i as [|i]; cbn [nth] in *; cbn [fill_ids].
  - now rewrite Hn.
  - destruct (isnan x); cbn [nth]; apply IH; auto; lia.
Qed.

Lemma fresh_ids_fill (l : list float) (a : Z) :
  fresh_ids l (fill_ids a l) = range a (a + Z.of_nat (count_true (map isnan l))).
Proof.
  unfold fresh_ids, count_true. revert a.
  induction l as [|x l IH]; intros a; cbn [fill_ids map filter combine length].
  - rewrite Z.add_0_r. now rewrite range_nil.
  - destruct (isnan x) eqn:Ex; cbn [combine filter fst map snd length]; rewrite Ex.
    + cbn [map snd length]. rewrite range_cons. f_equal. apply IH.
    + apply IH.
Qed.

(** ** What [_ensure_ids] returns *)

Section ReconcileFacts.

Context {R : Runtime}.

Lemma to_numeric_numeric (l : list float) : to_numeric (numeric l) = l.
Proof.
  unfold to_numeric, numeric. rewrite map_map. cbn [to_float]. apply map_id.
Qed.

Lemma max_exact_eq : max_exact = 9007199254740992%Z.
Proof. reflexivity. Qed.

Lemma int64_spec (z : Z) :
  int64 z = true <-> (- 9223372036854775808 <= z < 9223372036854775808)%Z.
Proof.
  unfold int64. change (2 ^ 63)%Z with 9223372036854775808%Z.
  rewrite andb_true_iff, Z.leb_le, Z.ltb_lt. reflexivity.
Qed.

Lemma float64_holds_spec (z : Z) :
  float64_holds z = true <-> (- max_exact <= z <= max_exact)%Z.
Proof. unfold float64_holds. rewrite Z.leb_le. lia. Qed.

Lemma in_exact_range_known (x : float) : in_exact_range x = true -> known x = true.
Proof. now destruct x. Qed.

Lemma exact_known (l : list float) :
  forallb in_exact_range l = true -> forallb known l = true.
Proof.
  rewrite !forallb_forall. intros H x Hx. apply in_exact_range_known. now apply H.
Qed.

(** The integer part of a number within the exact range is within it. *)
Lemma Qtrunc_bounds (q : Q) (m : Z) :
  (0 <= m)%Z -> inject_Z (- m) <= q -> q <= inject_Z m ->
  (- m <= Qtrunc q <= m)%Z.
Proof.
  intros Hm Hl Hu. destruct q as [n d]. unfold Qtrunc, Qle, inject_Z in *.
  cbn [Qnum Qden] in *. rewrite !Z.mul_1_r in *.
  assert (Hd : (0 < Zpos d)%Z) by lia.
  split.
  - apply Z.le_trans with (Z.quot (- m * Zpos d) (Zpos d)).
    + rewrite Z.quot_mul by lia. lia.
    + apply Z.quot_le_mono; lia.
  - apply Z.le_trans with (Z.quot (m * Zpos d) (Zpos d)).
    + apply Z.quot_le_mono; lia.
    + rewrite Z.quot_mul by lia. lia.
Qed.

Lemma int_value_exact (x : float) :
  in_exact_range x = true -> (- max_exact <= int_value x <= max_exact)%Z.
Proof.
  destruct x as [|s|q]; cbn [in_exact_range int_value]; try discriminate.
  - intros _. rewrite max_exact_eq. lia.
  - intros H. apply andb_true_iff in H as [Hl Hu].
    apply Qle_bool_iff in Hl, Hu.
    apply Qtrunc_bounds; [rewrite max_exact_eq; lia | assumption | assumption].
Qed.

Lemma int64_of_float_exact (x : float) :
  isfinite x = true -> in_exact_range x = true ->
  int64_of_float x = Ok (int_value x).
Proof.
  intros Hf He. pose proof (int_value_exact x He) as Hb.
  destruct x as [|s|q]; try discriminate. cbn [int64_of_float int_value] in *.
  assert (E : int64 (Qtrunc q) = true).
  { apply int64_spec. rewrite max_exact_eq in Hb. lia. }
  now rewrite E.
Qed.

Lemma collect_map {A B : Type} (f : A -> result B) (g : A -> B) (l : list A) :
  (forall x, In x l -> f x = Ok (g x)) -> collect f l = Ok (map g l).
Proof.
  induction l as [|x l IH]; intros H; [reflexivity|].
  cbn [collect map]. rewrite (H x (or_introl eq_refl)). cbn [bind].
  rewrite IH by (intros y Hy; apply H; now right). reflexivity.
Qed.

Lemma collect_length {A B : Type} (f : A -> result B) (l : list A) (ys : list B) :
  collect f l = Ok ys -> length ys = length l.
Proof.
  revert ys. induction l as [|x l IH]; intros ys; cbn [collect].
  - now intros [= <-].
  - destruct (f x) as [y|e]; cbn [bind]; [|discriminate].
    destruct (collect f l) as [ys'|e]; cbn [bind]; [|discriminate].
    intros [= <-]. cbn [length]. now rewrite (IH ys' eq_refl).
Qed.

Lemma astype_int_exact (s : list float) :
  forallb isfinite s = true -> forallb in_exact_range s = true ->
  astype_int s = Ok (map int_value s).
Proof.
  intros Hf He. unfold astype_int. rewrite Hf. apply collect_map.
  rewrite forallb_forall in Hf, He. intros x Hx.
  apply int64_of_float_exact; auto.
Qed.

Lemma float64_of_int_exact (z : Z) :
  (- max_exact <= z <= max_exact)%Z -> float64_of_int z = of_int z.
Proof.
  intros H. unfold float64_of_int.
  now rewrite (proj2 (float64_holds_spec z) H).
Qed.

Lemma of_int_exact (z : Z) :
  (- max_exact <= z <= max_exact)%Z -> in_exact_range (of_int z) = true.
Proof.
  intros H. unfold of_int, in_exact_range.
  rewrite !Qle_bool_inject_Z. apply andb_true_iff.
  split; apply Z.leb_le; lia.
Qed.

Lemma filled_ids (l : list float) (a : Z) :
  forallb in_exact_range l = true ->
  (- max_exact <= a)%Z ->
  (a + Z.of_nat (count_true (map isnan l)) <= max_exact + 1)%Z ->
  astype_int
    (to_numeric
       (loc_set_list (map isnan l)
          (numeric (map float64_of_int
                      (range a (a + Z.of_nat (count_true (map isnan l))))))
          (numeric l)))
  = Ok (fill_ids a l).
Proof.
  intros Hk Ha Hb.
  enough (H : forall s, s = to_numeric
                 (loc_set_list (map isnan l)
                    (numeric (map float64_of_int
                                (range a (a + Z.of_nat (count_true (map isnan l))))))
                    (numeric l)) ->
              forallb isfinite s = true /\ forallb in_exact_range s = true
              /\ map int_value s = fill_ids a l).
  { destruct (H _ eq_refl) as (Hf & He & Hm).
    now rewrite (astype_int_exact _ Hf He), Hm. }
  revert a Ha Hb. induction l as [|x l IH]; intros a Ha Hb s ->.
  - repeat split.
  - cbn [forallb] in Hk. apply andb_true_iff in Hk as [Hx Hl].
    destruct (known_cases x (in_exact_range_known x Hx)) as [->|[q ->]].
    + unfold count_true in *. cbn [map isnan filter length] in *.
      fold (count_true (map isnan l)) in *. rewrite range_cons.
      cbn [numeric map loc_set_list to_numeric to_float].
      fold (numeric (map float64_of_int
                       (range (a + 1) (a + 1 + Z.of_nat (count_true (map isnan l)))))).
      fold (numeric l).
      destruct (IH Hl (a + 1)%Z ltac:(lia) ltac:(lia) _ eq_refl) as (Hf & He & Hm).
      rewrite float64_of_int_exact by lia.
      cbn [forallb map fill_ids isnan andb].
      rewrite (@of_int_exact a) by lia.
      change (isfinite (of_int a)) with true. cbn [andb].
      split; [exact Hf|]. split; [exact He|].
      f_equal; [apply int_value_of_int | exact Hm].
    + unfold count_true in *. cbn [map isnan filter] in *.
      fold (count_true (map isnan l)) in *.
      cbn [numeric map loc_set_list to_numeric to_float].
      fold (numeric (map float64_of_int
                       (range a (a + Z.of_nat (count_true (map isnan l)))))).
      fold (numeric l).
      destruct (IH Hl a Ha Hb _ eq_refl) as (Hf & He & Hm).
      cbn [forallb map fill_ids isnan isfinite andb]. rewrite Hx.
      split; [exact Hf|]. split; [exact He|]. f_equal. exact Hm.
Qed.

Lemma reconcile_renumber (l : list float) :
  duplicated_ids l = true ->
  reconcile l = Ok (range 1 (Z.of_nat (length l) + 1)).
Proof. intros H. unfold reconcile. now rewrite H. Qed.

Lemma exact_ids_parts (l : list float) :
  exact_ids l = true ->
  forallb in_exact_range l = true
  /\ (max_id_of l + Z.of_nat (count_true (map isnan l)) <= max_exact)%Z
  /\ (Z.of_nat (length l) <= max_exact)%Z.
Proof.
  unfold exact_ids. intros H. apply andb_true_iff in H as [H H3].
  apply andb_true_iff in H as [H1 H2].
  apply Z.leb_le in H2, H3. auto.
Qed.

Lemma max_id_of_exact (l : list float) :
  forallb in_exact_range l = true ->
  (- max_exact <= max_id_of l <= max_exact)%Z.
Proof.
  intros He. destruct (series_max_spec l (exact_known l He)) as (K & Hin & _).
  unfold max_id_of. destruct (isnan (series_max l)) eqn:En.
  - destruct (series_max l); try discriminate. cbn [int_value].
    rewrite max_exact_eq. lia.
  - apply int_value_exact. rewrite forallb_forall in He. apply He. now apply Hin.
Qed.

Lemma exact_ids_ints (zs : list Z) :
  exact_ints zs -> exact_ids (map of_int zs) = true.
Proof.
  intros [Hb Hn].
  assert (He : forallb in_exact_range (map of_int zs) = true).
  { apply forallb_forall. intros x Hx. apply in_map_iff in Hx as (z & <- & Hz).
    rewrite Forall_forall in Hb. now apply of_int_exact, Hb. }
  assert (Hc : count_true (map isnan (map of_int zs)) = 0%nat).
  { unfold count_true. clear. induction zs as [|z zs IH]; [reflexivity | exact IH]. }
  pose proof (max_id_of_exact _ He) as Hm.
  unfold exact_ids. rewrite He, Hc, length_map. cbn [andb].
  apply andb_true_iff. split; apply Z.leb_le; [cbn [Z.of_nat]; lia | exact Hn].
Qed.

Lemma count_true_le (m : list bool) : (count_true m <= length m)%nat.
Proof. unfold count_true. apply filter_length_le. Qed.

Lemma half_range_exact (x : float) : half_range x = true -> in_exact_range x = true.
Proof.
  destruct x as [|b|q]; cbn [half_range in_exact_range]; auto.
  intros H. apply andb_true_iff in H as [Hl Hu]. apply Qle_bool_iff in Hl, Hu.
  apply andb_true_iff. split; apply Qle_bool_iff.
  - apply Qle_trans with (inject_Z (- 2 ^ 52)); [|exact Hl].
    rewrite <- Zle_Qle. now rewrite max_exact_eq.
  - apply Qle_trans with (inject_Z (2 ^ 52)); [exact Hu|].
    rewrite <- Zle_Qle. now rewrite max_exact_eq.
Qed.

Lemma int_value_half (x : float) :
  half_range x = true -> (- 2 ^ 52 <= int_value x <= 2 ^ 52)%Z.
Proof.
  destruct x as [|b|q]; cbn [half_range int_value]; try discriminate.
  - intros _. lia.
  - intros H. apply andb_true_iff in H as [Hl Hu].
    apply Qle_bool_iff in Hl, Hu. apply Qtrunc_bounds; [lia | assumption | assumption].
Qed.

Lemma half_range_exact_ids (l : list float) :
  forallb half_range l = true -> (Z.of_nat (length l) <= 2 ^ 52)%Z ->
  exact_ids l = true.
Proof.
  intros Hh Hn.
  assert (He : forallb in_exact_range l = true).
  { rewrite forallb_forall in *. intros x Hx. now apply half_range_exact, Hh. }
  assert (Hm : (max_id_of l <= 2 ^ 52)%Z).
  { destruct (series_max_spec l (exact_known l He)) as (_ & Hin & _).
    unfold max_id_of. destruct (isnan (series_max l)) eqn:En.
    - destruct (series_max l); discriminate.
    - apply int_value_half. rewrite forallb_forall in Hh. now apply Hh, Hin. }
  pose proof (count_true_le (map isnan l)) as Hc. rewrite length_map in Hc.
  unfold exact_ids. rewrite He. cbn [andb]. rewrite max_exact_eq.
  apply andb_true_iff. split; apply Z.leb_le; lia.
Qed.

Lemma reconcile_keep (l : list float) :
  duplicated_ids l = false -> exact_ids l = true ->
  reconcile l = Ok (fill_ids (max_id_of l + 1) l).
Proof.
  intros Hd Hx. destruct (exact_ids_parts l Hx) as (He & Hs & _).
  pose proof (exact_known l He) as Hk.
  pose proof (max_id_of_exact l He) as Hm.
  unfold reconcile. rewrite Hd.
  destruct (series_max_spec l Hk) as (K & _ & Hany & _).
  assert (Hmax : (if any (notna l) then py_int (series_max l) else Ok 0%Z)
                 = Ok (max_id_of l)).
  { destruct (any (notna l)) eqn:E.
    - specialize (Hany eq_refl). unfold max_id_of.
      destruct (known_cases _ K) as [En|[q Eq]]; rewrite ?En, ?Eq in *;
        [discriminate | reflexivity].
    - now rewrite max_id_of_all_nan. }
  rewrite Hmax. cbn [bind].
  destruct (any (map isnan l)) eqn:Em.
  - unfold int_range.
    assert (E : int64 (max_id_of l + 1)
                && int64 (max_id_of l + 1 + Z.of_nat (count_true (map isnan l)))
                = true).
    { apply andb_true_iff. rewrite max_exact_eq in *.
      split; apply int64_spec; lia. }
    rewrite E. cbn [bind]. rewrite range_length, Nat.eqb_refl. cbn [bind].
    apply filled_ids; [exact He | lia | lia].
  - cbn [bind].
    rewrite <- (loc_set_list_no_mask (map isnan l)
                 (numeric (map float64_of_int
                    (range (max_id_of l + 1)
                       (max_id_of l + 1 + Z.of_nat (count_true (map isnan l))))))
                 (numeric l) Em).
    apply filled_ids; [exact He | lia | lia].
Qed.

Lemma sort_keys_integers (zs : list Z) :
  sort_keys (integers zs) = Ok (map of_int zs).
Proof.
  induction zs as [|z zs IH]; [reflexivity|].
  cbn [integers map sort_keys Int bind]. fold (integers zs). now rewrite IH.
Qed.

Lemma sort_values_ids (n : nat) (zs : list Z) (rest : list (string * Series)) :
  sort_values (mkDF n (("ID", integers zs) :: rest)) "ID"
  = Ok (mkDF n (reorder (argsort (map of_int zs)) (("ID", integers zs) :: rest))).
Proof.
  unfold sort_values, getitem. cbn [cols assoc nrows].
  rewrite String.eqb_refl. cbn [bind]. rewrite sort_keys_integers. reflexivity.
Qed.

Lemma normalize_result (now : string) (df : DataFrame) (kind : string)
  (req : list string) :
  wf df = true -> empty df = false -> required_cols_of kind = Ok req ->
  _normalize now (Some df) req kind
  = (z <- reconcile (to_numeric (column df "ID")) ;;
     Ok (mkDF (nrows df)
           (reorder (argsort (map of_int z)) (coerced_cols now kind df z)))).
Proof.
  intros Hwf He Hk. rewrite (normalize_spec now df kind Hwf He Hk).
  destruct (reconcile _) as [z|e]; cbn [bind]; [|reflexivity].
  unfold coerced_cols. destruct (String.eqb kind "singole"); apply sort_values_ids.
Qed.

End ReconcileFacts.

(** ** Columns of a normalised table *)

Section ColumnFacts.

Context {R : Runtime}.

Lemma loc_set_map (f : cell -> bool) (v : cell) (s : Series) :
  loc_set (map f s) v s = map (fun c => if f c then v else c) s.
Proof.
  induction s as [|c s IH]; [reflexivity|].
  cbn [map loc_set]. now rewrite IH.
Qed.

Lemma loc_set_mask_of (g : cell -> bool) (v : cell) (s : Series) :
  loc_set (map negb (map g s)) v s = map (fun c => if g c then c else v) s.
Proof.
  rewrite map_map, loc_set_map. apply map_ext. intros c. now destruct (g c).
Qed.

Lemma coerce_esito_spec (s : Series) : coerce_esito s = map outcome_of_spec s.
Proof.
  unfold coerce_esito, isin, replace, fillna.
  rewrite loc_set_mask_of. rewrite !map_map. apply map_ext. intros c.
  destruct c as [|t|[|b|q]]; cbn; try reflexivity.
  destruct (String.eqb t "") eqn:E.
  - apply String.eqb_eq in E; subst t. reflexivity.
  - cbn. unfold mem. cbn [existsb OUTCOMES].
    destruct (String.eqb t "In attesa" || (String.eqb t "Vinta" || (String.eqb t "Persa" || false)));
      reflexivity.
Qed.

Lemma coerce_campionato_spec (s : Series) :
  coerce_campionato s = map league_of_spec s.
Proof.
  unfold coerce_campionato, isin, fillna.
  rewrite loc_set_mask_of. rewrite !map_map. apply map_ext. intros c.
  destruct c as [|t|[|b|q]]; cbn -[LEAGUES]; try reflexivity;
    unfold mem; destruct (existsb (String.eqb t) LEAGUES); reflexivity.
Qed.

Lemma coerce_number_spec (s : Series) : coerce_number s = map odds_of_spec s.
Proof.
  unfold coerce_number, numeric, to_numeric. rewrite map_map.
  apply map_ext. intros c. unfold odds_of_spec.
  destruct (to_float c); reflexivity.
Qed.

Lemma coerce_stake_spec (s : Series) : coerce_stake s = map stake_of_spec s.
Proof.
  unfold coerce_stake, fillna, numeric, to_numeric. rewrite !map_map.
  apply map_ext. intros c. unfold stake_of_spec.
  destruct (to_float c); reflexivity.
Qed.

Lemma loc_set_length (mask : list bool) (v : cell) (s : Series) :
  length (loc_set mask v s) = length s.
Proof.
  revert s. induction mask as [|b mask IH]; intros [|c s]; cbn; auto.
Qed.

Lemma coerced_cols_lengths (now kind : string) (df : DataFrame) (z : list Z) :
  wf df = true -> length z = nrows df ->
  Forall (fun cs => length (snd cs) = nrows df) (coerced_cols now kind df z).
Proof.
  intros Hwf Hz. unfold coerced_cols.
  destruct (String.eqb kind "singole"); repeat constructor; cbn [snd];
    unfold integers, coerce_data, coerce_campionato, coerce_text, coerce_number,
      coerce_stake, coerce_esito, fillna, replace, numeric, to_numeric;
    rewrite ?loc_set_length, ?length_map; auto using column_length.
Qed.

Lemma reorder_seq (n : nat) (l : list (string * Series)) :
  Forall (fun cs => length (snd cs) = n) l -> reorder (seq 0 n) l = l.
Proof.
  induction 1 as [|[c s] l Hs Hl IH]; [reflexivity|].
  cbn [reorder map fst snd] in *. fold (reorder (seq 0 n) l). rewrite IH.
  now rewrite <- Hs, take_seq.
Qed.


Lemma getitem_reorder (n : nat) (order : list nat) (l : list (string * Series))
  (c : string) :
  getitem (mkDF n (reorder order l)) c
  = (s <- getitem (mkDF n l) c ;; Ok (take order s)).
Proof.
  unfold getitem. cbn [cols]. induction l as [|[k v] l IH]; [reflexivity|].
  cbn [reorder map fst snd assoc]. fold (reorder order l).
  destruct (String.eqb k c); [reflexivity | exact IH].
Qed.

Lemma range_sorted (a : Z) (k : nat) : Sorted Z.lt (range a (a + Z.of_nat k)).
Proof.
  revert a. induction k as [|k IH]; intros a.
  - rewrite Nat2Z.inj_0, Z.add_0_r, range_nil. constructor.
  - rewrite range_cons. constructor; [apply IH|].
    destruct k as [|k].
    + rewrite Nat2Z.inj_0, Z.add_0_r, range_nil. constructor.
    + rewrite range_cons. constructor. lia.
Qed.

Lemma Sorted_lt_le (zs : list Z) : Sorted Z.lt zs -> Sorted Z.le zs.
Proof.
  induction 1 as [|z zs Hs IH Hd]; constructor; auto.
  destruct Hd; constructor. lia.
Qed.

Lemma loc_set_list_length (mask : list bool) (values : list cell) (s : Series) :
  length (loc_set_list mask values s) = length s.
Proof.
  revert mask values. induction s as [|c s IH]; intros [|[|] mask] values;
    try reflexivity.
  - cbn [loc_set_list]. destruct values; cbn [length]; now rewrite IH.
  - cbn [loc_set_list length]. now rewrite IH.
Qed.

Lemma reconcile_length (l : list float) (z : list Z) :
  reconcile l = Ok z -> length z = length l.
Proof.
  unfold reconcile. destruct (duplicated_ids l).
  - intros H. injection H as <-.
    replace (Z.of_nat (length l) + 1)%Z with (1 + Z.of_nat (length l))%Z by lia.
    apply range_length.
  - intros H. apply bind_ok in H as (m & _ & H).
    apply bind_ok in H as (cur & Hcur & H).
    unfold astype_int in H. destruct (forallb isfinite _); [|discriminate].
    apply collect_length in H. rewrite H. unfold to_numeric. rewrite length_map.
    destruct (any (map isnan l)).
    + apply bind_ok in Hcur as (fresh & _ & Hcur).
      destruct (length fresh =? _)%nat; [|discriminate].
      injection Hcur as <-. rewrite loc_set_list_length. apply length_map.
    + injection Hcur as <-. apply length_map.
Qed.

Lemma reconcile_returns (l : list float) :
  exact_ids l = true -> exists z, reconcile l = Ok z.
Proof.
  intros Hk. destruct (duplicated_ids l) eqn:E.
  - eexists. now apply reconcile_renumber.
  - eexists. now apply reconcile_keep.
Qed.

End ColumnFacts.

(** ** Statements about [_normalize] *)

Section NormalizeClaims.

Context {R : Runtime}.

Lemma column_getitem (df : DataFrame) (c : string) (s : Series) :
  getitem df c = Ok s -> column df c = s.
Proof.
  unfold getitem, column. destruct (assoc c (cols df)); intros H;
    [now injection H | discriminate].
Qed.

Lemma getitem_not_empty (df : DataFrame) (c : string) (s : Series) :
  getitem df c = Ok s -> (0 < nrows df)%nat -> empty df = false.
Proof.
  unfold getitem, empty. intros H Hn.
  destruct (cols df); [discriminate|].
  apply orb_false_iff. split; [apply Nat.eqb_neq; lia | reflexivity].
Qed.

Lemma to_numeric_nth (s : Series) (i : nat) :
  nth i (to_numeric s) NaN = to_float (nth i s PyNone).
Proof.
  unfold to_numeric. change NaN with (to_float PyNone). apply map_nth.
Qed.

Lemma to_numeric_length (s : Series) : length (to_numeric s) = length s.
Proof. apply length_map. Qed.

(** C1.  When two rows of the table carry the same numeric id, [_normalize]
    returns the table with the ids 1..N given to the N rows in their row
    order: the "ID" column is [1; ...; N] and every other column is the
    coerced column of the input, row for row. *)
Theorem C1_duplicate_ids_renumbered (now : string) (df : DataFrame)
  (kind : string) (req : list string) (ids : Series) (i j : nat) :
  wf df = true ->
  required_cols_of kind = Ok req ->
  getitem df "ID" = Ok ids ->
  (i < j < nrows df)%nat ->
  float_eqb (to_float (nth i ids PyNone)) (to_float (nth j ids PyNone)) = true ->
  exists out,
    _normalize now (Some df) req kind = Ok out
    /\ nrows out = nrows df
    /\ getitem out "ID" = Ok (integers (range 1 (Z.of_nat (nrows df) + 1)))
    /\ cols out = coerced_cols now kind df (range 1 (Z.of_nat (nrows df) + 1)).
Proof.
  intros Hwf Hk Hid Hij Heq.
  assert (He : empty df = false) by (eapply getitem_not_empty; eauto; lia).
  assert (Hlen : length ids = nrows df).
  { unfold getitem in Hid. destruct (assoc "ID" (cols df)) eqn:E; [|discriminate].
    injection Hid as <-. eapply wf_lengths; eauto. }
  rewrite (normalize_result now df kind Hwf He Hk).
  rewrite (column_getitem _ _ Hid).
  rewrite reconcile_renumber.
  2:{ apply rows_with_same_id with (i := i) (j := j).
      - rewrite to_numeric_length, Hlen. exact Hij.
      - now rewrite !to_numeric_nth. }
  cbn [bind]. rewrite to_numeric_length, Hlen.
  set (zs := range 1 (Z.of_nat (nrows df) + 1)).
  assert (Hzs : Sorted Z.lt zs /\ length zs = nrows df).
  { unfold zs. replace (Z.of_nat (nrows df) + 1)%Z with (1 + Z.of_nat (nrows df))%Z by lia.
    split; [apply range_sorted | apply range_length]. }
  destruct Hzs as [Hs Hl].
  rewrite argsort_sorted_input by now apply Sorted_lt_le.
  rewrite Hl, reorder_seq by now apply coerced_cols_lengths.
  eexists. split; [reflexivity|]. cbn [nrows cols]. repeat split.
  unfold getitem, coerced_cols; cbn [cols].
  destruct (String.eqb kind "singole"); reflexivity.
Qed.

(** What [_normalize] returns for a table with rows, when its ids are missing
    or within the exact range: the coerced columns, the rows put in the order
    of their ids. *)
Lemma normalize_rows (now : string) (df : DataFrame) (kind : string)
  (req : list string) :
  wf df = true -> empty df = false -> required_cols_of kind = Ok req ->
  exact_ids (to_numeric (column df "ID")) = true ->
  exists z order,
    reconcile (to_numeric (column df "ID")) = Ok z
    /\ length z = nrows df
    /\ order = argsort (map of_int z)
    /\ Permutation order (seq 0 (nrows df))
    /\ Forall (fun i => i < nrows df)%nat order
    /\ _normalize now (Some df) req kind
       = Ok (mkDF (nrows df) (reorder order (coerced_cols now kind df z))).
Proof.
  intros Hwf He Hk Hids.
  destruct (reconcile_returns _ Hids) as [z Hz].
  assert (Hl : length z = nrows df).
  { rewrite (reconcile_length _ Hz), to_numeric_length. now apply column_length. }
  exists z, (argsort (map of_int z)). repeat split; auto.
  - rewrite <- Hl, <- (length_map of_int z). apply argsort_perm.
  - rewrite <- Hl, <- (length_map of_int z). apply argsort_bound.
  - rewrite (normalize_result now df kind Hwf He Hk), Hz. reflexivity.
Qed.

Lemma kind_cases (kind : string) (req : list string) :
  required_cols_of kind = Ok req ->
  (kind = "singole" /\ req = REQUIRED_COLUMNS_SINGOLE)
  \/ (kind = "multiple" /\ req = REQUIRED_COLUMNS_MULTIPLE).
Proof.
  unfold required_cols_of.
  destruct (String.eqb kind "singole") eqn:E1.
  - apply String.eqb_eq in E1. intros H. injection H as <-. now left.
  - destruct (String.eqb kind "multiple") eqn:E2; [|discriminate].
    apply String.eqb_eq in E2. intros H. injection H as <-. now right.
Qed.

(** What a table returned by [_normalize] is made of. *)
Lemma normalize_output (now : string) (df out : DataFrame) (kind : string)
  (req : list string) :
  wf df = true -> empty df = false -> required_cols_of kind = Ok req ->
  _normalize now (Some df) req kind = Ok out ->
  exists z order,
    Permutation order (seq 0 (nrows df))
    /\ Forall (fun i => i < nrows df)%nat order
    /\ out = mkDF (nrows df) (reorder order (coerced_cols now kind df z)).
Proof.
  intros Hwf He Hk Hout.
  rewrite (normalize_result now df kind Hwf He Hk) in Hout.
  apply bind_ok in Hout as (z & Hz & Hout). injection Hout as <-.
  assert (Hl : length z = nrows df).
  { rewrite (reconcile_length _ Hz), to_numeric_length. now apply column_length. }
  exists z, (argsort (map of_int z)). repeat split.
  - rewrite <- Hl, <- (length_map of_int z). apply argsort_perm.
  - rewrite <- Hl, <- (length_map of_int z). apply argsort_bound.
Qed.





(** Rows whose ids differ pairwise do not trigger the renumbering. *)
Lemma distinct_pairs (l : list float) :
  (forall i j, (i < j < length l)%nat ->
               float_eqb (nth i l NaN) (nth j l NaN) = false) ->
  ForallOrdPairs (fun x y => float_eqb x y = false) l.
Proof.
  induction l as [|x l IH]; intros H; constructor.
  - apply Forall_forall. intros y Hy.
    destruct (In_nth l y NaN Hy) as (k & Hk & <-).
    apply (H 0%nat (S k)). cbn [length]. lia.
  - apply IH. intros i j Hij. apply (H (S i) (S j)). cbn [length]. lia.
Qed.

Lemma distinct_pairs_filter (f : float -> bool) (l : list float) :
  ForallOrdPairs (fun x y => float_eqb x y = false) l ->
  ForallOrdPairs (fun x y => float_eqb x y = false) (filter f l).
Proof.
  induction 1 as [|x l Hx Hl IH]; cbn [filter]; [constructor|].
  destruct (f x); [|exact IH]. constructor; [|exact IH].
  rewrite Forall_forall in *. intros y Hy. apply Hx.
  now apply filter_In in Hy as [Hy _].
Qed.

Lemma distinct_pairs_not_duplicated (seen l : list float) :
  ForallOrdPairs (fun x y => float_eqb x y = false) l ->
  (forall s x, In s seen -> In x l -> float_eqb s x = false) ->
  any (duplicated_from seen l) = false.
Proof.
  intros H. revert seen. induction H as [|x l Hx Hl IH]; intros seen Hs;
    [reflexivity|].
  cbn [duplicated_from]. rewrite any_cons. apply orb_false_iff. split.
  - destruct (existsb (float_eqb x) seen) eqn:E; [|reflexivity].
    apply existsb_exists in E as (s & Hin & E).
    rewrite float_eqb_sym, (Hs s x Hin (or_introl eq_refl)) in E. discriminate.
  - apply IH. intros s y [<-|Hin] Hy.
    + rewrite Forall_forall in Hx. now apply Hx.
    + apply Hs; [exact Hin | now right].
Qed.

Lemma distinct_rows_not_duplicated (l : list float) :
  (forall i j, (i < j < length l)%nat ->
               float_eqb (nth i l NaN) (nth j l NaN) = false) ->
  duplicated_ids l = false.
Proof.
  intros H. unfold duplicated_ids. apply andb_false_iff. right.
  apply distinct_pairs_not_duplicated; [|intros s x []].
  now apply distinct_pairs_filter, distinct_pairs.
Qed.

Lemma whole_notnan (l : list float) (x : float) :
  forallb whole l = true -> In x l -> isnan x = false -> is_integer x = true.
Proof.
  intros Hw Hx Hn. rewrite forallb_forall in Hw. specialize (Hw x Hx).
  unfold whole in Hw. now rewrite Hn in Hw.
Qed.

(** The largest id, among whole ids. *)
Lemma max_id_of_spec (l : list float) :
  forallb whole l = true ->
  (any (notna l) = false -> max_id_of l = 0%Z)
  /\ (any (notna l) = true ->
      exists j, (j < length l)%nat /\ isnan (nth j l NaN) = false
                /\ int_value (nth j l NaN) = max_id_of l)
  /\ (forall x, In x l -> isnan x = false -> (int_value x <= max_id_of l)%Z).
Proof.
  intros Hw. pose proof (whole_known l Hw) as Hk.
  destruct (series_max_spec l Hk) as (K & HIn & Hany & HU).
  split; [apply max_id_of_all_nan|]. split.
  - intros Ha. specialize (Hany Ha). specialize (HIn Hany).
    destruct (In_nth l _ NaN HIn) as (j & Hj & Ej).
    exists j. rewrite Ej. auto.
  - intros x Hx Hn. specialize (HU x Hx Hn). unfold max_id_of.
    assert (Hm : isnan (series_max l) = false).
    { destruct (series_max l) as [|b|q]; [|reflexivity|reflexivity].
      destruct x as [|[]|a]; simpl in HU; discriminate. }
    apply int_value_le; eauto using whole_notnan.
Qed.

(** C2.  For a table whose numeric ids are whole numbers within the exact
    range, no two of them equal, the normalised table holds the rows of the
    input in the order of their ids, every column being the coerced column of
    the input in that order; the id of a row whose "ID" cell is numeric is
    the id the row had, and the rows that had none receive, in row order, the
    consecutive integers that follow the largest id there was (they start at
    1 when no row had a numeric id, as in a table without an "ID" column). *)
Theorem C2_missing_ids_filled (now : string) (df : DataFrame) (kind : string)
  (req : list string) (id_num : list float) :
  wf df = true ->
  empty df = false ->
  required_cols_of kind = Ok req ->
  to_numeric (column df "ID") = id_num ->
  forallb whole id_num = true ->
  exact_ids id_num = true ->
  (forall i j, (i < j < nrows df)%nat ->
               float_eqb (nth i id_num NaN) (nth j id_num NaN) = false) ->
  exists out z max_id,
    _normalize now (Some df) req kind = Ok out
    /\ length z = nrows df
    /\ cols out = reorder (argsort (map of_int z)) (coerced_cols now kind df z)
    /\ (forall i, (i < nrows df)%nat -> isnan (nth i id_num NaN) = false ->
                  float_equiv (of_int (nth i z 0%Z)) (nth i id_num NaN))
    /\ fresh_ids id_num z
       = range (max_id + 1)
               (max_id + 1 + Z.of_nat (count_true (map isnan id_num)))
    /\ (any (notna id_num) = false -> max_id = 0%Z)
    /\ (any (notna id_num) = true ->
        exists j, (j < nrows df)%nat /\ isnan (nth j id_num NaN) = false
                  /\ nth j z 0%Z = max_id)
    /\ (forall i, (i < nrows df)%nat -> isnan (nth i id_num NaN) = false ->
                  (nth i z 0%Z <= max_id)%Z).
Proof.
  intros Hwf He Hk Hnum Hw Hx Hdist.
  assert (Hlen : length id_num = nrows df).
  { rewrite <- Hnum, to_numeric_length. now apply column_length. }
  rewrite <- Hlen in Hdist.
  pose proof (distinct_rows_not_duplicated _ Hdist) as Hnd.
  pose proof (reconcile_keep _ Hnd Hx) as Hrec.
  destruct (max_id_of_spec _ Hw) as (Hm0 & Hmj & Hmu).
  set (m := max_id_of id_num) in *. set (z := fill_ids (m + 1) id_num) in *.
  exists (mkDF (nrows df) (reorder (argsort (map of_int z)) (coerced_cols now kind df z))),
    z, m.
  assert (Hnth : forall i, (i < nrows df)%nat -> isnan (nth i id_num NaN) = false ->
                           nth i z 0%Z = int_value (nth i id_num NaN)).
  { intros i Hi Hn. apply fill_ids_nth; [lia | exact Hn]. }
  split.
  { rewrite (normalize_result now df kind Hwf He Hk).
    rewrite Hnum, Hrec. reflexivity. }
  split; [unfold z; now rewrite fill_ids_length|].
  split; [reflexivity|]. split.
  { intros i Hi Hn. rewrite (Hnth i Hi Hn). apply of_int_int_value.
    apply (whole_notnan _ _ Hw); [apply nth_In; lia | exact Hn]. }
  split; [apply fresh_ids_fill|]. split; [exact Hm0|]. split.
  { intros Ha. destruct (Hmj Ha) as (j & Hj & Hn & E).
    exists j. rewrite Hnth by (auto; lia). split; [lia|]. auto. }
  intros i Hi Hn. rewrite (Hnth i Hi Hn). apply Hmu; [apply nth_In; lia | exact Hn].
Qed.

End NormalizeClaims.

(** ** The ids of a normalised table *)

Lemma map_nth_seq_id {A : Type} (l : list A) (d : A) :
  map (fun i => nth i l d) (seq 0 (length l)) = l.
Proof.
  induction l as [|a l IH]; [reflexivity|].
  cbn [length seq map nth]. f_equal. rewrite <- seq_shift, map_map. exact IH.
Qed.

Lemma perm_map_nth {A : Type} (l : list A) (d : A) (order : list nat) :
  Permutation order (seq 0 (length l)) ->
  Permutation (map (fun i => nth i l d) order) l.
Proof.
  intros H. apply (Permutation_map (fun i => nth i l d)) in H.
  now rewrite map_nth_seq_id in H.
Qed.

Lemma Sorted_lt_NoDup (zs : list Z) : Sorted Z.lt zs -> NoDup zs.
Proof.
  intros H. apply Sorted_StronglySorted in H; [|exact Z.lt_trans].
  induction H as [|z zs Hs IH Hall]; constructor; [|exact IH].
  intros Hin. rewrite Forall_forall in Hall. specialize (Hall z Hin). lia.
Qed.

Lemma range_In (a : Z) (k : nat) (v : Z) :
  In v (range a (a + Z.of_nat k)) -> (a <= v)%Z.
Proof.
  unfold range. intros H. apply in_map_iff in H as (i & <- & _). lia.
Qed.

Section IdFacts.

Context {R : Runtime}.

Lemma new_frame_id (req : list string) :
  mem "ID" req = true -> getitem (new_frame req) "ID" = Ok [].
Proof.
  unfold getitem, new_frame, mem. cbn [cols].
  induction req as [|c req IH]; cbn [existsb map assoc]; [discriminate|].
  rewrite (String.eqb_sym "ID" c). destruct (String.eqb c "ID"); [reflexivity|].
  exact IH.
Qed.

Lemma required_cols_id (kind : string) (req : list string) :
  required_cols_of kind = Ok req -> mem "ID" req = true.
Proof.
  intros H. destruct (kind_cases _ H) as [[_ ->]|[_ ->]]; reflexivity.
Qed.

Lemma coerced_cols_id (now kind : string) (df : DataFrame) (z : list Z) (n : nat) :
  getitem (mkDF n (coerced_cols now kind df z)) "ID" = Ok (integers z).
Proof.
  unfold getitem, coerced_cols; cbn [cols].
  destruct (String.eqb kind "singole"); reflexivity.
Qed.

(** The ids [_ensure_ids] settles on, for whole ids: pairwise distinct, and
    positive when the ids that were there are. *)
Lemma range_In_bounds (a : Z) (k : nat) (v : Z) :
  In v (range a (a + Z.of_nat k)) -> (a <= v < a + Z.of_nat k)%Z.
Proof.
  unfold range. intros H. apply in_map_iff in H as (i & <- & Hi).
  apply in_seq in Hi. lia.
Qed.

Lemma fill_ids_In_bounds (l : list float) (a v : Z) :
  In v (fill_ids a l) ->
  (exists x, In x l /\ isnan x = false /\ v = int_value x)
  \/ (a <= v < a + Z.of_nat (count_true (map isnan l)))%Z.
Proof.
  revert a. induction l as [|x l IH]; intros a; [contradiction|].
  cbn [fill_ids]. unfold count_true in *. cbn [map filter].
  destruct (isnan x) eqn:E; cbn [length]; intros [<-|H].
  - right. lia.
  - destruct (IH _ H) as [(y & Hy & Hn & ->)|Hb].
    + left. exists y. repeat split; auto. now right.
    + right. lia.
  - left. exists x. repeat split; auto. now left.
  - destruct (IH _ H) as [(y & Hy & Hn & ->)|Hb].
    + left. exists y. repeat split; auto. now right.
    + right. lia.
Qed.

Lemma reconcile_whole (l : list float) :
  forallb whole l = true ->
  exact_ids l = true ->
  exists z,
    reconcile l = Ok z
    /\ length z = length l
    /\ NoDup z
    /\ Forall (fun v => (- max_exact <= v <= max_exact)%Z) z
    /\ (Forall (fun x => isnan x = true \/ float_leb (of_int 1) x = true) l ->
        Forall (fun v => (0 < v)%Z) z).
Proof.
  intros Hw Hex. destruct (exact_ids_parts l Hex) as (He & Hs & Hrows).
  destruct (duplicated_ids l) eqn:Hd.
  - exists (range 1 (Z.of_nat (length l) + 1)).
    replace (Z.of_nat (length l) + 1)%Z with (1 + Z.of_nat (length l))%Z by lia.
    split; [rewrite (reconcile_renumber _ Hd); f_equal; f_equal; lia|].
    split; [apply range_length|].
    split; [apply Sorted_lt_NoDup, range_sorted|].
    split.
    { apply Forall_forall. intros v Hv. apply range_In_bounds in Hv.
      rewrite max_exact_eq in *. lia. }
    intros _. apply Forall_forall. intros v Hv. apply range_In in Hv. lia.
  - destruct (max_id_of_spec _ Hw) as (Hm0 & Hmj & Hmu).
    pose proof (max_id_of_exact l He) as Hmb.
    exists (fill_ids (max_id_of l + 1) l).
    split; [now apply reconcile_keep|].
    split; [apply fill_ids_length|]. split.
    { apply fill_ids_NoDup; [|now apply kept_ids_distinct].
      intros x Hin Hnn. specialize (Hmu x Hin Hnn). lia. }
    split.
    { apply Forall_forall. intros v Hv.
      destruct (fill_ids_In_bounds _ _ _ Hv) as [(x & Hin & Hnn & ->)|Hb].
      - apply int_value_exact. rewrite forallb_forall in He. now apply He.
      - lia. }
    intros Hpos. rewrite Forall_forall in Hpos.
      assert (Hone : forall x, In x l -> isnan x = false -> (1 <= int_value x)%Z).
      { intros x Hx Hn. destruct (Hpos x Hx) as [E|E]; [congruence|].
        rewrite <- (int_value_of_int 1).
        apply int_value_le;
          [apply is_integer_of_int | eapply whole_notnan; eauto | exact E]. }
      assert (Hm : (0 <= max_id_of l)%Z).
      { destruct (any (notna l)) eqn:Ea.
        - destruct (Hmj eq_refl) as (j & Hj & Hn & <-).
          specialize (Hone _ (nth_In l NaN Hj) Hn). lia.
        - rewrite (Hm0 eq_refl). lia. }
      apply Forall_forall. intros v Hv.
      destruct (fill_ids_In _ _ _ Hv) as [(x & Hx & Hn & ->)|Hle]; [|lia].
      specialize (Hone x Hx Hn). lia.
Qed.

(** C5.  For a table whose numeric ids are whole numbers within the exact
    range, the ids of the normalised table are integers, pairwise distinct
    and in ascending order down the rows; they are positive when every
    numeric id of the input is at least 1. *)
Theorem C5_ids_distinct_sorted (now : string) (df : DataFrame) (kind : string)
  (req : list string) :
  wf df = true ->
  required_cols_of kind = Ok req ->
  forallb whole (to_numeric (column df "ID")) = true ->
  exact_ids (to_numeric (column df "ID")) = true ->
  exists out zs,
    _normalize now (Some df) req kind = Ok out
    /\ getitem out "ID" = Ok (integers zs)
    /\ NoDup zs
    /\ Sorted Z.le zs
    /\ (Forall (fun x => isnan x = true \/ float_leb (of_int 1) x = true)
               (to_numeric (column df "ID")) ->
        Forall (fun z => (0 < z)%Z) zs).
Proof.
  intros Hwf Hk Hw Hx. destruct (empty df) eqn:He.
  - exists (new_frame req), []. unfold _normalize. rewrite He.
    split; [reflexivity|]. split; [apply new_frame_id; eapply required_cols_id; eauto|].
    repeat constructor.
  - destruct (reconcile_whole _ Hw Hx) as (z & Hz & Hl & Hnd & _ & Hpos).
    rewrite to_numeric_length, column_length in Hl by exact Hwf.
    set (order := argsort (map of_int z)).
    assert (Hperm : Permutation order (seq 0 (length z))).
    { unfold order. rewrite <- (length_map of_int z). apply argsort_perm. }
    pose proof (argsort_bound (map of_int z)) as Hb.
    rewrite length_map in Hb. fold order in Hb.
    pose proof (perm_map_nth z 0%Z Hperm) as Hp.
    exists (mkDF (nrows df) (reorder order (coerced_cols now kind df z))),
      (map (fun i => nth i z 0%Z) order).
    split; [rewrite (normalize_result now df kind Hwf He Hk), Hz; reflexivity|].
    split; [rewrite getitem_reorder, coerced_cols_id; cbn [bind];
            now rewrite take_integers|].
    split; [apply (Permutation_NoDup (Permutation_sym Hp) Hnd)|].
    split; [apply argsort_sorted|].
    intros H. specialize (Hpos H).
    apply (Permutation_Forall (Permutation_sym Hp) Hpos).
Qed.

End IdFacts.

(** ** Profit *)

(** C8.  With odds that are not null, the profit of a single wager at unit
    stake is [odds - 1] when won, [-1] when lost and [0] while pending; with
    total odds and a stake that are not null, the profit of a combination
    wager is [stake * (total_odds - 1)] when won, [-stake] when lost and [0]
    while pending. *)
Theorem C8_profit_rules (odds stake : float) :
  isnan odds = false ->
  (profit_unit_stake odds "Vinta" = fsub odds (Fin 1)
   /\ profit_unit_stake odds "Persa" = Fin (- (1))
   /\ profit_unit_stake odds "In attesa" = Fin 0)
  /\ (isnan stake = false ->
      profit_with_stake odds "Vinta" stake = fmul stake (fsub odds (Fin 1))
      /\ profit_with_stake odds "Persa" stake = fneg stake
      /\ profit_with_stake odds "In attesa" stake = Fin 0).
Proof.
  intros Ho. unfold profit_unit_stake, profit_with_stake. rewrite Ho.
  split; [repeat split|].
  intros Hs. rewrite Hs. cbn. repeat split.
Qed.

(** At odds 2.5 and stake 10 a combination wager wins 15 and loses 10; at
    odds 1.80 a single wager wins 0.80. *)
Lemma C8_profit_rules_witness :
  float_equiv (profit_with_stake (Fin 2.5) "Vinta" (Fin 10)) (Fin 15)
  /\ float_equiv (profit_with_stake (Fin 2.5) "Persa" (Fin 10)) (Fin (- (10)))
  /\ float_equiv (profit_unit_stake (Fin 1.80) "Vinta") (Fin 0.80)
  /\ profit_unit_stake (Fin 1.80) "Persa" = Fin (- (1))
  /\ profit_unit_stake (Fin 1.80) "In attesa" = Fin 0.
Proof.
  destruct (C8_profit_rules (Fin 2.5) (Fin 10) eq_refl) as (_ & Hm).
  destruct (Hm eq_refl) as (Hw & Hl & _).
  destruct (C8_profit_rules (Fin 1.80) (Fin 10) eq_refl) as ((Hu & Hp & Ha) & _).
  rewrite Hw, Hl, Hu. repeat split; try reflexivity; assumption.
Defined.

(** A lost single wager whose odds are null yields 0, not -1, and a lost
    combination wager whose total odds are null yields 0, not minus its
    stake. *)
Lemma C8_lost_without_odds :
  profit_unit_stake NaN "Persa" = Fin 0
  /\ float_eqb (profit_unit_stake NaN "Persa") (Fin (- (1))) = false
  /\ float_eqb (profit_with_stake NaN "Persa" (Fin 10)) (fneg (Fin 10)) = false.
Proof. repeat split. Qed.

Section ProfitOfCells.

Context {R : Runtime}.

(** C10.  Whatever the outcome, the profit is 0 when the odds are null, and
    for a combination wager also when the stake is null; a lost wager whose
    odds cell does not parse as a number counts 0. *)
Theorem C10_null_odds_zero_profit (outcome : string) (odds stake : float) (c : cell) :
  profit_unit_stake NaN outcome = Fin 0
  /\ profit_with_stake NaN outcome stake = Fin 0
  /\ profit_with_stake odds outcome NaN = Fin 0
  /\ (isnan (to_float c) = true ->
      profit_unit_stake (to_float c) "Persa" = Fin 0
      /\ profit_with_stake (to_float c) "Persa" stake = Fin 0).
Proof.
  unfold profit_unit_stake, profit_with_stake. repeat split.
  - now rewrite orb_true_r.
  - now rewrite H.
  - now rewrite H.
Qed.

End ProfitOfCells.

(** ** The example tables *)

Import Examples.

(** The theorem of C1 at [duplicated_table], rows 0 and 1. *)
Lemma C1_duplicate_ids_renumbered_witness :
  exists out,
    _normalize today (Some duplicated_table) REQUIRED_COLUMNS_SINGOLE "singole" = Ok out
    /\ nrows out = 3%nat
    /\ getitem out "ID" = Ok (integers (range 1 (Z.of_nat 3 + 1)))
    /\ cols out = coerced_cols today "singole" duplicated_table (range 1 (Z.of_nat 3 + 1)).
Proof.
  apply (@C1_duplicate_ids_renumbered cpython today duplicated_table "singole"
           REQUIRED_COLUMNS_SINGOLE [Str "3"; Str "3"; Str "7"] 0 1);
    try reflexivity.
  cbn; lia.
Defined.

(** The table of the example, normalised. *)
Example duplicated_table_normalised :
  _normalize today (Some duplicated_table) REQUIRED_COLUMNS_SINGOLE "singole"
  = Ok (mkDF 3
          [ ("ID", [Int 1; Int 2; Int 3]);
            ("Data", [Str "2024-01-10"; Str "2024-05-01"; Str "2024-02-01"]);
            ("Campionato", [Str "Serie A"; Str "Altro"; Str "Liga"]);
            ("Partita", [Str "Juve - Napoli"; Str "Pisa - Lucca"; Str "Real - Betis"]);
            ("Mercato", [Str "MG 1-2 Casa"; Str ""; Str "MG 2-4"]);
            ("Quota", [Num (Fin (9 # 5)); Num NaN; Num (Fin (5 # 2))]);
            ("Esito", [Str "Vinta"; Str "In attesa"; Str "In attesa"]);
            ("Note", [Str ""; Str "x"; Str ""]) ]).
Proof. vm_compute. reflexivity. Qed.

(** An id of 2.5 is not kept: the row comes out with id 2, and the row
    without an id receives 3. *)
Lemma C2_fractional_id_changed :
  to_numeric (column fractional_table "ID") = [Fin (5 # 2); NaN]
  /\ (exists out,
        _normalize today (Some fractional_table) REQUIRED_COLUMNS_SINGOLE "singole" = Ok out
        /\ getitem out "ID" = Ok [Int 2; Int 3])
  /\ float_eqb (of_int 2) (Fin (5 # 2)) = false.
Proof.
  split; [reflexivity|]. split; [|reflexivity].
  eexists. split; vm_compute; reflexivity.
Defined.

(** The theorem of C2 at [gaps_table], whose ids read 7, nothing and 3, and
    at [unnumbered_table], which has no "ID" column. *)
Lemma C2_missing_ids_filled_witness :
  (exists out z max_id,
    _normalize today (Some gaps_table) REQUIRED_COLUMNS_MULTIPLE "multiple" = Ok out
    /\ length z = 3%nat
    /\ cols out = reorder (argsort (map of_int z))
                    (coerced_cols today "multiple" gaps_table z)
    /\ (forall i, (i < 3)%nat -> isnan (nth i [of_int 7; NaN; of_int 3] NaN) = false ->
                  float_equiv (of_int (nth i z 0%Z)) (nth i [of_int 7; NaN; of_int 3] NaN))
    /\ fresh_ids [of_int 7; NaN; of_int 3] z = range (max_id + 1) (max_id + 1 + 1)
    /\ (any (notna [of_int 7; NaN; of_int 3]) = false -> max_id = 0%Z)
    /\ (any (notna [of_int 7; NaN; of_int 3]) = true ->
        exists j, (j < 3)%nat /\ isnan (nth j [of_int 7; NaN; of_int 3] NaN) = false
                  /\ nth j z 0%Z = max_id)
    /\ (forall i, (i < 3)%nat -> isnan (nth i [of_int 7; NaN; of_int 3] NaN) = false ->
                  (nth i z 0%Z <= max_id)%Z))
  /\ (exists out z max_id,
        _normalize today (Some unnumbered_table) REQUIRED_COLUMNS_MULTIPLE "multiple"
        = Ok out
        /\ length z = 2%nat
        /\ cols out = reorder (argsort (map of_int z))
                        (coerced_cols today "multiple" unnumbered_table z)
        /\ (forall i, (i < 2)%nat -> isnan (nth i [NaN; NaN] NaN) = false ->
                      float_equiv (of_int (nth i z 0%Z)) (nth i [NaN; NaN] NaN))
        /\ fresh_ids [NaN; NaN] z = range (max_id + 1) (max_id + 1 + 2)
        /\ (any (notna [NaN; NaN]) = false -> max_id = 0%Z)
        /\ (any (notna [NaN; NaN]) = true ->
            exists j, (j < 2)%nat /\ isnan (nth j [NaN; NaN] NaN) = false
                      /\ nth j z 0%Z = max_id)
        /\ (forall i, (i < 2)%nat -> isnan (nth i [NaN; NaN] NaN) = false ->
                      (nth i z 0%Z <= max_id)%Z)).
Proof.
  split.
  - apply (@C2_missing_ids_filled cpython today gaps_table "multiple"
             REQUIRED_COLUMNS_MULTIPLE [of_int 7; NaN; of_int 3]);
      try reflexivity.
    intros [|[|[|i]]] [|[|[|j]]] H; try reflexivity; cbn in H; lia.
  - apply (@C2_missing_ids_filled cpython today unnumbered_table "multiple"
             REQUIRED_COLUMNS_MULTIPLE [NaN; NaN]);
      try reflexivity.
    intros [|[|i]] [|[|j]] H; try reflexivity; cbn in H; lia.
Defined.

(** The rows of a table without an "ID" column are numbered from 1. *)
Example unnumbered_table_normalised :
  _normalize today (Some unnumbered_table) REQUIRED_COLUMNS_MULTIPLE "multiple"
  = Ok (mkDF 2
          [ ("ID", [Int 1; Int 2]);
            ("Data", [Str "2024-03-01"; Str "2024-03-02"]);
            ("Multipla", [Str "x"; Str "y"]);
            ("Quota Totale", [Num (Fin 3); Num (Fin 2)]);
            ("Stake", [Num (Fin 5); Num (Fin 5)]);
            ("Esito", [Str "Vinta"; Str "In attesa"]);
            ("Note", [Str ""; Str ""]) ]).
Proof. vm_compute. reflexivity. Qed.

(** Outside the exact range.  With the ids 2^53 and nothing the "ID" column
    is a float64 column, which holds the fresh id 2^53 + 1 as 2^53: two rows
    come out with the same id.  With an id past the int64 range next to a
    missing one, the range of the fresh ids raises. *)
Example edge_table_normalised :
  exact_ids (to_numeric (column edge_table "ID")) = false
  /\ exists out,
       _normalize today (Some edge_table) REQUIRED_COLUMNS_SINGOLE "singole" = Ok out
       /\ getitem out "ID" = Ok [Int (2 ^ 53); Int (2 ^ 53)].
Proof.
  split; [reflexivity|]. eexists. split; vm_compute; reflexivity.
Qed.

Example beyond_table_raises :
  exact_ids (to_numeric (column beyond_table "ID")) = false
  /\ _normalize today (Some beyond_table) REQUIRED_COLUMNS_SINGOLE "singole"
     = Raise OverflowError.
Proof. split; [reflexivity | vm_compute; reflexivity]. Qed.

Example gaps_table_normalised :
  _normalize today (Some gaps_table) REQUIRED_COLUMNS_MULTIPLE "multiple"
  = Ok (mkDF 3
          [ ("ID", [Int 3; Int 7; Int 8]);
            ("Data", [Str "2024-02-01"; Str "2024-01-10"; Str "2024-01-11"]);
            ("Multipla", [Str "c"; Str "a"; Str "b"]);
            ("Quota Totale", [Num (Fin 4); Num (Fin (5 # 2)); Num NaN]);
            ("Stake", [Num (Fin (7 # 2)); Num (Fin 10); Num (Fin 0)]);
            ("Esito", [Str "In attesa"; Str "Vinta"; Str "Persa"]);
            ("Note", [Str ""; Str ""; Str ""]) ]).
Proof. vm_compute. reflexivity. Qed.

(** C3 at an id cell that reads [inf]: [int(id_num.max())] raises, in both
    variants of [_normalize]. *)
Theorem C3_infinite_id_raises :
  to_numeric (column infinite_table "ID") = [Inf false]
  /\ _normalize today (Some infinite_table) REQUIRED_COLUMNS_SINGOLE "singole"
     = Raise OverflowError
  /\ _normalize today (Some infinite_table) REQUIRED_COLUMNS_MULTIPLE "multiple"
     = Raise OverflowError
  /\ _normalize_storico today (Some infinite_table) = Raise OverflowError.
Proof. repeat split; vm_compute; reflexivity. Qed.

(** C4 at the ids 1 and 1.5: the normalised table carries the id 1 twice, and
    normalising it again renumbers its rows. *)
Theorem C4_colliding_ids_not_stable :
  exists y1 y2,
    _normalize today (Some colliding_table) REQUIRED_COLUMNS_SINGOLE "singole" = Ok y1
    /\ _normalize today (Some y1) REQUIRED_COLUMNS_SINGOLE "singole" = Ok y2
    /\ getitem y1 "ID" = Ok [Int 1; Int 1]
    /\ getitem y2 "ID" = Ok [Int 1; Int 2].
Proof.
  do 2 eexists. split; [vm_compute; reflexivity|].
  split; [vm_compute; reflexivity|]. split; reflexivity.
Qed.

(** An id of 0 is kept, and it is not positive. *)
Lemma C5_zero_id_kept :
  exists out,
    _normalize today (Some zero_table) REQUIRED_COLUMNS_SINGOLE "singole" = Ok out
    /\ getitem out "ID" = Ok [Int 0]
    /\ positive_ids [Int 0] = false.
Proof.
  eexists. split; [vm_compute; reflexivity|]. split; reflexivity.
Defined.

(** The theorem of C5 at [gaps_table]. *)
Lemma C5_ids_distinct_sorted_witness :
  exists out zs,
    _normalize today (Some gaps_table) REQUIRED_COLUMNS_MULTIPLE "multiple" = Ok out
    /\ getitem out "ID" = Ok (integers zs)
    /\ NoDup zs
    /\ Sorted Z.le zs
    /\ (Forall (fun x => isnan x = true \/ float_leb (of_int 1) x = true)
               (to_numeric (column gaps_table "ID")) ->
        Forall (fun z => (0 < z)%Z) zs).
Proof.
  apply (@C5_ids_distinct_sorted cpython today gaps_table "multiple"
           REQUIRED_COLUMNS_MULTIPLE); reflexivity.
Defined.



(** ** Tables in canonical form *)

Lemma sorted_ints_distinct (zs : list Z) :
  Sorted Z.lt zs ->
  ForallOrdPairs (fun x y => float_eqb x y = false) (map of_int zs).
Proof.
  intros H. apply Sorted_StronglySorted in H; [|exact Z.lt_trans].
  induction H as [|z zs Hs IH Hall]; cbn [map]; constructor; [|exact IH].
  apply Forall_forall. intros x Hx. apply in_map_iff in Hx as (y & <- & Hy).
  rewrite Forall_forall in Hall. specialize (Hall y Hy).
  unfold float_eqb, of_int. rewrite Qeq_bool_inject_Z. apply Z.eqb_neq. lia.
Qed.

Lemma fill_ids_ints (zs : list Z) (a : Z) : fill_ids a (map of_int zs) = zs.
Proof.
  induction zs as [|z zs IH]; [reflexivity|].
  cbn [map fill_ids of_int isnan]. fold (of_int z).
  now rewrite int_value_of_int, IH.
Qed.

Lemma labelled_cons (l : list (string * Series)) (c : string) (cs : list string) :
  map fst l = c :: cs ->
  exists s l', l = (c, s) :: l' /\ map fst l' = cs.
Proof.
  destruct l as [|[k s] l]; cbn; intros H; [discriminate|].
  injection H as -> H. eauto.
Qed.

Lemma labelled_nil (l : list (string * Series)) : map fst l = [] -> l = [].
Proof. destruct l; [reflexivity | discriminate]. Qed.

Ltac open_body H :=
  repeat
    (let s := fresh "s" in
     let l := fresh "l" in
     let E := fresh "E" in
     apply labelled_cons in H as (s & l & E & H); subst);
  apply labelled_nil in H; subst.

Ltac open_cells H :=
  repeat
    (let Hl := fresh "Hl" in
     let Hc := fresh "Hc" in
     let H' := fresh "H" in
     inversion H as [|? ? [Hl Hc] H']; subst; clear H; rename H' into H;
     cbn [fst snd] in Hl, Hc);
  clear H.

Section CanonicalFacts.

Context {R : Runtime}.

Lemma reconcile_sorted_ints (zs : list Z) :
  Sorted Z.lt zs -> exact_ints zs -> reconcile (map of_int zs) = Ok zs.
Proof.
  intros H Hx. rewrite reconcile_keep.
  - now rewrite fill_ids_ints.
  - unfold duplicated_ids. apply andb_false_iff. right.
    apply distinct_pairs_not_duplicated; [|intros s x []].
    now apply distinct_pairs_filter, sorted_ints_distinct.
  - now apply exact_ids_ints.
Qed.

Lemma normalize_onto (now kind : string) (req : list string) (df : DataFrame)
  (zs : list Z) :
  wf df = true -> empty df = false -> required_cols_of kind = Ok req ->
  to_numeric (column df "ID") = map of_int zs -> Sorted Z.lt zs ->
  exact_ints zs ->
  _normalize now (Some df) req kind
  = Ok (mkDF (nrows df) (coerced_cols now kind df zs)).
Proof.
  intros Hwf He Hk Hid Hs Hx.
  assert (Hl : length zs = nrows df).
  { rewrite <- (column_length df "ID" Hwf), <- to_numeric_length, Hid.
    now rewrite length_map. }
  rewrite (normalize_result now df kind Hwf He Hk), Hid.
  rewrite (@reconcile_sorted_ints zs Hs Hx). cbn [bind].
  rewrite argsort_sorted_input by now apply Sorted_lt_le.
  rewrite Hl, reorder_seq by now apply coerced_cols_lengths.
  reflexivity.
Qed.

(** The coercions leave canonical cells as they are. *)

Lemma map_fixed (f : cell -> cell) (ok : cell -> bool) (s : Series) :
  (forall c, ok c = true -> f c = c) -> forallb ok s = true -> map f s = s.
Proof.
  intros Hf Hs. rewrite forallb_forall in Hs.
  rewrite <- (map_id s) at 2. apply map_ext_in. intros c Hc. auto.
Qed.

Lemma coerce_data_cells (now : string) (s : Series) :
  coerce_data now s
  = map (fun c => let c' := if isna c then Str "" else c in
                  if strip_is_empty (astype_str "Data" c') then Str now else c') s.
Proof.
  unfold coerce_data, blank, fillna. rewrite loc_set_map, map_map. reflexivity.
Qed.

Lemma coerce_data_fixed (now : string) (s : Series) :
  forallb date_cell s = true -> coerce_data now s = s.
Proof.
  rewrite coerce_data_cells. apply map_fixed.
  intros [|t|x]; cbn; try discriminate. now destruct (strip_is_empty t).
Qed.

Lemma coerce_esito_fixed (s : Series) :
  forallb outcome_cell s = true -> coerce_esito s = s.
Proof.
  rewrite coerce_esito_spec. apply map_fixed.
  intros [|t|x]; cbn -[OUTCOMES]; try discriminate. now intros ->.
Qed.

Lemma coerce_campionato_fixed (s : Series) :
  forallb league_cell s = true -> coerce_campionato s = s.
Proof.
  rewrite coerce_campionato_spec. apply map_fixed.
  intros [|t|x]; cbn -[LEAGUES]; try discriminate. now intros ->.
Qed.

Lemma coerce_text_fixed (s : Series) :
  forallb text_cell s = true -> coerce_text s = s.
Proof.
  unfold coerce_text, fillna. apply map_fixed.
  intros [|t|x]; cbn; try discriminate. reflexivity.
Qed.

Lemma coerce_number_fixed (s : Series) :
  forallb number_cell s = true -> coerce_number s = s.
Proof.
  rewrite coerce_number_spec. apply map_fixed.
  intros [|t|x]; cbn; try discriminate. now destruct x.
Qed.

Lemma coerce_stake_fixed (s : Series) :
  forallb stake_cell s = true -> coerce_stake s = s.
Proof.
  rewrite coerce_stake_spec. apply map_fixed.
  intros [|t|x]; cbn; try discriminate. now destruct x.
Qed.

Lemma canonical_coerced (now kind : string) (req : list string) (df : DataFrame) :
  required_cols_of kind = Ok req -> canonical req df ->
  exists zs,
    Sorted Z.lt zs
    /\ exact_ints zs
    /\ getitem df "ID" = Ok (integers zs)
    /\ wf df = true
    /\ coerced_cols now kind df zs = cols df.
Proof.
  intros Hk (zs & body & Hcols & Hreq & Hs & Hx & Hlen & Hbody).
  exists zs. split; [exact Hs|]. split; [exact Hx|].
  split; [unfold getitem; rewrite Hcols; reflexivity|].
  unfold wf, labels, coerced_cols, column. rewrite Hcols.
  destruct (kind_cases _ Hk) as [[-> ->]|[-> ->]];
    injection Hreq as Hreq; open_body Hreq; open_cells Hbody;
    unfold cell_ok in *;
    cbn [assoc cols nrows map fst snd distinct mem existsb forallb negb andb orb
         String.eqb Ascii.eqb Bool.eqb] in *.
  - split.
    + unfold integers. rewrite length_map, Hlen, Hl, Hl0, Hl1, Hl2, Hl3, Hl4, Hl5.
      now rewrite !Nat.eqb_refl.
    + rewrite coerce_data_fixed, coerce_campionato_fixed, !coerce_text_fixed,
        coerce_number_fixed, coerce_esito_fixed; auto.
  - split.
    + unfold integers. rewrite length_map, Hlen, Hl, Hl0, Hl1, Hl2, Hl3, Hl4.
      now rewrite !Nat.eqb_refl.
    + rewrite coerce_data_fixed, !coerce_text_fixed, coerce_number_fixed,
        coerce_stake_fixed, coerce_esito_fixed; auto.
Qed.

Lemma canonical_no_rows (req : list string) (df : DataFrame) :
  canonical req df -> nrows df = 0%nat -> df = new_frame req.
Proof.
  intros (zs & body & Hcols & Hreq & Hs & _ & Hlen & Hbody) Hn.
  destruct df as [n l]. cbn [nrows cols] in *. subst.
  destruct zs; [|discriminate]. unfold new_frame. cbn [map integers].
  assert (E : body = map (fun c => (c, [])) (map fst body)); [|now rewrite <- E].
  clear -Hbody. induction Hbody as [|[c s] body [Hl _] Hb IH]; [reflexivity|].
  cbn [map fst snd] in *. destruct s; [|discriminate]. now rewrite <- IH.
Qed.

(** A table in canonical form is a fixed point of [_normalize], whatever the
    date of the call. *)
Lemma normalize_canonical (now kind : string) (req : list string) (df : DataFrame) :
  required_cols_of kind = Ok req -> canonical req df ->
  _normalize now (Some df) req kind = Ok df.
Proof.
  intros Hk Hc. destruct (empty df) eqn:He.
  - unfold _normalize. rewrite He. f_equal. symmetry.
    apply canonical_no_rows; [exact Hc|].
    destruct Hc as (zs & body & Hcols & _). unfold empty in He.
    rewrite Hcols in He. cbn in He. rewrite orb_false_r in He.
    now apply Nat.eqb_eq.
  - destruct (@canonical_coerced now kind req df Hk Hc)
      as (zs & Hs & Hx & Hid & Hwf & Hfix).
    rewrite (@normalize_onto now kind req df zs Hwf He Hk); [| |exact Hs|exact Hx].
    + rewrite Hfix. now destruct df.
    + rewrite (column_getitem _ _ Hid). unfold to_numeric, integers.
      rewrite map_map. reflexivity.
Qed.

End CanonicalFacts.

(** ** The normalised table is in canonical form *)

Lemma Sorted_le_NoDup_lt (zs : list Z) :
  Sorted Z.le zs -> NoDup zs -> Sorted Z.lt zs.
Proof.
  induction 1 as [|z zs Hs IH Hd]; intros Hnd; constructor.
  - apply IH. now inversion Hnd.
  - destruct Hd as [|y zs Hzy]; constructor.
    inversion Hnd as [|? ? Hnotin _]; subst.
    assert (z <> y) by (intros ->; apply Hnotin; now left). lia.
Qed.

Lemma take_length (order : list nat) (s : Series) :
  length (take order s) = length order.
Proof. apply length_map. Qed.

Lemma take_ok (ok : cell -> bool) (order : list nat) (s : Series) :
  Forall (fun i => i < length s)%nat order ->
  forallb ok s = true -> forallb ok (take order s) = true.
Proof.
  intros Hb Hs. rewrite forallb_forall in *. intros c Hc.
  apply in_map_iff in Hc as (i & <- & Hi).
  rewrite Forall_forall in Hb. apply Hs, nth_In, Hb, Hi.
Qed.

Section OutputFacts.

Context {R : Runtime}.

Lemma coerce_data_ok (now : string) (s : Series) :
  strip_is_empty now = false -> forallb text_or_null s = true ->
  forallb date_cell (coerce_data now s) = true.
Proof.
  intros Hnow Hs. rewrite coerce_data_cells, forallb_forall.
  intros c Hc. apply in_map_iff in Hc as (c0 & <- & Hc0).
  rewrite forallb_forall in Hs. specialize (Hs c0 Hc0).
  destruct c0 as [|t|[|b|q]]; cbn in *; try discriminate.
  - destruct (strip_is_empty "") eqn:E; cbn; now rewrite ?Hnow, ?E.
  - destruct (strip_is_empty t) eqn:E; cbn; now rewrite ?Hnow, ?E.
  - destruct (strip_is_empty "") eqn:E; cbn; now rewrite ?Hnow, ?E.
Qed.

Lemma coerce_esito_ok (s : Series) : forallb outcome_cell (coerce_esito s) = true.
Proof.
  rewrite coerce_esito_spec, forallb_forall. intros c Hc.
  apply in_map_iff in Hc as (c0 & <- & _).
  destruct c0 as [|t|x]; try reflexivity.
  unfold outcome_of_spec. destruct (mem t OUTCOMES) eqn:E; [exact E | reflexivity].
Qed.

Lemma coerce_campionato_ok (s : Series) :
  forallb league_cell (coerce_campionato s) = true.
Proof.
  rewrite coerce_campionato_spec, forallb_forall. intros c Hc.
  apply in_map_iff in Hc as (c0 & <- & _).
  destruct c0 as [|t|x]; try reflexivity.
  unfold league_of_spec. destruct (mem t LEAGUES) eqn:E; [exact E | reflexivity].
Qed.

Lemma coerce_text_ok (s : Series) :
  forallb text_or_null s = true -> forallb text_cell (coerce_text s) = true.
Proof.
  intros Hs. unfold coerce_text, fillna. rewrite forallb_forall. intros c Hc.
  apply in_map_iff in Hc as (c0 & <- & Hc0).
  rewrite forallb_forall in Hs. specialize (Hs c0 Hc0).
  destruct c0 as [|t|[|b|q]]; cbn in *; auto; discriminate.
Qed.

Lemma coerce_number_ok (s : Series) : forallb number_cell (coerce_number s) = true.
Proof.
  unfold coerce_number, numeric. rewrite forallb_forall. intros c Hc.
  now apply in_map_iff in Hc as (x & <- & _).
Qed.

Lemma coerce_stake_ok (s : Series) : forallb stake_cell (coerce_stake s) = true.
Proof.
  rewrite coerce_stake_spec, forallb_forall. intros c Hc.
  apply in_map_iff in Hc as (c0 & <- & _).
  unfold stake_of_spec. destruct (to_float c0); reflexivity.
Qed.

(** The cells of the coerced columns, the ids apart. *)
Lemma coerced_cols_ok (now kind : string) (req : list string) (df : DataFrame)
  (z : list Z) :
  required_cols_of kind = Ok req ->
  strip_is_empty now = false -> raw_text kind df = true ->
  exists body,
    coerced_cols now kind df z = ("ID", integers z) :: body
    /\ "ID" :: map fst body = req
    /\ Forall (fun cs => forallb (cell_ok (fst cs)) (snd cs) = true) body.
Proof.
  intros Hk Hnow Hraw. unfold coerced_cols, raw_text, text_columns in *.
  destruct (kind_cases _ Hk) as [[-> ->]|[-> ->]];
    cbn [String.eqb Ascii.eqb Bool.eqb forallb] in *;
    rewrite !andb_true_iff in Hraw; decompose [and] Hraw; clear Hraw;
    eexists; (split; [reflexivity|]); (split; [reflexivity|]);
    repeat constructor; cbn [fst snd]; unfold cell_ok;
    cbn [String.eqb Ascii.eqb Bool.eqb];
    auto using coerce_data_ok, coerce_esito_ok, coerce_campionato_ok,
      coerce_text_ok, coerce_number_ok, coerce_stake_ok.
Qed.

Lemma reorder_labels (order : list nat) (l : list (string * Series)) :
  map fst (reorder order l) = map fst l.
Proof. unfold reorder. rewrite map_map. reflexivity. Qed.

Lemma new_frame_canonical (kind : string) (req : list string) :
  required_cols_of kind = Ok req -> canonical req (new_frame req).
Proof.
  intros Hk. exists [], (map (fun c => (c, [])) (tl req)).
  destruct (kind_cases _ Hk) as [[_ ->]|[_ ->]];
    (split; [reflexivity|]); (split; [reflexivity|]);
    (split; [constructor|]);
    (split; [split; [constructor | now rewrite max_exact_eq]|]);
    (split; [reflexivity|]);
    repeat constructor.
Qed.

(** For a table whose ids are whole and within the exact range, whose free
    text is text, normalised on a day whose date is not blank, the result is
    in canonical form. *)
Lemma normalize_is_canonical (now kind : string) (req : list string)
  (df out : DataFrame) :
  wf df = true -> required_cols_of kind = Ok req ->
  forallb whole (to_numeric (column df "ID")) = true ->
  exact_ids (to_numeric (column df "ID")) = true ->
  raw_text kind df = true -> strip_is_empty now = false ->
  _normalize now (Some df) req kind = Ok out ->
  canonical req out.
Proof.
  intros Hwf Hk Hw Hex Hraw Hnow Hout. destruct (empty df) eqn:He.
  - unfold _normalize in Hout. rewrite He in Hout. injection Hout as <-.
    eapply new_frame_canonical; eauto.
  - destruct (reconcile_whole _ Hw Hex) as (z & Hz & Hl & Hnd & Hzb & _).
    destruct (exact_ids_parts _ Hex) as (_ & _ & Hrows).
    rewrite to_numeric_length, column_length in Hl, Hrows by exact Hwf.
    rewrite (normalize_result now df kind Hwf He Hk), Hz in Hout.
    cbn [bind] in Hout. injection Hout as <-.
    set (order := argsort (map of_int z)).
    assert (Hperm : Permutation order (seq 0 (length z))).
    { unfold order. rewrite <- (length_map of_int z). apply argsort_perm. }
    pose proof (argsort_bound (map of_int z)) as Hb.
    rewrite length_map in Hb. fold order in Hb.
    assert (Hlo : length order = nrows df).
    { rewrite (Permutation_length Hperm), length_seq. exact Hl. }
    destruct (@coerced_cols_ok now kind req df z Hk Hnow Hraw)
      as (body & Ecols & Ereq & Hok).
    pose proof (coerced_cols_lengths now kind df z Hwf Hl) as Hlens.
    rewrite Ecols in *.
    exists (map (fun i => nth i z 0%Z) order), (reorder order body).
    cbn [cols nrows]. split.
    { cbn [reorder map fst snd]. now rewrite take_integers. }
    split; [now rewrite reorder_labels|].
    split.
    { apply Sorted_le_NoDup_lt; [apply argsort_sorted|].
      apply (Permutation_NoDup (Permutation_sym (perm_map_nth z 0%Z Hperm)) Hnd). }
    split.
    { split; [|now rewrite length_map, Hlo].
      apply (Permutation_Forall (Permutation_sym (perm_map_nth z 0%Z Hperm)) Hzb). }
    split; [now rewrite length_map|].
    assert (Hbody : Forall (fun cs => length (snd cs) = nrows df
                                      /\ forallb (cell_ok (fst cs)) (snd cs) = true)
                           body).
    { inversion Hlens as [|? ? _ Hlb]; subst. clear -Hok Hlb.
      induction Hok; inversion Hlb; subst; constructor; auto. }
    clear -Hbody Hb Hlo Hl.
    induction Hbody as [|[c s] body [Hs Hc] _ IH]; [constructor|].
    constructor; [|exact IH].
    cbn [fst snd] in *. split; [now rewrite take_length|].
    apply take_ok; [now rewrite Hs, <- Hl | exact Hc].
Qed.

End OutputFacts.

(** ** The worksheet *)

Lemma width_bound (ws : Worksheet) (n : nat) :
  Forall (fun r => length r = n) ws -> (width ws <= n)%nat.
Proof.
  induction 1 as [|r ws Hr Hws IH]; cbn [width fold_right]; [lia|].
  fold (width ws). lia.
Qed.

Lemma get_all_values_rectangular (ws : Worksheet) (n : nat) :
  Forall (fun r => length r = n) ws -> get_all_values ws = ws.
Proof.
  intros H. unfold get_all_values. pose proof (width_bound H) as Hw.
  rewrite <- (map_id ws) at 2. apply map_ext_in. intros r Hr.
  rewrite Forall_forall in H. specialize (H r Hr).
  replace (width ws - length r)%nat with 0%nat by lia. apply app_nil_r.
Qed.

Lemma float_same_eq (x y : float) : float_same x y = true -> x = y.
Proof.
  destruct x as [|s|[a b]], y as [|t|[c d]]; cbn; try discriminate; auto.
  - intros H. apply Bool.eqb_prop in H. now subst.
  - intros H. apply andb_true_iff in H as [H1 H2].
    apply Z.eqb_eq in H1. apply Pos.eqb_eq in H2. now subst.
Qed.

Lemma map_nth_seq {A B : Type} (g : A -> B) (l : list A) (d : A) :
  map (fun i => g (nth i l d)) (seq 0 (length l)) = map g l.
Proof.
  rewrite <- (map_map (fun i => nth i l d) g). now rewrite map_nth_seq_id.
Qed.

Section StoreFacts.

Context {R : Runtime}.

Lemma ensure_header_written (kind : string) (req : list string)
  (rows : list (list string)) :
  required_cols_of kind = Ok req ->
  _ensure_header (req :: rows) req = (req :: rows, req).
Proof.
  intros Hk. destruct (kind_cases _ Hk) as [[_ ->]|[_ ->]]; reflexivity.
Qed.

Lemma values_tolist_rows (df : DataFrame) :
  Forall (fun r => length r = length (cols df)) (values_tolist df).
Proof.
  apply Forall_forall. intros r Hr. unfold values_tolist in Hr.
  apply in_map_iff in Hr as (i & <- & _). apply length_map.
Qed.

Lemma values_tolist_length (df : DataFrame) :
  length (values_tolist df) = nrows df.
Proof. unfold values_tolist. now rewrite length_map, length_seq. Qed.

Lemma transposed_cols (df : DataFrame) (pre post : list (string * Series)) :
  Forall (fun cs => length (snd cs) = nrows df) post ->
  cols df = pre ++ post ->
  map (fun jh => (snd jh, map (fun r => Str (nth (fst jh) r "")) (values_tolist df)))
      (combine (seq (length pre) (length (map fst post))) (map fst post))
  = map (fun cs => (fst cs, map (fun v => Str (astype_str (fst cs) v)) (snd cs))) post.
Proof.
  intros Hlen. revert pre. induction Hlen as [|[c s] post Hs Hpost IH]; intros pre Hc;
    [reflexivity|].
  cbn [map fst snd length seq combine] in *. f_equal.
  - f_equal. unfold values_tolist. rewrite map_map, Hc, <- Hs.
    rewrite <- (map_nth_seq (fun v => Str (astype_str c v)) s PyNone).
    apply map_ext. intros i. rewrite map_app. cbn [map fst snd].
    rewrite <- (length_map
                  (fun cs : string * Series => astype_str (fst cs) (nth i (snd cs) PyNone))
                  pre).
    now rewrite nth_middle.
  - specialize (IH (pre ++ [(c, s)])).
    rewrite length_app, Nat.add_1_r in IH. apply IH.
    now rewrite <- app_assoc.
Qed.

Lemma wf_columns (df : DataFrame) :
  wf df = true -> Forall (fun cs => length (snd cs) = nrows df) (cols df).
Proof.
  unfold wf. intros H. apply andb_true_iff in H as [_ H].
  rewrite forallb_forall in H. apply Forall_forall. intros cs Hcs.
  now apply Nat.eqb_eq, H.
Qed.

Lemma frame_of_rows_values (df : DataFrame) :
  wf df = true ->
  frame_of_rows (values_tolist df) (labels df) = Ok (stringified df).
Proof.
  intros Hwf. unfold frame_of_rows, labels.
  assert (Hrows : forallb (fun r => (length r =? length (map fst (cols df)))%nat)
                          (values_tolist df) = true).
  { apply forallb_forall. intros r Hr.
    pose proof (values_tolist_rows df) as H. rewrite Forall_forall in H.
    rewrite (H r Hr), length_map. apply Nat.eqb_refl. }
  rewrite Hrows, values_tolist_length. unfold stringified. do 2 f_equal.
  apply (transposed_cols df [] (wf_columns df Hwf) eq_refl).
Qed.


(** The columns of a canonical table, written as strings and coerced again. *)

Lemma map_map_fixed (f g : cell -> cell) (ok : cell -> bool) (s : Series) :
  (forall c, ok c = true -> f (g c) = c) -> forallb ok s = true ->
  map f (map g s) = s.
Proof.
  intros Hf Hs. rewrite map_map. now apply map_fixed with (ok := ok).
Qed.

Lemma forallb_and (p q : cell -> bool) (s : Series) :
  forallb p s = true -> forallb q s = true ->
  forallb (fun c => p c && q c) s = true.
Proof.
  rewrite !forallb_forall. intros Hp Hq c Hc. now rewrite Hp, Hq.
Qed.

Lemma written_date (now label : string) (s : Series) :
  forallb date_cell s = true ->
  coerce_data now (map (fun v => Str (astype_str label v)) s) = s.
Proof.
  rewrite coerce_data_cells. apply map_map_fixed.
  intros [|t|x]; cbn; try discriminate. now destruct (strip_is_empty t).
Qed.

Lemma written_esito (label : string) (s : Series) :
  forallb outcome_cell s = true ->
  coerce_esito (map (fun v => Str (astype_str label v)) s) = s.
Proof.
  rewrite coerce_esito_spec. apply map_map_fixed.
  intros [|t|x]; cbn -[OUTCOMES]; try discriminate. now intros ->.
Qed.

Lemma written_campionato (label : string) (s : Series) :
  forallb league_cell s = true ->
  coerce_campionato (map (fun v => Str (astype_str label v)) s) = s.
Proof.
  rewrite coerce_campionato_spec. apply map_map_fixed.
  intros [|t|x]; cbn -[LEAGUES]; try discriminate. now intros ->.
Qed.

Lemma written_text (label : string) (s : Series) :
  forallb text_cell s = true ->
  coerce_text (map (fun v => Str (astype_str label v)) s) = s.
Proof.
  unfold coerce_text, fillna. apply map_map_fixed.
  intros [|t|x]; cbn; try discriminate. reflexivity.
Qed.

Lemma written_number (label : string) (s : Series) :
  forallb number_cell s = true -> forallb (reads_cell label) s = true ->
  coerce_number (map (fun v => Str (astype_str label v)) s) = s.
Proof.
  intros Hn Hr. rewrite coerce_number_spec.
  apply map_map_fixed with (ok := fun c => number_cell c && reads_cell label c);
    [|now apply forallb_and].
  intros [|t|x]; cbn [number_cell andb]; try discriminate.
  unfold reads_cell, odds_of_spec. intros H. apply float_same_eq in H.
  rewrite H. now destruct x.
Qed.

Lemma written_stake (label : string) (s : Series) :
  forallb stake_cell s = true -> forallb (reads_cell label) s = true ->
  coerce_stake (map (fun v => Str (astype_str label v)) s) = s.
Proof.
  intros Hn Hr. rewrite coerce_stake_spec.
  apply map_map_fixed with (ok := fun c => stake_cell c && reads_cell label c);
    [|now apply forallb_and].
  intros [|t|x]; cbn [stake_cell andb]; try discriminate.
  unfold reads_cell, stake_of_spec. intros H. apply andb_true_iff in H as [Hx H].
  apply float_same_eq in H. rewrite H. now destruct x.
Qed.

Lemma written_ids (label : string) (zs : list Z) :
  forallb (reads_cell label) (integers zs) = true ->
  to_numeric (map (fun v => Str (astype_str label v)) (integers zs)) = map of_int zs.
Proof.
  intros H. unfold to_numeric, integers in *. rewrite !map_map.
  apply map_ext_in. intros z Hz. rewrite forallb_forall in H.
  specialize (H (Int z) (in_map Int zs z Hz)). now apply float_same_eq in H.
Qed.

Lemma stringified_coerced (now kind : string) (req : list string) (df : DataFrame) :
  required_cols_of kind = Ok req -> canonical req df -> reads_back df = true ->
  exists zs,
    Sorted Z.lt zs
    /\ exact_ints zs
    /\ wf (stringified df) = true
    /\ to_numeric (column (stringified df) "ID") = map of_int zs
    /\ coerced_cols now kind (stringified df) zs = cols df.
Proof.
  intros Hk (zs & body & Hcols & Hreq & Hs & Hx & Hlen & Hbody) Hr.
  exists zs. split; [exact Hs|]. split; [exact Hx|].
  unfold wf, labels, coerced_cols, column, stringified, reads_back in *.
  rewrite Hcols in *.
  destruct (kind_cases _ Hk) as [[-> ->]|[-> ->]];
    injection Hreq as Hreq; open_body Hreq; open_cells Hbody;
    unfold cell_ok in *;
    cbn [assoc cols nrows map fst snd distinct mem existsb forallb negb andb orb
         String.eqb Ascii.eqb Bool.eqb] in *;
    rewrite !andb_true_iff in Hr; decompose [and] Hr; clear Hr.
  - split.
    + rewrite !length_map. unfold integers.
      rewrite length_map, Hlen, Hl, Hl0, Hl1, Hl2, Hl3, Hl4, Hl5.
      now rewrite !Nat.eqb_refl.
    + split; [now apply written_ids|].
      rewrite written_date, written_campionato, !written_text,
        written_number, written_esito; auto.
  - split.
    + rewrite !length_map. unfold integers.
      rewrite length_map, Hlen, Hl, Hl0, Hl1, Hl2, Hl3, Hl4.
      now rewrite !Nat.eqb_refl.
    + split; [now apply written_ids|].
      rewrite written_date, !written_text, written_number,
        written_stake, written_esito; auto.
Qed.


Lemma canonical_labels (req : list string) (df : DataFrame) :
  canonical req df -> labels df = req.
Proof.
  intros (zs & body & Hcols & Hreq & _). unfold labels. now rewrite Hcols.
Qed.

Lemma canonical_wf (kind : string) (req : list string) (df : DataFrame) :
  required_cols_of kind = Ok req -> canonical req df -> wf df = true.
Proof.
  intros Hk Hc.
  now destruct (@canonical_coerced R "" kind req df Hk Hc) as (zs & _ & _ & _ & Hwf & _).
Qed.

(** What [_write_generic] stores for a canonical table, and what
    [_load_generic] then reads. *)
Lemma write_canonical (now : string) (ws : Worksheet) (df : DataFrame)
  (kind : string) (req : list string) :
  required_cols_of kind = Ok req -> canonical req df ->
  _write_generic now ws df kind = Ok (req :: values_tolist df).
Proof.
  intros Hk Hc. unfold _write_generic. rewrite Hk. cbn [bind].
  now rewrite (@normalize_canonical R now kind req df Hk Hc).
Qed.

Lemma load_written (now : string) (df : DataFrame) (kind : string)
  (req : list string) :
  required_cols_of kind = Ok req -> canonical req df -> reads_back df = true ->
  _load_generic now (req :: values_tolist df) kind
  = Ok (req :: values_tolist df, df).
Proof.
  intros Hk Hc Hr. unfold _load_generic. rewrite Hk. cbn [bind].
  rewrite (@ensure_header_written kind req (values_tolist df) Hk). cbn [fst].
  pose proof (@canonical_labels req df Hc) as Hlab.
  pose proof (@canonical_wf kind req df Hk Hc) as Hwf.
  rewrite (@get_all_values_rectangular (req :: values_tolist df) (length req)).
  2:{ constructor; [reflexivity|]. rewrite <- Hlab. unfold labels.
      rewrite length_map. apply values_tolist_rows. }
  cbn [length hd tl Nat.eqb orb]. rewrite values_tolist_length.
  destruct (nrows df) as [|n] eqn:En.
  - cbn. now rewrite (@canonical_no_rows R req df Hc En).
  - cbn [Nat.eqb]. rewrite <- Hlab, (frame_of_rows_values df Hwf). cbn [bind].
    destruct (@stringified_coerced now kind req df Hk Hc Hr)
      as (zs & Hs & Hx & Hwfs & Hid & Hfix).
    rewrite Hlab.
    rewrite (@normalize_onto R now kind req (stringified df) zs Hwfs); auto.
    + cbn [bind]. rewrite Hfix. cbn [stringified nrows]. now destruct df.
    + unfold empty, stringified. cbn [nrows cols]. rewrite En, length_map.
      destruct Hc as (? & ? & -> & _). reflexivity.
Qed.

(** Round trip through the store, for a table whose numeric ids are whole
    numbers within the exact range and whose free-text cells are strings or
    missing: the table [_normalize] returns for it, written with
    [_write_generic] and read with [_load_generic], is read back as it was,
    whatever the dates of the three calls, provided the date of the first is
    not blank and each number of the table is read back from the string
    written for it. *)
Theorem store_round_trip (now1 now2 now3 : string) (ws : Worksheet)
  (x out : DataFrame) (kind : string) (req : list string) :
  wf x = true ->
  required_cols_of kind = Ok req ->
  forallb whole (to_numeric (column x "ID")) = true ->
  exact_ids (to_numeric (column x "ID")) = true ->
  raw_text kind x = true ->
  strip_is_empty now1 = false ->
  _normalize now1 (Some x) req kind = Ok out ->
  reads_back out = true ->
  exists ws',
    _write_generic now2 ws out kind = Ok ws'
    /\ _load_generic now3 ws' kind = Ok (ws', out).
Proof.
  intros Hwf Hk Hw Hex Hraw Hnow Hout Hr.
  pose proof (@normalize_is_canonical R now1 kind req x out Hwf Hk Hw Hex Hraw Hnow Hout)
    as Hc.
  exists (req :: values_tolist out). split.
  - now apply write_canonical.
  - now apply load_written.
Qed.

End StoreFacts.

(** C9 at the ids 1 and 1.5, every cell a string: the normalised table
    carries the id 1 twice; [_write_generic] stores the ids 1 and 2 for it, and
    [_load_generic] reads a table that is not the one that was written. *)
Theorem C9_colliding_ids_not_read_back :
  exists out ws' back,
    _normalize today (Some colliding_table) REQUIRED_COLUMNS_SINGOLE "singole" = Ok out
    /\ getitem out "ID" = Ok [Int 1; Int 1]
    /\ _write_generic today [] out "singole" = Ok ws'
    /\ _load_generic today ws' "singole" = Ok (ws', back)
    /\ getitem back "ID" = Ok [Int 1; Int 2]
    /\ back <> out.
Proof.
  do 3 eexists. split; [vm_compute; reflexivity|].
  split; [reflexivity|]. split; [vm_compute; reflexivity|].
  split; [vm_compute; reflexivity|]. split; [reflexivity|].
  discriminate.
Qed.

(** The round trip at [gaps_table]: the normalised table is written on the
    next day and read on the day after. *)
Lemma store_round_trip_witness :
  exists ws',
    _write_generic "2024-05-02" []
      (mkDF 3
         [ ("ID", [Int 3; Int 7; Int 8]);
           ("Data", [Str "2024-02-01"; Str "2024-01-10"; Str "2024-01-11"]);
           ("Multipla", [Str "c"; Str "a"; Str "b"]);
           ("Quota Totale", [Num (Fin 4); Num (Fin (5 # 2)); Num NaN]);
           ("Stake", [Num (Fin (7 # 2)); Num (Fin 10); Num (Fin 0)]);
           ("Esito", [Str "In attesa"; Str "Vinta"; Str "Persa"]);
           ("Note", [Str ""; Str ""; Str ""]) ])
      "multiple" = Ok ws'
    /\ _load_generic "2024-05-03" ws' "multiple"
       = Ok (ws',
             mkDF 3
               [ ("ID", [Int 3; Int 7; Int 8]);
                 ("Data", [Str "2024-02-01"; Str "2024-01-10"; Str "2024-01-11"]);
                 ("Multipla", [Str "c"; Str "a"; Str "b"]);
                 ("Quota Totale", [Num (Fin 4); Num (Fin (5 # 2)); Num NaN]);
                 ("Stake", [Num (Fin (7 # 2)); Num (Fin 10); Num (Fin 0)]);
                 ("Esito", [Str "In attesa"; Str "Vinta"; Str "Persa"]);
                 ("Note", [Str ""; Str ""; Str ""]) ]).
Proof.
  apply (@store_round_trip cpython today "2024-05-02" "2024-05-03" [] gaps_table _
           "multiple" REQUIRED_COLUMNS_MULTIPLE); reflexivity.
Defined.

(** ** When [_normalize] returns, and what it leaves alone *)

Section Totality.

Context {R : Runtime}.

Lemma coerced_cols_labels (now kind : string) (req : list string) (df : DataFrame)
  (z : list Z) :
  required_cols_of kind = Ok req -> map fst (coerced_cols now kind df z) = req.
Proof.
  intros Hk. destruct (kind_cases _ Hk) as [[-> ->]|[-> ->]]; reflexivity.
Qed.

(** [_normalize] returns a table with exactly the columns of the kind, in
    their order, for no table at all, for an empty table, and for every table
    whose ids are missing or within the exact range. *)
Theorem normalize_canonical_columns (now : string) (df : DataFrame)
  (kind : string) (req : list string) :
  wf df = true ->
  required_cols_of kind = Ok req ->
  exact_ids (to_numeric (column df "ID")) = true ->
  _normalize now None req kind = Ok (new_frame req)
  /\ exists out,
       _normalize now (Some df) req kind = Ok out
       /\ labels out = req
       /\ (empty df = true -> out = new_frame req)
       /\ (empty df = false -> nrows out = nrows df).
Proof.
  intros Hwf Hk Hids. split; [reflexivity|].
  destruct (empty df) eqn:He.
  - exists (new_frame req). unfold _normalize. rewrite He.
    repeat split; try discriminate.
    unfold labels, new_frame; cbn [cols]. rewrite map_map. apply map_id.
  - destruct (normalize_rows now df kind Hwf He Hk Hids)
      as (z & order & _ & _ & _ & _ & _ & Hn).
    eexists. split; [exact Hn|]. repeat split; try discriminate.
    unfold labels; cbn [cols]. rewrite reorder_labels.
    now apply coerced_cols_labels.
Qed.

(** [_normalize] leaves a table in canonical form as it is, and the table it
    returns for a raw table whose numeric ids are whole numbers within the
    exact range and whose free text is text is one: normalising it again, on
    any day, changes nothing. *)
Theorem normalize_idempotent (now1 now2 : string) (kind : string)
  (req : list string) :
  required_cols_of kind = Ok req ->
  (forall x, canonical req x -> _normalize now2 (Some x) req kind = Ok x)
  /\ (forall y out,
        wf y = true ->
        forallb whole (to_numeric (column y "ID")) = true ->
        exact_ids (to_numeric (column y "ID")) = true ->
        raw_text kind y = true ->
        strip_is_empty now1 = false ->
        _normalize now1 (Some y) req kind = Ok out ->
        _normalize now2 (Some out) req kind = Ok out).
Proof.
  intros Hk. split.
  - intros x Hx. now apply normalize_canonical.
  - intros y out Hwf Hw Hex Hraw Hnow Hout. apply normalize_canonical; [exact Hk|].
    exact (@normalize_is_canonical R now1 kind req y out Hwf Hk Hw Hex Hraw Hnow Hout).
Qed.

End Totality.

(** The two theorems above at [gaps_table]. *)
Lemma normalize_canonical_columns_witness :
  exists out,
    _normalize today (Some gaps_table) REQUIRED_COLUMNS_MULTIPLE "multiple" = Ok out
    /\ labels out = REQUIRED_COLUMNS_MULTIPLE.
Proof.
  destruct (@normalize_canonical_columns cpython today gaps_table "multiple"
              REQUIRED_COLUMNS_MULTIPLE eq_refl eq_refl eq_refl)
    as (_ & out & Hout & Hlab & _).
  exists out. split; assumption.
Defined.

Lemma normalize_idempotent_witness :
  exists out,
    _normalize today (Some gaps_table) REQUIRED_COLUMNS_MULTIPLE "multiple" = Ok out
    /\ _normalize "2024-06-01" (Some out) REQUIRED_COLUMNS_MULTIPLE "multiple" = Ok out.
Proof.
  destruct (@normalize_idempotent cpython today "2024-06-01" "multiple"
              REQUIRED_COLUMNS_MULTIPLE eq_refl) as [_ H].
  eexists. split; [vm_compute; reflexivity|].
  apply (H gaps_table); reflexivity.
Defined.

(** ** When [_normalize] raises *)

Section Raising.

Context {R : Runtime}.

Lemma loc_set_list_keeps (l : list float) (values : list cell) (x : float) :
  In x l -> isnan x = false ->
  In (Num x) (loc_set_list (map isnan l) values (numeric l)).
Proof.
  revert values. induction l as [|y l IH]; intros values Hin Hx; [contradiction|].
  cbn [map numeric loc_set_list]. fold (numeric l).
  destruct Hin as [->|Hin].
  - rewrite Hx. now left.
  - destruct (isnan y); [destruct values|]; right; now apply IH.
Qed.

Lemma reconcile_infinite (l : list float) :
  duplicated_ids l = false -> forallb known l = false ->
  raises (reconcile l) = true.
Proof.
  intros Hd Hk. unfold reconcile. rewrite Hd.
  assert (Hx : exists x, In x l /\ known x = false).
  { clear Hd. induction l as [|y l IH]; [discriminate|].
    cbn [forallb] in Hk. apply andb_false_iff in Hk as [Hy|Hl].
    - exists y. split; [now left | exact Hy].
    - destruct (IH Hl) as (x & Hin & Hx). exists x. split; [now right | exact Hx]. }
  destruct Hx as (x & Hin & Hx).
  assert (Hn : isnan x = false) by (destruct x; [discriminate| |]; reflexivity).
  assert (Hf : isfinite x = false) by (destruct x; try discriminate; reflexivity).
  assert (Hcast : forall cur, In (Num x) cur ->
                              raises (astype_int (to_numeric cur)) = true).
  { intros cur Hc. unfold astype_int.
    destruct (forallb isfinite (to_numeric cur)) eqn:Hall; [|reflexivity].
    rewrite forallb_forall in Hall. rewrite (Hall x) in Hf; [discriminate|].
    unfold to_numeric. apply in_map_iff. exists (Num x). now split. }
  destruct (if any (notna l) then py_int (series_max l) else Ok 0%Z) as [m|e];
    [|reflexivity].
  cbn [bind]. destruct (any (map isnan l)).
  - destruct (int_range _ _) as [fresh|e]; [|reflexivity]. cbn [bind].
    destruct (length fresh =? _)%nat; [|reflexivity]. cbn [bind].
    apply Hcast. now apply loc_set_list_keeps.
  - cbn [bind]. apply Hcast. unfold numeric. now apply in_map.
Qed.

(** On a table with rows whose ids hold an infinity or are all within the
    exact range, [_normalize] raises exactly when no numeric id occurs twice
    and some id is infinite. *)
Theorem normalize_raises_iff (now : string) (df : DataFrame) (kind : string)
  (req : list string) :
  wf df = true -> empty df = false -> required_cols_of kind = Ok req ->
  exact_unless_infinite (to_numeric (column df "ID")) = true ->
  raises (_normalize now (Some df) req kind)
  = negb (duplicated_ids (to_numeric (column df "ID")))
    && negb (forallb known (to_numeric (column df "ID"))).
Proof.
  intros Hwf He Hk Hex. rewrite (normalize_result now df kind Hwf He Hk).
  unfold exact_unless_infinite in Hex.
  destruct (duplicated_ids _) eqn:Hd; cbn [negb andb].
  - now rewrite (reconcile_renumber _ Hd).
  - destruct (forallb known _) eqn:Hkn; cbn [negb orb] in *.
    + now rewrite (reconcile_keep _ Hd Hex).
    + pose proof (reconcile_infinite _ Hd Hkn) as Hr.
      destruct (reconcile _); [discriminate|reflexivity].
Qed.

End Raising.

(** The theorem above at a table with an infinite id, and at one with two. *)
Lemma normalize_raises_iff_witness :
  raises (_normalize today (Some infinite_table) REQUIRED_COLUMNS_SINGOLE "singole") = true
  /\ raises (_normalize today
               (Some (mkDF 2 [ ("ID", [Str "inf"; Str "inf"]) ]))
               REQUIRED_COLUMNS_SINGOLE "singole") = false.
Proof.
  split.
  - now rewrite (@normalize_raises_iff cpython today infinite_table "singole"
                   REQUIRED_COLUMNS_SINGOLE eq_refl eq_refl eq_refl eq_refl).
  - now rewrite (@normalize_raises_iff cpython today
                   (mkDF 2 [ ("ID", [Str "inf"; Str "inf"]) ]) "singole"
                   REQUIRED_COLUMNS_SINGOLE eq_refl eq_refl eq_refl eq_refl).
Defined.

(** ** The header repair *)


Lemma mem_In (c : string) (l : list string) : mem c l = true <-> In c l.
Proof.
  unfold mem. rewrite existsb_exists. split.
  - intros (x & Hx & E). apply String.eqb_eq in E. now subst.
  - intros H. exists c. split; [assumption | apply String.eqb_refl].
Qed.

Lemma add_labels_spec (req header : list string) (changed : bool) :
  exists extra,
    fst (add_labels req header changed) = header ++ extra
    /\ (forall c, In c req -> In c (header ++ extra))
    /\ (forall c, In c extra -> In c req /\ ~ In c header)
    /\ snd (add_labels req header changed) = (changed || negb (length extra =? 0)%nat).
Proof.
  unfold add_labels. revert header changed.
  induction req as [|c req IH]; intros header changed; simpl.
  - exists []. rewrite app_nil_r, orb_false_r. repeat split; try easy.
  - destruct (mem c header) eqn:M; simpl.
    + destruct (IH header changed) as (extra & E1 & E2 & E3 & E4).
      exists extra. repeat split; try assumption.
      * intros c' [<- | H]; [|now apply E2].
        apply in_or_app. left. now apply mem_In.
      * right. now apply E3.
      * now apply E3.
    + destruct (IH (header ++ [c]) true) as (extra & E1 & E2 & E3 & E4).
      exists (c :: extra). rewrite E1, E4, <- app_assoc. simpl.
      rewrite orb_true_r. repeat split.
      * intros c' [<- | H].
        -- apply in_or_app. right. now left.
        -- specialize (E2 c' H). now rewrite <- app_assoc in E2.
      * destruct H as [<- | H]; [now left | right; now apply E3].
      * destruct H as [<- | H].
        -- intros H. apply mem_In in H. congruence.
        -- intros H'. apply (E3 c0 H). apply in_or_app. now left.
Qed.

Lemma add_labels_fixed (req header : list string) (changed : bool) :
  (forall c, In c req -> In c header) ->
  add_labels req header changed = (header, changed).
Proof.
  unfold add_labels. induction req as [|c req IH]; intros H; simpl; [reflexivity|].
  assert (M : mem c header = true) by (apply mem_In, H; now left).
  rewrite M. simpl. apply IH. intros c' Hc. apply H. now right.
Qed.

Lemma row_values1_update (ws : Worksheet) (row : list string) :
  row_values1 (update_row1 ws row) = row.
Proof. reflexivity. Qed.

Lemma ensure_header_spec (ws : Worksheet) (required_cols : list string) :
  let ws' := fst (_ensure_header ws required_cols) in
  let header := snd (_ensure_header ws required_cols) in
  (ws = [] \/ ws' = header :: tl ws)
  /\ (forall c, In c required_cols -> In c header)
  /\ (exists extra,
        header = row_values1 ws ++ extra
        /\ forall c, In c extra -> In c required_cols /\ ~ In c (row_values1 ws))
  /\ row_values1 ws' = header
  /\ tl ws' = tl ws.
Proof.
  unfold _ensure_header.
  destruct (length (row_values1 ws) =? 0)%nat eqn:E0.
  - apply Nat.eqb_eq in E0. apply length_zero_iff_nil in E0.
    cbn [fst snd]. rewrite E0. cbn [app].
    split; [now right|]. split; [easy|]. split.
    { exists required_cols. split; [reflexivity|]. intros c H. now split. }
    split; reflexivity.
  - fold (add_labels required_cols (row_values1 ws) false).
    destruct (add_labels_spec required_cols (row_values1 ws) false)
      as (extra & E1 & E2 & E3 & E4).
    destruct (add_labels required_cols (row_values1 ws) false) as [header changed] eqn:EA.
    cbn [fst snd] in E1, E4. subst header.
    destruct changed; cbn [fst snd].
    + split; [now right|]. split; [assumption|]. split; [now exists extra|].
      split; reflexivity.
    + simpl in E4. symmetry in E4.
      apply negb_false_iff, Nat.eqb_eq, length_zero_iff_nil in E4.
      subst extra. rewrite app_nil_r in *.
      split; [destruct ws; [now left | now right]|].
      split; [assumption|]. split; [exists []; now rewrite app_nil_r|].
      split; reflexivity.
Qed.

(** The header repair only appends: every required column is in the header
    it returns, the header that was there is a prefix of it, what it appends
    are required columns the header lacked, the first row of the worksheet is
    the header returned, the rows below are untouched, and a second repair
    changes nothing. *)
Theorem ensure_header_repairs (ws : Worksheet) (required_cols : list string) :
  let ws' := fst (_ensure_header ws required_cols) in
  let header := snd (_ensure_header ws required_cols) in
  (forall c, In c required_cols -> In c header)
  /\ (exists extra,
        header = row_values1 ws ++ extra
        /\ forall c, In c extra -> In c required_cols /\ ~ In c (row_values1 ws))
  /\ row_values1 ws' = header
  /\ tl ws' = tl ws
  /\ _ensure_header ws' required_cols = (ws', header).
Proof.
  cbv zeta.
  destruct (ensure_header_spec ws required_cols) as (Hws & Hreq & Hex & Hhd & Htl).
  split; [exact Hreq|]. split; [exact Hex|]. split; [exact Hhd|].
  split; [exact Htl|].
  set (ws' := fst (_ensure_header ws required_cols)) in *.
  set (header := snd (_ensure_header ws required_cols)) in *.
  assert (E : ws' = header :: tl ws').
  { destruct Hws as [-> | Hws]; [reflexivity|]. now rewrite Htl. }
  clearbody ws' header. unfold _ensure_header. rewrite Hhd.
  destruct (length header =? 0)%nat eqn:E0.
  - apply Nat.eqb_eq, length_zero_iff_nil in E0.
    assert (Er : required_cols = []).
    { destruct required_cols as [|c l]; [reflexivity|].
      pose proof (Hreq c (or_introl eq_refl)) as F. now rewrite E0 in F. }
    rewrite E0 in E. rewrite Er, E0. unfold update_row1. now rewrite <- E.
  - fold (add_labels required_cols header false).
    now rewrite (@add_labels_fixed required_cols header false Hreq).
Qed.


Lemma mem_false_In (c : string) (l : list string) : mem c l = false <-> ~ In c l.
Proof.
  rewrite <- mem_In. destruct (mem c l); split; congruence.
Qed.

Lemma mem_app (c : string) (l l' : list string) :
  mem c (l ++ l') = mem c l || mem c l'.
Proof. unfold mem. apply existsb_app. Qed.

Lemma distinct_snoc (l : list string) (c : string) :
  distinct l = true -> mem c l = false -> distinct (l ++ [c]) = true.
Proof.
  induction l as [|x l IH]; simpl; intros D M; [reflexivity|].
  apply andb_true_iff in D. destruct D as [D1 D2].
  apply orb_false_iff in M. destruct M as [M1 M2].
  rewrite mem_app, IH by assumption. simpl.
  apply negb_true_iff in D1. rewrite D1, String.eqb_sym, M1. reflexivity.
Qed.

Lemma add_labels_distinct (req header : list string) (changed : bool) :
  distinct header = true -> distinct (fst (add_labels req header changed)) = true.
Proof.
  unfold add_labels. revert header changed.
  induction req as [|c req IH]; intros header changed D; simpl; [assumption|].
  destruct (mem c header) eqn:M; simpl.
  - now apply IH.
  - apply IH. now apply distinct_snoc.
Qed.

Lemma ensure_header_distinct (ws : Worksheet) (req : list string) :
  distinct req = true -> distinct (row_values1 ws) = true ->
  distinct (snd (_ensure_header ws req)) = true.
Proof.
  intros Dr Dh. unfold _ensure_header.
  destruct (length (row_values1 ws) =? 0)%nat; [assumption|].
  fold (add_labels req (row_values1 ws) false).
  pose proof (@add_labels_distinct req (row_values1 ws) false Dh) as D.
  destruct (add_labels req (row_values1 ws) false) as [h [|]]; exact D.
Qed.

(** The grid [get_all_values] gives for a header and rows that are no longer. *)
Lemma width_at_most (ws : Worksheet) (n : nat) :
  Forall (fun r => length r <= n)%nat ws -> (width ws <= n)%nat.
Proof.
  induction 1 as [|r ws Hr _ IH]; simpl; [lia|]. apply Nat.max_lub; assumption.
Qed.

Lemma get_all_values_header (h : list string) (rows : list (list string)) :
  Forall (fun r => length r <= length h)%nat rows ->
  get_all_values (h :: rows)
  = h :: map (fun r => r ++ repeat "" (length h - length r)) rows.
Proof.
  intros H. unfold get_all_values.
  assert (W : width (h :: rows) = length h).
  { simpl. pose proof (@width_at_most rows (length h) H). lia. }
  rewrite W. cbn [map]. rewrite Nat.sub_diag. cbn [repeat]. now rewrite app_nil_r.
Qed.

Lemma padded_length (h : list string) (r : list string) :
  (length r <= length h)%nat ->
  length (r ++ repeat "" (length h - length r)) = length h.
Proof. intros H. rewrite length_app, repeat_length. lia. Qed.

Lemma nth_padded (r : list string) (k j : nat) :
  nth j (r ++ repeat "" k) "" = "" \/ In (nth j (r ++ repeat "" k) "") r.
Proof.
  destruct (nth_in_or_default j (r ++ repeat "" k) "") as [Hin | E]; [|now left].
  apply in_app_or in Hin. destruct Hin as [Hin | Hin]; [now right|].
  left. now apply repeat_spec in Hin.
Qed.

Section LoadFacts.

Context {R : Runtime}.

Lemma frame_of_rows_spec (rows : list (list string)) (h : list string) :
  Forall (fun r => length r = length h) rows ->
  exists df,
    frame_of_rows rows h = Ok df
    /\ nrows df = length rows
    /\ labels df = h
    /\ Forall (fun cs => length (snd cs) = length rows
                         /\ Forall (fun c => exists r j, In r rows /\ c = Str (nth j r ""))
                                   (snd cs)) (cols df).
Proof.
  intros H. unfold frame_of_rows.
  assert (E : forallb (fun r => (length r =? length h)%nat) rows = true).
  { apply forallb_forall. intros r Hr. apply Nat.eqb_eq.
    rewrite Forall_forall in H. now apply H. }
  rewrite E. eexists. split; [reflexivity|]. cbn [nrows cols labels].
  split; [reflexivity|]. split.
  - unfold labels. cbn [cols]. rewrite map_map. cbn [fst].
    clear. generalize 0%nat. induction h as [|c h IH]; intros k; simpl; [reflexivity|].
    f_equal. apply IH.
  - apply Forall_forall. intros cs Hcs. apply in_map_iff in Hcs.
    destruct Hcs as ([j c] & <- & _). cbn [fst snd]. rewrite length_map.
    split; [reflexivity|]. apply Forall_forall. intros v Hv.
    apply in_map_iff in Hv. destruct Hv as (r & <- & Hr). now exists r, j.
Qed.


Lemma assoc_In (c : string) (l : list (string * Series)) (s : Series) :
  assoc c l = Some s -> exists cs, In cs l /\ snd cs = s.
Proof.
  induction l as [|[k v] l IH]; simpl; [discriminate|].
  destruct (String.eqb k c).
  - intros [= <-]. exists (k, v). split; [now left | reflexivity].
  - intros H. destruct (IH H) as (cs & Hin & E). exists cs. split; [now right | assumption].
Qed.

Lemma labels_new_frame (req : list string) : labels (new_frame req) = req.
Proof.
  unfold labels, new_frame. cbn [cols]. rewrite map_map. cbn [fst]. apply map_id.
Qed.

Lemma required_has_id (kind : string) (req : list string) :
  required_cols_of kind = Ok req -> In "ID" req /\ distinct req = true.
Proof.
  intros H. destruct (@kind_cases kind req H) as [[_ ->] | [_ ->]];
    (split; [now left | reflexivity]).
Qed.

(** A worksheet whose header repeats no label, with at most 2^52 data rows,
    none longer than the header, each of whose cells reads as nothing or as a
    number of magnitude at most 2^52, loads without an exception: the table
    has the required columns of its kind and one row per data row, and the
    data rows of the worksheet stay as they were. *)
Theorem load_sheet_returns (now : string) (ws : Worksheet) (kind : string)
  (req : list string) :
  required_cols_of kind = Ok req ->
  distinct (row_values1 ws) = true ->
  Forall (fun r => length r <= length (row_values1 ws))%nat (tl ws) ->
  (Z.of_nat (length (tl ws)) <= 2 ^ 52)%Z ->
  half_range (str_to_float "") = true ->
  Forall (Forall (fun s => half_range (str_to_float s) = true)) (tl ws) ->
  exists ws' out,
    _load_generic now ws kind = Ok (ws', out)
    /\ labels out = req
    /\ nrows out = length (tl ws)
    /\ tl ws' = tl ws
    /\ forall c, In c req -> In c (row_values1 ws').
Proof.
  intros Hk D Hlen Hrows K0 K.
  destruct (required_has_id kind Hk) as [Hid Dreq].
  unfold _load_generic. rewrite Hk. cbn [bind].
  destruct (ensure_header_spec ws req) as (_ & Hreq & (extra & Eh & _) & Hhd & Htl).
  pose proof (@ensure_header_distinct ws req Dreq D) as Dh.
  set (ws' := fst (_ensure_header ws req)) in *.
  set (h := snd (_ensure_header ws req)) in *.
  assert (Hws' : ws' = h :: tl ws).
  { destruct ws' as [|r ws'']; simpl in Hhd, Htl.
    - rewrite <- Hhd in Hreq. destruct (Hreq "ID" Hid).
    - now subst. }
  assert (Hlen' : Forall (fun r => length r <= length h)%nat (tl ws)).
  { eapply Forall_impl; [|exact Hlen]. cbn beta. intros r Hr.
    rewrite Eh, length_app. lia. }
  clearbody ws' h. subst ws'. cbn [tl] in *.
  exists (h :: tl ws). rewrite (@get_all_values_header h (tl ws) Hlen').
  destruct (tl ws) as [|r0 rows] eqn:Et.
  - cbn [map length Nat.eqb orb]. eexists. split; [reflexivity|].
    split; [apply labels_new_frame|]. split; [reflexivity|].
    split; [assumption|]. now rewrite Hhd.
  - set (pad := fun r : list string => r ++ repeat "" (length h - length r)).
    cbn [map length Nat.eqb orb hd tl].
    assert (Hrect : Forall (fun r => length r = length h) (pad r0 :: map pad rows)).
    { change (pad r0 :: map pad rows) with (map pad (r0 :: rows)).
      apply Forall_map. eapply Forall_impl; [|exact Hlen'].
      cbn beta. intros r Hr. now apply padded_length. }
    destruct (@frame_of_rows_spec _ _ Hrect) as (df & -> & Hn & Hl & Hc). cbn [bind].
    change (pad r0 :: map pad rows) with (map pad (r0 :: rows)) in *.
    rewrite length_map in *.
    assert (Hwf : wf df = true).
    { unfold wf. rewrite Hl, Dh. cbn [andb]. apply forallb_forall. intros cs Hcs.
      rewrite Forall_forall in Hc. destruct (Hc cs Hcs) as [-> _].
      rewrite Hn. apply Nat.eqb_refl. }
    assert (He : empty df = false).
    { unfold empty. rewrite Hn. cbn [length Nat.eqb orb].
      apply Nat.eqb_neq. intros E. apply length_zero_iff_nil in E.
      unfold labels in Hl. rewrite E in Hl. cbn in Hl. rewrite <- Hl in Hreq.
      destruct (Hreq "ID" Hid). }
    assert (Hcell : forall r j, In r (map pad (r0 :: rows)) ->
                      half_range (str_to_float (nth j r "")) = true).
    { intros r j Hr. apply in_map_iff in Hr. destruct Hr as (r1 & <- & Hr1).
      rewrite Forall_forall in K. specialize (K r1 Hr1). rewrite Forall_forall in K.
      unfold pad. destruct (nth_padded r1 (length h - length r1) j) as [E | Hin].
      - now rewrite E.
      - now apply K. }
    assert (Hk' : exact_ids (to_numeric (column df "ID")) = true).
    { apply half_range_exact_ids;
        [|rewrite to_numeric_length, (column_length df "ID" Hwf), Hn; exact Hrows].
      unfold column, to_numeric. apply forallb_forall. intros x Hx.
      apply in_map_iff in Hx. destruct Hx as (v & <- & Hin).
      destruct (assoc "ID" (cols df)) as [s|] eqn:Ea.
      - destruct (@assoc_In _ _ _ Ea) as (cs & Hcs & <-).
        rewrite Forall_forall in Hc. destruct (Hc cs Hcs) as [_ Hv].
        rewrite Forall_forall in Hv.
        destruct (Hv v Hin) as (r & j & Hr & ->). cbn [to_float]. now apply Hcell.
      - apply repeat_spec in Hin. now subst. }
    destruct (@normalize_rows _ now df kind req Hwf He Hk Hk')
      as (z & order & _ & _ & _ & _ & _ & ->).
    cbn [bind]. eexists. split; [reflexivity|].
    split. { unfold labels. cbn [cols]. rewrite reorder_labels.
             now apply coerced_cols_labels. }
    split; [cbn [nrows]; now rewrite Hn|].
    split; [assumption|]. now rewrite Hhd.
Qed.

End LoadFacts.

(** ** What [_ensure_ids] leaves alone, and unknown kinds *)

Section IdFrame.

Context {R : Runtime}.

Lemma labels_setitem_present (df : DataFrame) (c : string) (s s' : Series) :
  getitem df c = Ok s -> labels (setitem df c s') = labels df.
Proof.
  unfold getitem, labels, setitem. cbn [cols].
  induction (cols df) as [|[k v] l IH]; simpl; [discriminate|].
  destruct (String.eqb k c) eqn:E; simpl; [reflexivity|].
  intros H. f_equal. now apply IH.
Qed.

Lemma getitem_setitem_other (df : DataFrame) (c c' : string) (s : Series) :
  c' <> c -> getitem (setitem df c s) c' = getitem df c'.
Proof.
  intros H. rewrite getitem_setitem.
  destruct (String.eqb c c') eqn:E; [|reflexivity].
  apply String.eqb_eq in E. congruence.
Qed.

Lemma ensure_ids_sets (df df' : DataFrame) :
  empty df = false -> _ensure_ids df = Ok df' ->
  exists ids z, getitem df "ID" = Ok ids /\ df' = setitem df "ID" (integers z).
Proof.
  intros He. unfold _ensure_ids. rewrite He.
  destruct (getitem df "ID") as [ids|e] eqn:Hid; cbn [bind]; [|discriminate].
  destruct ((0 <? count_true (notna (to_numeric ids)))%nat && _); cbn [bind].
  - intros [= <-]. rewrite setitem_setitem. now eexists _, _.
  - destruct (if any (notna (to_numeric ids)) then _ else _) as [m|e]; cbn [bind];
      [|discriminate].
    destruct (any (map isnan (to_numeric ids))); cbn [bind].
    + destruct (int_range _ _) as [fresh|e]; cbn [bind]; [|discriminate].
      rewrite getitem_setitem, String.eqb_refl. cbn [bind].
      destruct (length fresh =? _)%nat; cbn [bind]; [|discriminate].
      rewrite getitem_setitem, String.eqb_refl. cbn [bind].
      destruct (astype_int _); cbn [bind]; rewrite ?setitem_setitem;
        try discriminate; intros [= <-]; now eexists _, _.
    + rewrite getitem_setitem, String.eqb_refl. cbn [bind].
      destruct (astype_int _); cbn [bind]; rewrite ?setitem_setitem;
        try discriminate; intros [= <-]; now eexists _, _.
Qed.

(** [_ensure_ids] returns a table without rows or without columns as it is,
    raises [KeyError] on a table with rows that has no "ID" column, and when
    it returns it has changed the "ID" column alone: the same rows, the same
    labels in the same order, the same cells in every other column, and
    whole numbers as ids. *)
Theorem ensure_ids_frame (df : DataFrame) :
  (empty df = true -> _ensure_ids df = Ok df)
  /\ (empty df = false -> has_column df "ID" = false ->
      _ensure_ids df = Raise (KeyError "ID"))
  /\ (forall df', _ensure_ids df = Ok df' ->
      nrows df' = nrows df
      /\ labels df' = labels df
      /\ (forall c, c <> "ID" -> getitem df' c = getitem df c)
      /\ (empty df = false ->
          exists z, getitem df' "ID" = Ok (integers z))).
Proof.
  split; [|split].
  - intros He. unfold _ensure_ids. now rewrite He.
  - intros He Hc. unfold _ensure_ids. rewrite He.
    rewrite has_column_assoc in Hc. unfold getitem.
    destruct (assoc "ID" (cols df)); [discriminate|reflexivity].
  - intros df' H. destruct (empty df) eqn:He.
    + unfold _ensure_ids in H. rewrite He in H. injection H as <-.
      repeat split; try reflexivity. discriminate.
    + destruct (ensure_ids_sets df He H) as (ids & z & Hid & ->).
      split; [reflexivity|]. split; [now apply labels_setitem_present with ids|].
      split; [intros c Hc; now apply getitem_setitem_other|].
      intros _. exists z. rewrite getitem_setitem, String.eqb_refl. reflexivity.
Qed.

(** A kind that is neither "singole" nor "multiple" is refused with
    [ValueError] by [_load_generic] and [_write_generic], whatever the
    worksheet and the table; [_normalize] refuses it on a table with rows,
    and returns the empty table of the required columns on a table without. *)
Theorem unknown_kind_rejected (kind : string) :
  String.eqb kind "singole" = false -> String.eqb kind "multiple" = false ->
  (forall now ws, _load_generic now ws kind = Raise ValueError)
  /\ (forall now ws df, _write_generic now ws df kind = Raise ValueError)
  /\ (forall now req df, empty df = true ->
        _normalize now (Some df) req kind = Ok (new_frame req))
  /\ (forall now req df, empty df = false ->
        In "Esito" req -> In "Data" req -> In "Note" req ->
        _normalize now (Some df) req kind = Raise ValueError).
Proof.
  intros E1 E2.
  assert (Hk : required_cols_of kind = Raise ValueError).
  { unfold required_cols_of. now rewrite E1, E2. }
  split; [|split; [|split]].
  - intros now ws. unfold _load_generic. now rewrite Hk.
  - intros now ws df. unfold _write_generic. now rewrite Hk.
  - intros now req df He. unfold _normalize. now rewrite He.
  - intros now req df He HE HD HN. unfold _normalize. rewrite He, E1, E2.
    assert (G : forall c, In c req -> getitem (add_missing df req) c = Ok (column df c))
      by (intros c Hc; now apply getitem_add_missing, mem_In).
    repeat first
      [ rewrite setitem_setitem
      | rewrite getitem_setitem; simpl (String.eqb _ _)
      | rewrite G by assumption
      | progress cbn [bind] ].
    reflexivity.
Qed.

End IdFrame.

(** ** The forms *)

Lemma sorted_snoc (zs : list Z) (z : Z) :
  Sorted Z.lt zs -> Forall (fun x => (x < z)%Z) zs -> Sorted Z.lt (zs ++ [z]).
Proof.
  induction zs as [|a zs IH]; intros Hs Hf; simpl; [repeat constructor|].
  inversion Hs as [|? ? Hs' Hd]; subst. inversion Hf as [|? ? Ha Hf']; subst.
  constructor; [now apply IH|].
  destruct zs as [|b zs]; simpl; constructor; [assumption|].
  now inversion Hd.
Qed.

Lemma of_int_leb (a b : Z) : float_leb (of_int a) (of_int b) = true -> (a <= b)%Z.
Proof.
  unfold of_int, float_leb. intros H. apply Qle_bool_iff in H.
  now rewrite <- Zle_Qle in H.
Qed.

Section FormFacts.

Context {R : Runtime}.

Variable strip : string -> string.

Lemma to_numeric_integers (zs : list Z) : to_numeric (integers zs) = map of_int zs.
Proof. unfold to_numeric, integers. rewrite map_map. reflexivity. Qed.

Lemma next_id_spec (df : DataFrame) (zs : list Z) :
  getitem df "ID" = Ok (integers zs) -> length zs = nrows df ->
  exists next,
    next_id df = Ok next
    /\ Forall (fun z => (z < next)%Z) zs
    /\ (zs = [] -> next = 1%Z)
    /\ (zs <> [] -> In (next - 1)%Z zs).
Proof.
  intros Hid Hlen. unfold next_id.
  assert (Hcols : (length (cols df) =? 0)%nat = false).
  { unfold getitem in Hid. destruct (cols df); [discriminate | reflexivity]. }
  unfold empty. rewrite Hcols, orb_false_r.
  destruct (nrows df =? 0)%nat eqn:En.
  - apply Nat.eqb_eq in En. rewrite En in Hlen. apply length_zero_iff_nil in Hlen.
    subst zs. exists 1%Z. repeat split; try easy.
  - apply Nat.eqb_neq in En. rewrite Hid. cbn [bind]. rewrite to_numeric_integers.
    assert (Hk : forallb known (map of_int zs) = true).
    { apply forallb_forall. intros x Hx. apply in_map_iff in Hx.
      now destruct Hx as (z & <- & _). }
    destruct (series_max_spec _ Hk) as (_ & Hin & Hnn & Hmax).
    assert (Hany : any (notna (map of_int zs)) = true).
    { destruct zs as [|z zs]; [simpl in Hlen; lia | reflexivity]. }
    specialize (Hnn Hany). specialize (Hin Hnn).
    apply in_map_iff in Hin. destruct Hin as (m & Hm & Hmin).
    rewrite <- Hm in *. cbn [py_int of_int bind].
    change (Qtrunc (inject_Z m)) with (int_value (of_int m)).
    rewrite int_value_of_int. exists (m + 1)%Z. split; [reflexivity|].
    split; [|split].
    + apply Forall_forall. intros z Hz.
      assert (float_leb (of_int z) (of_int m) = true).
      { apply Hmax; [now apply in_map | reflexivity]. }
      apply of_int_leb in H. lia.
    + intros ->. destruct Hmin.
    + intros _. now replace (m + 1 - 1)%Z with m by lia.
Qed.

Lemma canonical_append_singola (df : DataFrame) (zs : list Z) (next : Z)
  (now campionato partita mercato : string) (quota : float) (esito note : string) :
  canonical REQUIRED_COLUMNS_SINGOLE df ->
  getitem df "ID" = Ok (integers zs) ->
  Forall (fun z => (z < next)%Z) zs ->
  (- max_exact <= next <= max_exact)%Z ->
  (Z.of_nat (nrows df) < max_exact)%Z ->
  strip_is_empty now = false ->
  mem campionato LEAGUES = true -> mem esito OUTCOMES = true ->
  let row := new_singola strip next now campionato partita mercato quota esito note in
  concat df (row_frame row) = with_row df row
  /\ canonical REQUIRED_COLUMNS_SINGOLE (with_row df row).
Proof.
  intros (zs' & body & Hcols & Hreq & Hs & Hx & Hlen & Hbody) Hid Hnext Hnb Hroom
    Hnow Hcamp Hes.
  destruct df as [n l]. cbn [nrows cols] in *. subst l.
  unfold getitem in Hid. cbn in Hid. injection Hid as Hid.
  assert (zs' = zs).
  { clear -Hid. revert zs Hid. induction zs' as [|a zs' IH]; intros [|b zs]; simpl;
      try discriminate; [reflexivity|].
    intros [= Ha Hr]. f_equal; [assumption | now apply IH]. }
  subst zs'. clear Hid.
  unfold REQUIRED_COLUMNS_SINGOLE in Hreq. injection Hreq as Hreq.
  open_body Hreq. open_cells Hbody.
  split.
  - reflexivity.
  - exists (zs ++ [next]). eexists. split.
    { unfold with_row. cbn [cols map fst snd row_cell new_singola String.eqb Ascii.eqb Bool.eqb].
      unfold integers. rewrite map_app. reflexivity. }
    split; [reflexivity|]. split; [now apply sorted_snoc|].
    split.
    { destruct Hx as [Hb _]. split.
      - apply Forall_app. split; [exact Hb | now repeat constructor].
      - rewrite length_app. cbn [length]. lia. }
    split; [cbn [nrows with_row]; rewrite length_app; simpl; lia|].
    unfold cell_ok in *.
    cbn [String.eqb Ascii.eqb Bool.eqb] in *.
    repeat constructor; cbn [fst snd nrows with_row];
      rewrite ?length_app, ?forallb_app; cbn [length forallb];
      rewrite ?andb_true_r; try lia;
      cbn [String.eqb Ascii.eqb Bool.eqb];
      try (apply andb_true_iff; split; [assumption|]);
      cbn [date_cell league_cell outcome_cell number_cell text_cell];
      rewrite ?Hnow; try assumption; reflexivity.
Qed.


Lemma canonical_append_multipla (df : DataFrame) (zs : list Z) (next : Z)
  (now multipla : string) (quota_tot stake : float) (esito note : string) :
  canonical REQUIRED_COLUMNS_MULTIPLE df ->
  getitem df "ID" = Ok (integers zs) ->
  Forall (fun z => (z < next)%Z) zs ->
  (- max_exact <= next <= max_exact)%Z ->
  (Z.of_nat (nrows df) < max_exact)%Z ->
  strip_is_empty now = false ->
  isnan stake = false -> mem esito OUTCOMES = true ->
  let row := new_multipla strip next now multipla quota_tot stake esito note in
  concat df (row_frame row) = with_row df row
  /\ canonical REQUIRED_COLUMNS_MULTIPLE (with_row df row).
Proof.
  intros (zs' & body & Hcols & Hreq & Hs & Hx & Hlen & Hbody) Hid Hnext Hnb Hroom
    Hnow Hst Hes.
  destruct df as [n l]. cbn [nrows cols] in *. subst l.
  unfold getitem in Hid. cbn in Hid. injection Hid as Hid.
  assert (zs' = zs).
  { clear -Hid. revert zs Hid. induction zs' as [|a zs' IH]; intros [|b zs]; simpl;
      try discriminate; [reflexivity|].
    intros [= Ha Hr]. f_equal; [assumption | now apply IH]. }
  subst zs'. clear Hid.
  unfold REQUIRED_COLUMNS_MULTIPLE in Hreq. injection Hreq as Hreq.
  open_body Hreq. open_cells Hbody.
  split.
  - reflexivity.
  - exists (zs ++ [next]). eexists. split.
    { unfold with_row. cbn [cols map fst snd row_cell new_multipla String.eqb Ascii.eqb Bool.eqb].
      unfold integers. rewrite map_app. reflexivity. }
    split; [reflexivity|]. split; [now apply sorted_snoc|].
    split.
    { destruct Hx as [Hb _]. split.
      - apply Forall_app. split; [exact Hb | now repeat constructor].
      - rewrite length_app. cbn [length]. lia. }
    split; [cbn [nrows with_row]; rewrite length_app; simpl; lia|].
    unfold cell_ok in *.
    cbn [String.eqb Ascii.eqb Bool.eqb] in *.
    repeat constructor; cbn [fst snd nrows with_row];
      rewrite ?length_app, ?forallb_app; cbn [length forallb];
      rewrite ?andb_true_r; try lia;
      cbn [String.eqb Ascii.eqb Bool.eqb];
      try (apply andb_true_iff; split; [assumption|]);
      cbn [date_cell stake_cell outcome_cell number_cell text_cell];
      rewrite ?Hnow, ?Hst; try assumption; reflexivity.
Qed.

Lemma canonical_ids (req : list string) (df : DataFrame) :
  canonical req df ->
  exists zs, getitem df "ID" = Ok (integers zs) /\ length zs = nrows df
             /\ Sorted Z.lt zs /\ exact_ints zs.
Proof.
  intros (zs & body & Hcols & _ & Hs & Hx & Hlen & _). exists zs.
  unfold getitem. rewrite Hcols. cbn. auto.
Qed.

Lemma room_for_next (df : DataFrame) (zs : list Z) (next : Z) :
  room_for_row df = true ->
  getitem df "ID" = Ok (integers zs) ->
  exact_ints zs ->
  (zs = [] -> next = 1%Z) -> (zs <> [] -> In (next - 1)%Z zs) ->
  (- max_exact <= next <= max_exact)%Z /\ (Z.of_nat (nrows df) < max_exact)%Z.
Proof.
  intros Hroom Hid [Hb _] H1 H2. unfold room_for_row in Hroom.
  apply andb_true_iff in Hroom as [Hn Hall]. apply Z.ltb_lt in Hn.
  split; [|exact Hn].
  rewrite (column_getitem _ _ Hid) in Hall. rewrite forallb_forall in Hall.
  destruct zs as [|z zs].
  - rewrite (H1 eq_refl), max_exact_eq. lia.
  - assert (Hin : In (next - 1)%Z (z :: zs)) by (apply H2; discriminate).
    rewrite Forall_forall in Hb. specialize (Hb _ Hin).
    specialize (Hall (Int (next - 1)) (in_map Int _ _ Hin)).
    cbn [Int of_int] in Hall. rewrite Qle_bool_inject_Z in Hall.
    apply Z.leb_le in Hall. lia.
Qed.

(** The form of the single wagers, on a table in canonical form: the id it
    gives is 1 for a table without rows and the largest id plus 1 otherwise,
    so above every id of the table; the worksheet it writes is the header and
    the rows of the table followed by the new row, which is in canonical form
    again and, when its cells survive the text of the sheet, is what the next
    load returns.  The table has fewer than 2^53 rows and ids below 2^53, so
    that the new id is within the exact range. *)
Theorem add_singola_appends (now now' : string) (ws : Worksheet) (df_s : DataFrame)
  (campionato partita mercato : string) (quota : float) (esito note : string) :
  canonical REQUIRED_COLUMNS_SINGOLE df_s ->
  room_for_row df_s = true ->
  strip_is_empty now = false ->
  mem campionato LEAGUES = true ->
  mem esito OUTCOMES = true ->
  exists next zs,
    let df2 := with_row df_s
                 (new_singola strip next now campionato partita mercato quota esito note) in
    add_singola strip now now' ws df_s campionato partita mercato quota esito note
    = Ok (next, REQUIRED_COLUMNS_SINGOLE :: values_tolist df2)
    /\ getitem df_s "ID" = Ok (integers zs)
    /\ Forall (fun z => (z < next)%Z) zs
    /\ (zs = [] -> next = 1%Z)
    /\ (zs <> [] -> In (next - 1)%Z zs)
    /\ canonical REQUIRED_COLUMNS_SINGOLE df2
    /\ (reads_back df2 = true ->
        forall now'',
          load_singole now'' (REQUIRED_COLUMNS_SINGOLE :: values_tolist df2)
          = Ok (REQUIRED_COLUMNS_SINGOLE :: values_tolist df2, df2)).
Proof.
  intros Hc Hroom Hnow Hcamp Hes.
  destruct (canonical_ids Hc) as (zs & Hid & Hlen & _ & Hx).
  destruct (next_id_spec df_s zs Hid Hlen) as (next & Hn & Hlt & H1 & H2).
  destruct (room_for_next df_s Hroom Hid Hx H1 H2) as [Hnb Hrows].
  destruct (@canonical_append_singola df_s zs next now campionato partita mercato
              quota esito note Hc Hid Hlt Hnb Hrows Hnow Hcamp Hes) as [Ec Hc2].
  exists next, zs. cbv zeta.
  split.
  { unfold add_singola. rewrite Hn. cbn [bind]. rewrite Ec.
    unfold write_singole.
    rewrite (@write_canonical _ now' ws _ "singole" REQUIRED_COLUMNS_SINGOLE eq_refl Hc2).
    reflexivity. }
  repeat (split; [assumption|]).
  intros Hr now''. unfold load_singole.
  now apply load_written.
Qed.

(** The form of the combination wagers, on a table in canonical form and
    with a stake that is not null: the id it gives is 1 for a table without
    rows and the largest id plus 1 otherwise; the worksheet it writes is the
    header and the rows of the table followed by the new row, which is in
    canonical form again and, when its cells survive the text of the sheet,
    is what the next load returns.  The table has fewer than 2^53 rows and ids
    below 2^53, so that the new id is within the exact range. *)
Theorem add_multipla_appends (now now' : string) (ws : Worksheet) (df_m : DataFrame)
  (multipla : string) (quota_tot stake : float) (esito note : string) :
  canonical REQUIRED_COLUMNS_MULTIPLE df_m ->
  room_for_row df_m = true ->
  strip_is_empty now = false ->
  isnan stake = false ->
  mem esito OUTCOMES = true ->
  exists next zs,
    let df2 := with_row df_m
                 (new_multipla strip next now multipla quota_tot stake esito note) in
    add_multipla strip now now' ws df_m multipla quota_tot stake esito note
    = Ok (next, REQUIRED_COLUMNS_MULTIPLE :: values_tolist df2)
    /\ getitem df_m "ID" = Ok (integers zs)
    /\ Forall (fun z => (z < next)%Z) zs
    /\ (zs = [] -> next = 1%Z)
    /\ (zs <> [] -> In (next - 1)%Z zs)
    /\ canonical REQUIRED_COLUMNS_MULTIPLE df2
    /\ (reads_back df2 = true ->
        forall now'',
          load_multiple now'' (REQUIRED_COLUMNS_MULTIPLE :: values_tolist df2)
          = Ok (REQUIRED_COLUMNS_MULTIPLE :: values_tolist df2, df2)).
Proof.
  intros Hc Hroom Hnow Hst Hes.
  destruct (canonical_ids Hc) as (zs & Hid & Hlen & _ & Hx).
  destruct (next_id_spec df_m zs Hid Hlen) as (next & Hn & Hlt & H1 & H2).
  destruct (room_for_next df_m Hroom Hid Hx H1 H2) as [Hnb Hrows].
  destruct (@canonical_append_multipla df_m zs next now multipla quota_tot stake
              esito note Hc Hid Hlt Hnb Hrows Hnow Hst Hes) as [Ec Hc2].
  exists next, zs. cbv zeta.
  split.
  { unfold add_multipla. rewrite Hn. cbn [bind]. rewrite Ec.
    unfold write_multiple.
    rewrite (@write_canonical _ now' ws _ "multiple" REQUIRED_COLUMNS_MULTIPLE eq_refl Hc2).
    reflexivity. }
  repeat (split; [assumption|]).
  intros Hr now''. unfold load_multiple.
  now apply load_written.
Qed.

End FormFacts.

(** ** The report *)

Lemma isin_cons (values : list string) (c : cell) (s : Series) :
  isin values (c :: s)
  = match c with Str t => existsb (String.eqb t) values | _ => false end
    :: isin values s.
Proof. reflexivity. Qed.

Lemma eq_str_cons (v : string) (c : cell) (s : Series) :
  eq_str v (c :: s)
  = match c with Str t => String.eqb t v | _ => false end :: eq_str v s.
Proof. reflexivity. Qed.

Lemma count_true_cons (b : bool) (m : list bool) :
  count_true (b :: m) = ((if b then 1 else 0) + count_true m)%nat.
Proof. unfold count_true. now destruct b. Qed.

Lemma closed_counts (esito : Series) :
  let closed := select_rows (isin ["Vinta"; "Persa"] esito) esito in
  (count_true (eq_str "Vinta" closed) + count_true (eq_str "Persa" closed)
   = length closed)%nat
  /\ (length closed <= length esito)%nat.
Proof.
  cbv zeta.
  induction esito as [|c esito [IH1 IH2]]; [split; reflexivity|].
  rewrite isin_cons. destruct c as [|s|x]; cbn [select_rows length];
    try (split; [assumption | lia]).
  cbn [existsb].
  destruct (String.eqb s "Vinta") eqn:Ev; cbn [orb].
  - rewrite !eq_str_cons, !count_true_cons, Ev.
    apply String.eqb_eq in Ev. subst s.
    cbn [String.eqb Ascii.eqb Bool.eqb length]. lia.
  - destruct (String.eqb s "Persa") eqn:Ep; cbn [orb].
    + rewrite !eq_str_cons, !count_true_cons, Ev, Ep. cbn [length]. lia.
    + split; [assumption | lia].
Qed.

Lemma pending_counts (esito : Series) :
  forallb outcome_cell esito = true ->
  (length (select_rows (isin ["Vinta"; "Persa"] esito) esito)
   + count_true (eq_str "In attesa" esito) = length esito)%nat.
Proof.
  induction esito as [|c esito IH]; [reflexivity|].
  cbn [forallb]. intros H. apply andb_true_iff in H. destruct H as [Hc H].
  specialize (IH H). rewrite isin_cons, eq_str_cons, count_true_cons.
  destruct c as [|s|x]; try discriminate.
  unfold outcome_cell, mem, OUTCOMES in Hc. cbn [existsb] in *.
  destruct (String.eqb s "In attesa") eqn:Ea.
  - apply String.eqb_eq in Ea. subst s.
    cbn [String.eqb Ascii.eqb Bool.eqb orb select_rows length]. lia.
  - cbn [orb] in Hc. rewrite orb_false_r in Hc. rewrite orb_false_r, Hc.
    cbn [select_rows length]. lia.
Qed.

Lemma percent_of_count (w t : nat) :
  (w <= t)%nat ->
  exists q, percent_of (of_int (Z.of_nat w)) t = Fin q /\ 0 <= q /\ q <= 100
            /\ (t = 0%nat -> q == 0).
Proof.
  intros H. unfold percent_of. destruct t as [|t].
  - exists 0. repeat split; try easy. 
  - cbn [fdiv_count of_int fmul]. eexists. split; [reflexivity|].
    assert (Hp : 0 < inject_Z (Z.of_nat (S t))).
    { change 0 with (inject_Z 0). rewrite <- Zlt_Qlt. lia. }
    assert (H0 : 0 <= inject_Z (Z.of_nat w) / inject_Z (Z.of_nat (S t))).
    { apply Qle_shift_div_l; [assumption|]. rewrite Qmult_0_l.
      change 0 with (inject_Z 0). rewrite <- Zle_Qle. lia. }
    assert (H1 : inject_Z (Z.of_nat w) / inject_Z (Z.of_nat (S t)) <= 1).
    { apply Qle_shift_div_r; [assumption|]. rewrite Qmult_1_l.
      rewrite <- Zle_Qle. lia. }
    split; [|split].
    + apply Qmult_le_0_compat; [assumption | discriminate].
    + setoid_replace 100 with (1 * 100) at 2 by reflexivity.
      apply Qmult_le_compat_r; [assumption | discriminate].
    + discriminate.
Qed.

Lemma profit_rows_cons (q : float) (quota : list float) (c : cell) (esito : Series) :
  profit_rows (q :: quota) (c :: esito)
  = profit_unit_stake q (outcome_text c) :: profit_rows quota esito.
Proof. reflexivity. Qed.

Lemma profit_rows_nil (esito : Series) : profit_rows [] esito = [].
Proof. reflexivity. Qed.

Lemma select_rows_nil (A : Type) (mask : list bool) : select_rows mask (@nil A) = [].
Proof. now destruct mask. Qed.

Lemma inject_count_succ (n : nat) :
  inject_Z (Z.of_nat (1 + n)) == 1 + inject_Z (Z.of_nat n).
Proof.
  rewrite Nat2Z.inj_add, inject_Z_plus. reflexivity.
Qed.

Lemma bounded_win (q : float) :
  fair_odds q = true -> in_exact_range q = true ->
  exists v, profit_unit_stake q "Vinta" = Fin v /\ 0 <= v /\ v <= inject_Z max_exact.
Proof.
  destruct q as [|s|a]; cbn [fair_odds in_exact_range]; intros H E; try discriminate.
  - exists 0. split; [reflexivity|]. split; [discriminate|].
    change 0 with (inject_Z 0). rewrite <- Zle_Qle. now rewrite max_exact_eq.
  - exists (a - 1). split; [reflexivity|]. apply Qle_bool_iff in H.
    apply andb_true_iff in E as [_ E]. apply Qle_bool_iff in E. split; lra.
Qed.

Lemma fixed_loss (q : float) :
  exists v, profit_unit_stake q "Persa" = Fin v /\ - (1) <= v /\ v <= 0.
Proof.
  destruct q as [|s|a]; cbn.
  - exists 0. split; [reflexivity|]. split; discriminate.
  - exists (- (1)). split; [reflexivity|]. split; discriminate.
  - exists (- (1)). split; [reflexivity|]. split; discriminate.
Qed.

Lemma closed_profit_between (quota : list float) (esito : Series) (acc : Q) :
  forallb fair_odds quota = true ->
  forallb in_exact_range quota = true ->
  let closed := isin ["Vinta"; "Persa"] esito in
  exists p,
    fold_left fadd
      (filter (fun x => negb (isnan x)) (select_rows closed (profit_rows quota esito)))
      (Fin acc) = Fin p
    /\ acc - inject_Z (Z.of_nat (count_true (eq_str "Persa" (select_rows closed esito))))
       <= p
    /\ p <= acc + inject_Z (Z.of_nat (count_true (eq_str "Vinta" (select_rows closed esito))))
                  * inject_Z max_exact.
Proof.
  cbv zeta. revert quota acc.
  assert (HB : 0 <= inject_Z max_exact).
  { change 0 with (inject_Z 0). rewrite <- Zle_Qle. now rewrite max_exact_eq. }
  assert (Hcount : forall n : nat, 0 <= inject_Z (Z.of_nat n)).
  { intros n. change 0 with (inject_Z 0). rewrite <- Zle_Qle. lia. }
  induction esito as [|c esito IH]; intros quota acc Hq Hx.
  - exists acc. split; [now destruct quota|]. split.
    + change (acc - 0 <= acc). lra.
    + change (acc <= acc + 0 * inject_Z max_exact). lra.
  - destruct quota as [|q quota].
    + rewrite profit_rows_nil, select_rows_nil. exists acc. split; [reflexivity|].
      pose proof (Hcount (count_true (eq_str "Persa"
                (select_rows (isin ["Vinta"; "Persa"] (c :: esito)) (c :: esito))))).
      pose proof (Hcount (count_true (eq_str "Vinta"
                (select_rows (isin ["Vinta"; "Persa"] (c :: esito)) (c :: esito))))).
      split; [lra|]. 
      assert (0 <= inject_Z (Z.of_nat (count_true (eq_str "Vinta"
                (select_rows (isin ["Vinta"; "Persa"] (c :: esito)) (c :: esito)))))
                * inject_Z max_exact) by (apply Qmult_le_0_compat; assumption).
      lra.
    + cbn [forallb] in Hq, Hx. apply andb_true_iff in Hq as [Hq Hqs].
      apply andb_true_iff in Hx as [Hx Hxs].
      rewrite profit_rows_cons, isin_cons.
      destruct c as [|s|x]; cbn [select_rows]; try now apply IH.
      cbn [existsb outcome_text].
      destruct (String.eqb s "Vinta") eqn:Ev; cbn [orb].
      * rewrite !eq_str_cons, !count_true_cons.
        apply String.eqb_eq in Ev. subst s.
        cbn [String.eqb Ascii.eqb Bool.eqb Nat.add].
        destruct (bounded_win q Hq Hx) as (v & -> & Hv0 & Hv1).
        cbn [filter isnan negb fold_left fadd].
        destruct (IH quota (acc + v) Hqs Hxs) as (p & -> & Hp & Hp').
        exists p. split; [reflexivity|]. split; [lra|].
        rewrite inject_count_succ. lra.
      * destruct (String.eqb s "Persa") eqn:Ep; cbn [orb]; [|now apply IH].
        rewrite !eq_str_cons, !count_true_cons, Ep, Ev.
        apply String.eqb_eq in Ep. subst s.
        destruct (fixed_loss q) as (v & -> & Hv & Hv').
        cbn [filter isnan negb fold_left fadd].
        destruct (IH quota (acc + v) Hqs Hxs) as (p & -> & Hp & Hp').
        exists p. split; [reflexivity|].
        rewrite inject_count_succ. cbn [Nat.add]. split; lra.
Qed.

Section ReportFacts.

Context {R : Runtime}.

Lemma report_singole_columns (df_s : DataFrame) (quota esito : Series) :
  getitem df_s "Quota" = Ok quota -> getitem df_s "Esito" = Ok esito ->
  let closed := isin ["Vinta"; "Persa"] esito in
  let n := length (select_rows closed esito) in
  let w := count_true (eq_str "Vinta" (select_rows closed esito)) in
  let p := if (n =? 0)%nat then Fin 0
           else series_sum (select_rows closed (profit_rows (to_numeric quota) esito)) in
  report_singole df_s
  = Ok (mkReport n w
          (count_true (eq_str "Persa" (select_rows closed esito)))
          (count_true (eq_str "In attesa" esito))
          (percent_of (of_int (Z.of_nat w)) n) p (percent_of p n)).
Proof.
  intros Hq He. unfold report_singole. rewrite Hq. cbn [bind].
  rewrite getitem_setitem. simpl (String.eqb _ _). rewrite He. reflexivity.
Qed.

(** The report of a table with rows whose outcomes are among [OUTCOMES]:
    won and lost wagers add up to the closed ones, closed and pending ones to
    the rows of the table, the win rate lies between 0 and 100, and without a
    closed wager the win rate, the profit and the ROI are 0. *)
Theorem report_counts (df_s : DataFrame) (quota esito : Series) :
  empty df_s = false ->
  getitem df_s "Quota" = Ok quota -> getitem df_s "Esito" = Ok esito ->
  length esito = nrows df_s ->
  forallb outcome_cell esito = true ->
  exists r,
    report_singole df_s = Ok r
    /\ (wins r + losses r = tot_closed r)%nat
    /\ (tot_closed r + pending r = nrows df_s)%nat
    /\ (exists q, win_rate r = Fin q /\ 0 <= q /\ q <= 100)
    /\ (tot_closed r = 0%nat ->
        win_rate r = Fin 0 /\ profit_total r = Fin 0 /\ roi r = Fin 0).
Proof.
  intros _ Hq He Hlen Ho. rewrite (@report_singole_columns df_s quota esito Hq He).
  eexists. split; [reflexivity|].
  cbn [wins losses tot_closed pending win_rate profit_total roi].
  destruct (closed_counts esito) as [Hc Hle].
  split; [assumption|]. split; [rewrite <- Hlen; now apply pending_counts|].
  split.
  - destruct (@percent_of_count
                (count_true (eq_str "Vinta"
                   (select_rows (isin ["Vinta"; "Persa"] esito) esito)))
                (length (select_rows (isin ["Vinta"; "Persa"] esito) esito)))
      as (q & Eq & H0 & H1 & _); [lia|].
    exists q. now repeat split.
  - intros ->. repeat split.
Qed.

(** When every odds cell of a table with at most 2^53 rows is null or a
    number between 1 and 2^53, the profit of the report is a number between
    minus the number of lost wagers and 2^53 times the number of won ones,
    of which there are at most 2^53 together, and the ROI lies between -100
    and 100 times 2^53.  The sum of the model is exact; within these bounds
    the float64 sum of the script cannot leave the range of float64. *)
Theorem report_profit_bounded (df_s : DataFrame) (quota esito : Series) :
  empty df_s = false ->
  getitem df_s "Quota" = Ok quota -> getitem df_s "Esito" = Ok esito ->
  forallb fair_odds (to_numeric quota) = true ->
  forallb in_exact_range (to_numeric quota) = true ->
  (Z.of_nat (length esito) <= max_exact)%Z ->
  exists r p y,
    report_singole df_s = Ok r
    /\ (Z.of_nat (wins r + losses r) <= max_exact)%Z
    /\ profit_total r = Fin p
    /\ - inject_Z (Z.of_nat (losses r)) <= p
    /\ p <= inject_Z (Z.of_nat (wins r)) * inject_Z max_exact
    /\ roi r = Fin y
    /\ - (100) <= y
    /\ y <= 100 * inject_Z max_exact.
Proof.
  intros _ Hq He Hf Hx Hrows. rewrite (@report_singole_columns df_s quota esito Hq He).
  cbv zeta.
  destruct (closed_counts esito) as [Hc Hle].
  destruct (@closed_profit_between (to_numeric quota) esito 0 Hf Hx) as (p & Ep & Hp & Hp').
  fold (series_sum (select_rows (isin ["Vinta"; "Persa"] esito)
                      (profit_rows (to_numeric quota) esito))) in Ep.
  rewrite Ep.
  set (n := length (select_rows (isin ["Vinta"; "Persa"] esito) esito)) in *.
  set (l := count_true (eq_str "Persa" (select_rows (isin ["Vinta"; "Persa"] esito) esito))) in *.
  set (w := count_true (eq_str "Vinta" (select_rows (isin ["Vinta"; "Persa"] esito) esito))) in *.
  assert (Hl : 0 <= inject_Z (Z.of_nat l)).
  { change 0 with (inject_Z 0). rewrite <- Zle_Qle. lia. }
  assert (Hw : 0 <= inject_Z (Z.of_nat w)).
  { change 0 with (inject_Z 0). rewrite <- Zle_Qle. lia. }
  assert (HB : 0 <= inject_Z max_exact).
  { change 0 with (inject_Z 0). rewrite <- Zle_Qle. now rewrite max_exact_eq. }
  assert (Hwl : (Z.of_nat (w + l) <= max_exact)%Z) by lia.
  destruct n as [|m] eqn:En.
  - eexists. exists 0, 0. split; [reflexivity|].
    cbn [wins losses profit_total roi Nat.eqb percent_of].
    assert (E : l = 0%nat) by lia. assert (E' : w = 0%nat) by lia. rewrite E, E'.
    split; [now rewrite max_exact_eq|]. split; [reflexivity|].
    split; [discriminate|]. split; [discriminate|]. split; [reflexivity|].
    split; [discriminate|]. lra.
  - eexists. exists p, (p / inject_Z (Z.of_nat (S m)) * 100).
    split; [reflexivity|].
    cbn [wins losses profit_total roi Nat.eqb percent_of fdiv_count fmul].
    split; [exact Hwl|]. split; [reflexivity|]. split; [lra|]. split; [lra|].
    split; [reflexivity|].
    assert (Hn : 0 < inject_Z (Z.of_nat (S m))).
    { change 0 with (inject_Z 0). rewrite <- Zlt_Qlt. lia. }
    assert (Hln : inject_Z (Z.of_nat l) <= inject_Z (Z.of_nat (S m))).
    { rewrite <- Zle_Qle. lia. }
    assert (Hwn : inject_Z (Z.of_nat w) <= inject_Z (Z.of_nat (S m))).
    { rewrite <- Zle_Qle. lia. }
    assert (H1 : - (1) <= p / inject_Z (Z.of_nat (S m))).
    { apply Qle_shift_div_l; [assumption|]. lra. }
    assert (H2 : p / inject_Z (Z.of_nat (S m)) <= inject_Z max_exact).
    { apply Qle_shift_div_r; [assumption|].
      apply Qle_trans with (inject_Z (Z.of_nat w) * inject_Z max_exact); [lra|].
      rewrite (Qmult_comm (inject_Z max_exact)).
      apply Qmult_le_compat_r; assumption. }
    split; lra.
Qed.

End ReportFacts.

(** ** The single-table script *)

Section StoricoFacts.

Context {R : Runtime}.

Lemma frame_of_rows_wf (rows : list (list string)) (h : list string) (df : DataFrame) :
  distinct h = true -> frame_of_rows rows h = Ok df ->
  wf df = true
  /\ forall c, forallb (fun v => negb (isna v)) (column df c) = true.
Proof.
  intros Dh H. unfold frame_of_rows in H.
  destruct (forallb _ rows) eqn:E; [|discriminate].
  assert (Hr : Forall (fun r => length r = length h) rows).
  { apply Forall_forall. intros r Hr. rewrite forallb_forall in E.
    now apply Nat.eqb_eq, E. }
  destruct (@frame_of_rows_spec rows h Hr) as (df' & E' & Hn & Hl & Hc).
  unfold frame_of_rows in E'. rewrite E in E'. rewrite E' in H. injection H as ->.
  split.
  - unfold wf. rewrite Hl, Dh. cbn [andb]. apply forallb_forall. intros cs Hcs.
    rewrite Forall_forall in Hc. destruct (Hc cs Hcs) as [-> _].
    rewrite Hn. apply Nat.eqb_refl.
  - intros c. unfold column. destruct (assoc c (cols df)) as [s|] eqn:Ea.
    + destruct (@assoc_In _ _ _ Ea) as (cs & Hcs & <-).
      rewrite Forall_forall in Hc. destruct (Hc cs Hcs) as [_ Hv].
      apply forallb_forall. intros v Hin. rewrite Forall_forall in Hv.
      now destruct (Hv v Hin) as (r & j & _ & ->).
    + apply forallb_forall. intros v Hin. apply repeat_spec in Hin. now subst.
Qed.

(** On a worksheet whose header repeats no label and whose rows are no longer
    than the header, [load_from_sheet] returns what [load_singole] returns,
    and raises what it raises; [write_to_sheet] stores what [write_singole]
    stores for a table without nulls under "Partita" and "Mercato". *)
Theorem storico_agrees (now : string) (ws : Worksheet) :
  distinct (row_values1 ws) = true ->
  Forall (fun r => length r <= length (row_values1 ws))%nat (tl ws) ->
  load_from_sheet now ws = load_singole now ws
  /\ forall ws0 df,
       wf df = true ->
       forallb (fun c => negb (isna c)) (column df "Partita") = true ->
       forallb (fun c => negb (isna c)) (column df "Mercato") = true ->
       write_to_sheet now ws0 df = write_singole now ws0 df.
Proof.
  intros D Hlen. split.
  - unfold load_from_sheet, load_singole, _load_generic.
    cbn [required_cols_of String.eqb Ascii.eqb Bool.eqb bind].
    destruct (ensure_header_spec ws REQUIRED_COLUMNS_SINGOLE)
      as (Hws & Hreq & (extra & Eh & _) & Hhd & Htl).
    pose proof (@ensure_header_distinct ws REQUIRED_COLUMNS_SINGOLE eq_refl D) as Dh.
    set (ws' := fst (_ensure_header ws REQUIRED_COLUMNS_SINGOLE)) in *.
    set (h := snd (_ensure_header ws REQUIRED_COLUMNS_SINGOLE)) in *.
    clearbody ws' h.
    destruct ((length (get_all_values ws') =? 0)%nat
              || (length (get_all_values ws') =? 1)%nat); [reflexivity|].
    assert (Hws' : ws' = h :: tl ws).
    { destruct ws' as [|r ws'']; simpl in Hhd, Htl.
      - rewrite <- Hhd in Hreq. destruct (Hreq "ID" (or_introl eq_refl)).
      - now subst. }
    assert (Hlen' : Forall (fun r => length r <= length h)%nat (tl ws)).
    { eapply Forall_impl; [|exact Hlen]. cbn beta. intros r Hr.
      rewrite Eh, length_app. lia. }
    rewrite Hws', (@get_all_values_header h (tl ws) Hlen'). cbn [hd tl].
    destruct (frame_of_rows _ h) as [df|e] eqn:Ef; cbn [bind]; [|reflexivity].
    destruct (@frame_of_rows_wf _ _ _ Dh Ef) as [Hwf Hnn].
    now rewrite (@normalize_storico_agrees _ now df Hwf (Hnn "Partita") (Hnn "Mercato")).
  - intros ws0 df Hwf Hp Hm. unfold write_to_sheet, write_singole, _write_generic.
    cbn [required_cols_of String.eqb Ascii.eqb Bool.eqb bind].
    now rewrite (@normalize_storico_agrees _ now df Hwf Hp Hm).
Qed.

End StoricoFacts.

(** ** Nulls in the single-table script *)

Ltac frame_walk H :=
  repeat first
    [ rewrite setitem_setitem
    | rewrite getitem_setitem; simpl (String.eqb _ _)
    | rewrite H by reflexivity
    | progress cbn [bind] ].

Section StoricoNulls.

Context {R : Runtime}.

Lemma normalize_storico_result (now : string) (df : DataFrame) :
  wf df = true -> empty df = false ->
  _normalize_storico now (Some df)
  = (z <- reconcile (to_numeric (column df "ID")) ;;
     Ok (mkDF (nrows df)
           (reorder (argsort (map of_int z)) (coerced_cols_storico now df z)))).
Proof.
  intros Hwf He. unfold _normalize_storico, coerced_cols_storico. rewrite He.
  pose proof (empty_add_missing REQUIRED_COLUMNS_SINGOLE df He) as He0.
  pose proof (nrows_add_missing REQUIRED_COLUMNS_SINGOLE df) as Hn0.
  pose proof (fun c => getitem_add_missing REQUIRED_COLUMNS_SINGOLE df c) as Hg.
  set (d0 := add_missing df REQUIRED_COLUMNS_SINGOLE) in *. clearbody d0.
  frame_walk Hg.
  erewrite ensure_ids_spec;
    [ | repeat apply empty_setitem; exact He0
      | frame_walk Hg; reflexivity
      | rewrite !nrows_setitem, Hn0; now apply column_length ].
  destruct (reconcile _) as [z|e]; cbn [bind]; [|reflexivity].
  unfold select, REQUIRED_COLUMNS_SINGOLE. cbn [select_cols]. frame_walk Hg.
  rewrite !nrows_setitem, Hn0. apply sort_values_ids.
Qed.

Lemma take_In (order : list nat) (s : Series) (i : nat) :
  In i order -> In (nth i s PyNone) (take order s).
Proof.
  intros H. unfold take.
  exact (in_map (fun j => nth j s PyNone) order i H).
Qed.

Lemma fillna_no_none (v : cell) (s : Series) :
  v <> PyNone -> ~ In PyNone (fillna v s).
Proof.
  intros Hv H. unfold fillna in H. apply in_map_iff in H.
  destruct H as (c & E & _). destruct c as [| |[| |]]; cbn in E; congruence.
Qed.

(** On a table whose ids are missing or within the exact range, the
    single-table script leaves a null under "Partita" as it is, and writes it
    to the sheet as the text "None"; the two-table script blanks it. *)
Theorem storico_keeps_nulls (now : string) (df : DataFrame) (i : nat) :
  wf df = true ->
  exact_ids (to_numeric (column df "ID")) = true ->
  (i < nrows df)%nat ->
  nth i (column df "Partita") (Str "") = PyNone ->
  exists out ws',
    _normalize_storico now (Some df) = Ok out
    /\ (exists s, getitem out "Partita" = Ok s /\ In PyNone s)
    /\ (forall ws, write_to_sheet now ws df = Ok ws')
    /\ (exists r, In r (tl ws') /\ nth 3 r "" = "None")
    /\ exists out' s',
         _normalize now (Some df) REQUIRED_COLUMNS_SINGOLE "singole" = Ok out'
         /\ getitem out' "Partita" = Ok s'
         /\ ~ In PyNone s'.
Proof.
  intros Hwf Hk Hi Hnull.
  assert (He : empty df = false).
  { unfold empty. apply orb_false_iff. split; [apply Nat.eqb_neq; lia|].
    unfold column in Hnull. destruct (cols df) as [|cs l]; [|reflexivity].
    cbn [assoc] in Hnull. rewrite nth_repeat in Hnull. discriminate. }
  destruct (reconcile_returns _ Hk) as (z & Hz).
  pose proof (reconcile_length _ Hz) as Lz.
  unfold to_numeric in Lz. rewrite length_map, (column_length _ "ID" Hwf) in Lz.
  set (order := argsort (map of_int z)).
  assert (Hperm : Permutation order (seq 0 (nrows df))).
  { unfold order. rewrite <- Lz, <- (length_map of_int z). apply argsort_perm. }
  assert (Hin : In i order).
  { apply (Permutation_in _ (Permutation_sym Hperm)), in_seq. lia. }
  assert (Hcell : nth i (column df "Partita") PyNone = PyNone).
  { rewrite <- Hnull at 2. apply nth_indep. now rewrite column_length. }
  pose proof (@take_In order (column df "Partita") i Hin) as Hnone. rewrite Hcell in Hnone.
  exists (mkDF (nrows df) (reorder order (coerced_cols_storico now df z))).
  eexists.
  assert (En : _normalize_storico now (Some df)
               = Ok (mkDF (nrows df) (reorder order (coerced_cols_storico now df z)))).
  { rewrite (@normalize_storico_result now df Hwf He), Hz. reflexivity. }
  split; [exact En|]. split.
  { exists (take order (column df "Partita")). split; [reflexivity | assumption]. }
  split.
  { intros ws. unfold write_to_sheet. rewrite En. cbn [bind]. reflexivity. }
  split.
  { apply (In_nth _ _ 0%nat) in Hin. destruct Hin as (k & Hk' & Ek).
    assert (Lo : length order = nrows df).
    { now rewrite (Permutation_length Hperm), length_seq. }
    exists (nth k (values_tolist
                     (mkDF (nrows df) (reorder order (coerced_cols_storico now df z)))) []).
    split.
    - cbn [tl]. apply nth_In. rewrite values_tolist_length. cbn [nrows]. lia.
    - unfold values_tolist. cbn [nrows cols].
      rewrite (nth_indep _ [] (map (fun cs : string * Series =>
                 astype_str (fst cs) (nth 0%nat (snd cs) PyNone))
                 (reorder order (coerced_cols_storico now df z))))
        by (rewrite length_map, length_seq; lia).
      rewrite (map_nth (fun i0 => map (fun cs : string * Series =>
                 astype_str (fst cs) (nth i0 (snd cs) PyNone))
                 (reorder order (coerced_cols_storico now df z))) (seq 0 (nrows df)) 0%nat k).
      rewrite seq_nth by lia. cbn [Nat.add].
      unfold coerced_cols_storico, reorder. cbn [map nth fst snd].
      unfold take at 1.
      rewrite (nth_indep _ PyNone (nth 0%nat (column df "Partita") PyNone))
        by (rewrite length_map; lia).
      rewrite (map_nth (fun i0 => nth i0 (column df "Partita") PyNone) order 0%nat k).
      rewrite Ek, Hcell. reflexivity. }
  rewrite (@normalize_result _ now df "singole" REQUIRED_COLUMNS_SINGOLE Hwf He eq_refl), Hz.
  cbn [bind]. fold order. do 2 eexists. split; [reflexivity|].
  split; [reflexivity|].
  intros H. unfold take in H. apply in_map_iff in H. destruct H as (j & Ej & Hj).
  assert (Hjn : (j < length (coerce_text (column df "Partita")))%nat).
  { unfold coerce_text, fillna. rewrite length_map, column_length by assumption.
    apply (Permutation_in _ Hperm), in_seq in Hj. lia. }
  apply (nth_In _ PyNone) in Hjn. cbn [fst snd] in Ej. rewrite Ej in Hjn.
  apply (@fillna_no_none (Str "") (column df "Partita")); [discriminate|].
  exact Hjn.
Qed.

End StoricoNulls.

(** ** The report of the combination wagers *)

Lemma profit_rows_m_cons (q s : float) (quota stake : list float) (c : cell)
  (esito : Series) :
  profit_rows_m (q :: quota) (s :: stake) (c :: esito)
  = profit_with_stake q (outcome_text c) s :: profit_rows_m quota stake esito.
Proof. reflexivity. Qed.

Lemma max_exact_nonneg : 0 <= inject_Z max_exact.
Proof. change 0 with (inject_Z 0). rewrite <- Zle_Qle. now rewrite max_exact_eq. Qed.

(** What a closed wager with a stake [t >= 0] adds to the profit and to the
    stakes. *)
Lemma staked_profit_between (q : float) (t : Q) (outcome : string) :
  fair_odds q = true -> in_exact_range q = true -> 0 <= t ->
  exists v, profit_with_stake q outcome (Fin t) = Fin v
            /\ 0 <= v + t /\ v <= inject_Z max_exact * t.
Proof.
  intros Hq Hx Ht. pose proof max_exact_nonneg as HB.
  assert (HBt : 0 <= inject_Z max_exact * t) by (apply Qmult_le_0_compat; assumption).
  unfold profit_with_stake.
  destruct q as [|s|a]; cbn [isnan orb fair_odds in_exact_range] in *; try discriminate.
  - exists 0. split; [reflexivity|]. split; lra.
  - apply Qle_bool_iff in Hq. apply andb_true_iff in Hx as [_ Hx].
    apply Qle_bool_iff in Hx.
    destruct (String.eqb outcome "Vinta").
    + exists (t * (a - 1)). split; [reflexivity|].
      assert (0 <= t * (a - 1)) by (apply Qmult_le_0_compat; lra).
      split; [lra|].
      rewrite (Qmult_comm t). apply Qmult_le_compat_r; lra.
    + destruct (String.eqb outcome "Persa").
      * exists (- t). split; [reflexivity|]. split; lra.
      * exists 0. split; [reflexivity|]. split; lra.
Qed.

Lemma closed_stakes_between (quota stake : list float) (esito : Series) (a b : Q) :
  length quota = length esito -> length stake = length esito ->
  forallb fair_odds quota = true ->
  forallb in_exact_range quota = true ->
  Forall (fun x => exists t, x = Fin t /\ 0 <= t /\ t <= inject_Z max_exact) stake ->
  let closed := isin ["Vinta"; "Persa"] esito in
  exists p s,
    fold_left fadd
      (filter (fun x => negb (isnan x))
         (select_rows closed (profit_rows_m quota stake esito))) (Fin a) = Fin p
    /\ fold_left fadd
         (filter (fun x => negb (isnan x)) (select_rows closed stake)) (Fin b) = Fin s
    /\ a + b <= p + s /\ b <= s
    /\ p - a <= inject_Z max_exact * (s - b)
    /\ s - b <= inject_Z (Z.of_nat (length (select_rows closed esito)))
                * inject_Z max_exact.
Proof.
  cbv zeta. revert quota stake a b. pose proof max_exact_nonneg as HB.
  induction esito as [|c esito IH]; intros quota stake a b Lq Ls Hq Hx Hs.
  - destruct quota; [|discriminate]. destruct stake; [|discriminate].
    exists a, b. split; [reflexivity|]. split; [reflexivity|].
    change (inject_Z (Z.of_nat (length (select_rows (isin ["Vinta"; "Persa"] [])
                                          (@nil cell))))) with 0.
    repeat split; lra.
  - destruct quota as [|q quota]; [discriminate|].
    destruct stake as [|x stake]; [discriminate|].
    injection Lq as Lq. injection Ls as Ls.
    cbn [forallb] in Hq, Hx. apply andb_true_iff in Hq as [Hq Hqs].
    apply andb_true_iff in Hx as [Hx Hxs].
    inversion Hs as [|? ? (t & -> & Ht & Ht') Hss]; subst.
    rewrite profit_rows_m_cons, isin_cons.
    destruct (match c with
              | Str t0 => existsb (String.eqb t0) ["Vinta"; "Persa"]
              | _ => false
              end) eqn:Ec; cbn [select_rows]; [|now apply IH].
    destruct (@staked_profit_between q t (outcome_text c) Hq Hx Ht) as (v & -> & Hv & Hv').
    cbn [filter isnan negb fold_left fadd length].
    destruct (IH quota stake (a + v) (b + t) Lq Ls Hqs Hxs Hss)
      as (p & s & -> & -> & H1 & H2 & H3 & H4).
    exists p, s. split; [reflexivity|]. split; [reflexivity|].
    rewrite Nat2Z.inj_succ, <- Z.add_1_r, inject_Z_plus.
    change (inject_Z 1) with 1.
    repeat split; lra.
Qed.

Section ReportMultipleFacts.

Context {R : Runtime}.

Lemma filled_stakes_between (stake : Series) :
  forallb fair_stake (to_numeric stake) = true ->
  forallb in_exact_range (to_numeric stake) = true ->
  Forall (fun x => exists t, x = Fin t /\ 0 <= t /\ t <= inject_Z max_exact)
    (to_numeric (fillna (Num (Fin 0)) (numeric (to_numeric stake)))).
Proof.
  intros H Hx. unfold to_numeric, fillna, numeric. rewrite !map_map.
  apply Forall_forall. intros x Hin. apply in_map_iff in Hin.
  destruct Hin as (c & <- & Hc).
  rewrite forallb_forall in H, Hx.
  specialize (H (to_float c) (in_map _ _ _ Hc)).
  specialize (Hx (to_float c) (in_map _ _ _ Hc)).
  cbn [isna]. destruct (to_float c) as [|s|t]; cbn in *; try discriminate.
  - exists 0. split; [reflexivity|]. split; [lra | apply max_exact_nonneg].
  - exists t. split; [reflexivity|]. apply andb_true_iff in Hx as [_ Hx].
    split; now apply Qle_bool_iff.
Qed.

(** When, in a table with at most 2^53 rows, every total odds cell is null
    or a number between 1 and 2^53 and every stake is null or a number
    between 0 and 2^53, the stakes of the closed wagers add up to a number
    between 0 and 2^53 times their count, the profit of the report lies
    between minus that sum and 2^53 times that sum, and the ROI between -100
    and 100 times 2^53.  The sums of the model are exact; within these bounds
    the float64 sums of the script cannot leave the range of float64. *)
Theorem report_multiple_bounded (df_m : DataFrame) (quota stake esito : Series) :
  wf df_m = true -> empty df_m = false ->
  getitem df_m "Quota Totale" = Ok quota ->
  getitem df_m "Stake" = Ok stake ->
  getitem df_m "Esito" = Ok esito ->
  forallb fair_odds (to_numeric quota) = true ->
  forallb fair_stake (to_numeric stake) = true ->
  forallb in_exact_range (to_numeric quota) = true ->
  forallb in_exact_range (to_numeric stake) = true ->
  (Z.of_nat (nrows df_m) <= max_exact)%Z ->
  exists r p s y,
    report_multiple df_m = Ok r
    /\ (Z.of_nat (tot_closed_m r) <= max_exact)%Z
    /\ profit_total_m r = Fin p
    /\ stake_total_m r = Fin s
    /\ 0 <= s
    /\ s <= inject_Z (Z.of_nat (tot_closed_m r)) * inject_Z max_exact
    /\ - s <= p
    /\ p <= inject_Z max_exact * s
    /\ roi_m r = Fin y
    /\ - (100) <= y
    /\ y <= 100 * inject_Z max_exact.
Proof.
  intros Hwf _ Hq Hs He Hfq Hfs Hxq Hxs Hrows. unfold report_multiple.
  pose proof max_exact_nonneg as HB.
  rewrite Hq. cbn [bind]. rewrite getitem_setitem. simpl (String.eqb _ _).
  rewrite Hs. cbn [bind]. rewrite !getitem_setitem. simpl (String.eqb _ _).
  rewrite He. cbn [bind].
  assert (Le : length esito = nrows df_m).
  { rewrite <- (column_getitem _ _ He). now apply column_length. }
  assert (Lq : length (to_numeric quota) = length esito).
  { unfold to_numeric. rewrite length_map.
    rewrite <- (column_getitem _ _ Hq), <- (column_getitem _ _ He).
    now rewrite !column_length. }
  assert (Ls : length (to_numeric (fillna (Num (Fin 0)) (numeric (to_numeric stake))))
               = length esito).
  { unfold to_numeric, fillna, numeric. rewrite !length_map.
    rewrite <- (column_getitem _ _ Hs), <- (column_getitem _ _ He).
    now rewrite !column_length. }
  destruct (closed_counts esito) as [_ Hle].
  destruct (@closed_stakes_between (to_numeric quota) _ esito 0 0 Lq Ls Hfq Hxq
              (filled_stakes_between _ Hfs Hxs))
    as (p & s & Ep & Es & H1 & H2 & H3 & H4).
  fold (series_sum (select_rows (isin ["Vinta"; "Persa"] esito)
          (profit_rows_m (to_numeric quota)
             (to_numeric (fillna (Num (Fin 0)) (numeric (to_numeric stake)))) esito))) in Ep.
  fold (series_sum (select_rows (isin ["Vinta"; "Persa"] esito)
          (to_numeric (fillna (Num (Fin 0)) (numeric (to_numeric stake)))))) in Es.
  rewrite Ep, Es.
  set (n := length (select_rows (isin ["Vinta"; "Persa"] esito) esito)) in *.
  assert (Hn : (Z.of_nat n <= max_exact)%Z) by lia.
  assert (Hn0 : 0 <= inject_Z (Z.of_nat n) * inject_Z max_exact).
  { apply Qmult_le_0_compat; [|assumption].
    change 0 with (inject_Z 0). rewrite <- Zle_Qle. lia. }
  destruct (n =? 0)%nat.
  - eexists. exists 0, 0, 0. split; [reflexivity|].
    cbn [tot_closed_m profit_total_m stake_total_m roi_m percent_of_stake Qeq_bool].
    split; [exact Hn|]. split; [reflexivity|]. split; [reflexivity|].
    split; [lra|]. split; [lra|]. split; [lra|]. split; [lra|].
    split; [reflexivity|]. split; lra.
  - destruct (Qeq_bool s 0) eqn:E0.
    + eexists. exists p, s, 0. split; [reflexivity|].
      cbn [tot_closed_m profit_total_m stake_total_m roi_m percent_of_stake]. rewrite E0.
      split; [exact Hn|]. split; [reflexivity|]. split; [reflexivity|].
      split; [lra|]. split; [lra|]. split; [lra|]. split; [lra|].
      split; [reflexivity|]. split; lra.
    + eexists. exists p, s, (p / s * 100). split; [reflexivity|].
      cbn [tot_closed_m profit_total_m stake_total_m roi_m percent_of_stake fmul].
      rewrite E0.
      split; [exact Hn|]. split; [reflexivity|]. split; [reflexivity|].
      split; [lra|]. split; [lra|]. split; [lra|]. split; [lra|].
      split; [reflexivity|].
      assert (Hs0 : 0 < s).
      { apply Qeq_bool_neq in E0. apply Qle_lteq in H2.
        destruct H2 as [H2 | H2]; [lra|]. symmetry in H2. contradiction. }
      assert (H5 : - (1) <= p / s) by (apply Qle_shift_div_l; lra).
      assert (H6 : p / s <= inject_Z max_exact) by (apply Qle_shift_div_r; lra).
      split; lra.
Qed.

End ReportMultipleFacts.

(** ** The worksheet of the decision script *)

Lemma labels_eqb_eq (a b : list string) : labels_eqb a b = true <-> a = b.
Proof.
  revert b. induction a as [|x a IH]; intros [|y b]; simpl; try easy.
  rewrite andb_true_iff, String.eqb_eq, IH. split.
  - now intros [-> ->].
  - now intros [= -> ->].
Qed.

Lemma width_row (ws : Worksheet) (r : list string) :
  In r ws -> (length r <= width ws)%nat.
Proof.
  induction ws as [|r0 ws IH]; simpl; [easy|].
  intros [-> | H]; [lia|]. specialize (IH H). lia.
Qed.

Lemma get_all_values_lengths (ws : Worksheet) :
  Forall (fun r => length r = width ws) (get_all_values ws).
Proof.
  unfold get_all_values. apply Forall_forall. intros r Hr.
  apply in_map_iff in Hr. destruct Hr as (r0 & <- & H0).
  rewrite length_app, repeat_length. pose proof (width_row _ _ H0). lia.
Qed.

Lemma get_all_values_length (ws : Worksheet) :
  length (get_all_values ws) = length ws.
Proof. unfold get_all_values. apply length_map. Qed.

Section DecisionFacts.

Context {R : Runtime}.

Lemma select_columns (df : DataFrame) :
  (forall c, In c COLUMNS -> exists s, getitem df c = Ok s) ->
  exists out, select df COLUMNS = Ok out /\ labels out = COLUMNS
              /\ nrows out = nrows df
              /\ forall c, In c COLUMNS -> getitem out c = getitem df c.
Proof.
  intros H. unfold select, COLUMNS in *. cbn [select_cols].
  destruct (H "Campionato") as (s1 & E1); [simpl; tauto|].
  destruct (H "Partita") as (s2 & E2); [simpl; tauto|].
  destruct (H "Giocata") as (s3 & E3); [simpl; tauto|].
  destruct (H "Quota") as (s4 & E4); [simpl; tauto|].
  destruct (H "Esito") as (s5 & E5); [simpl; tauto|].
  destruct (H "Note") as (s6 & E6); [simpl; tauto|].
  destruct (H "DataInserimento") as (s7 & E7); [simpl; tauto|].
  rewrite E1, E2, E3, E4, E5, E6, E7.
  cbn [bind]. eexists. split; [reflexivity|]. split; [reflexivity|].
  split; [reflexivity|].
  intros c Hc. simpl in Hc.
  repeat (destruct Hc as [<- | Hc];
          [rewrite ?E1, ?E2, ?E3, ?E4, ?E5, ?E6, ?E7; reflexivity|]).
  destruct Hc.
Qed.

Lemma sheet_to_df_rows (ws : Worksheet) :
  (2 <= length ws)%nat ->
  exists df,
    frame_of_rows (tl (get_all_values ws)) (hd [] (get_all_values ws)) = Ok df
    /\ nrows df = (length ws - 1)%nat
    /\ labels df = hd [] (get_all_values ws).
Proof.
  intros H2. pose proof (get_all_values_lengths ws) as Hl.
  pose proof (get_all_values_length ws) as Hn.
  destruct (get_all_values ws) as [|h rows]; [simpl in Hn; lia|].
  cbn [hd tl]. inversion Hl as [|? ? Hh Hrows]; subst.
  assert (Hr : Forall (fun r => length r = length h) rows).
  { eapply Forall_impl; [|exact Hrows]. cbn beta. intros r Hr. now rewrite Hr, Hh. }
  destruct (@frame_of_rows_spec rows h Hr) as (df & E & Hnr & Hlab & _).
  exists df. split; [assumption|]. split; [|assumption].
  rewrite Hnr. simpl in Hn. lia.
Qed.

Lemma sheet_to_df_returns (ws : Worksheet) :
  (2 <= length ws)%nat ->
  mem "Quota" (hd [] (get_all_values ws)) = true ->
  exists df,
    sheet_to_df ws = Ok df
    /\ labels df = COLUMNS
    /\ nrows df = (length ws - 1)%nat
    /\ forall c, In c COLUMNS -> mem c (hd [] (get_all_values ws)) = false ->
         getitem df c = Ok (repeat (Str "") (nrows df)).
Proof.
  intros H2 Hq. unfold sheet_to_df. rewrite get_all_values_length.
  assert (E : (length ws <=? 1)%nat = false) by (apply Nat.leb_gt; lia).
  rewrite E. destruct (sheet_to_df_rows ws H2) as (df & -> & Hn & Hl). cbn [bind].
  rewrite <- Hl in *. change (mem "Quota" (labels df)) with (has_column df "Quota") in Hq.
  rewrite has_column_assoc in Hq. unfold getitem at 1.
  destruct (assoc "Quota" (cols df)) as [quota|] eqn:Eq; [|discriminate]. cbn [bind].
  set (df1 := setitem df "Quota" (numeric (to_numeric quota))).
  destruct (@select_columns (add_missing df1 COLUMNS)) as (out & -> & Hlo & Hno & Hgo).
  { intros c Hc. eexists. apply getitem_add_missing. now apply mem_In. }
  exists out. split; [reflexivity|]. split; [assumption|].
  rewrite Hno, nrows_add_missing. split; [exact Hn|].
  intros c Hc Hm. rewrite (Hgo c Hc), getitem_add_missing by now apply mem_In.
  f_equal. unfold column, df1. cbn [cols setitem nrows].
  assert (Hne : String.eqb "Quota" c = false).
  { apply String.eqb_neq. intros <-.
    change (mem "Quota" (labels df)) with (has_column df "Quota") in Hm.
    rewrite has_column_assoc, Eq in Hm. discriminate. }
  rewrite assoc_assoc_set, Hne.
  change (mem c (labels df)) with (has_column df c) in Hm.
  rewrite has_column_assoc in Hm.
  destruct (assoc c (cols df)); [discriminate | reflexivity].
Qed.

(** [sheet_to_df] gives the empty table for a worksheet of at most one row,
    raises [KeyError] when a worksheet with data rows has no "Quota" in its
    header, and otherwise, for a header that repeats no label, returns a
    table with the seven columns and one row per data row, in which a column
    the header lacks is blank. *)
Theorem sheet_to_df_cases (ws : Worksheet) :
  let header := hd [] (get_all_values ws) in
  ((length ws <= 1)%nat -> sheet_to_df ws = Ok (new_frame COLUMNS))
  /\ ((2 <= length ws)%nat -> mem "Quota" header = false ->
      sheet_to_df ws = Raise (KeyError "Quota"))
  /\ ((2 <= length ws)%nat -> distinct header = true ->
      mem "Quota" header = true ->
      exists df,
        sheet_to_df ws = Ok df
        /\ labels df = COLUMNS
        /\ nrows df = (length ws - 1)%nat
        /\ forall c, In c COLUMNS -> mem c header = false ->
             getitem df c = Ok (repeat (Str "") (nrows df))).
Proof.
  cbv zeta. split; [|split].
  - intros H. unfold sheet_to_df. rewrite get_all_values_length.
    apply Nat.leb_le in H. now rewrite H.
  - intros H2 Hq. unfold sheet_to_df. rewrite get_all_values_length.
    assert (E : (length ws <=? 1)%nat = false) by (apply Nat.leb_gt; lia).
    rewrite E. destruct (sheet_to_df_rows ws H2) as (df & -> & _ & Hl). cbn [bind].
    unfold getitem. rewrite <- Hl in Hq.
    change (mem "Quota" (labels df)) with (has_column df "Quota") in Hq.
    rewrite has_column_assoc in Hq.
    destruct (assoc "Quota" (cols df)); [discriminate | reflexivity].
  - intros H2 _ Hq. now apply sheet_to_df_returns.
Qed.

Lemma open_ws_cases (ws : Worksheet) :
  (hd [] (get_all_values ws) = COLUMNS /\ open_ws ws = ws)
  \/ (hd [] (get_all_values ws) <> COLUMNS /\ open_ws ws = [COLUMNS]).
Proof.
  unfold open_ws. rewrite get_all_values_length.
  destruct ws as [|r ws]; [right; split; [discriminate | reflexivity]|].
  cbn [length Nat.eqb].
  destruct (labels_eqb (hd [] (get_all_values (r :: ws))) COLUMNS) eqn:E; cbn [negb].
  - left. split; [now apply labels_eqb_eq | reflexivity].
  - right. split; [|reflexivity]. intros H. apply labels_eqb_eq in H. congruence.
Qed.

(** [open_ws] keeps a worksheet whose header row, as read, is exactly
    [COLUMNS] and replaces every other one by the header row alone; what it
    leaves has that header, opening it again changes nothing, and
    [sheet_to_df] reads it without an exception, one row per data row. *)
Theorem open_ws_header (ws : Worksheet) :
  let ws' := open_ws ws in
  (hd [] (get_all_values ws) = COLUMNS -> ws' = ws)
  /\ (hd [] (get_all_values ws) <> COLUMNS -> ws' = [COLUMNS])
  /\ hd [] (get_all_values ws') = COLUMNS
  /\ open_ws ws' = ws'
  /\ exists df,
       sheet_to_df ws' = Ok df
       /\ labels df = COLUMNS
       /\ nrows df = length (tl ws').
Proof.
  cbv zeta.
  assert (Hh : hd [] (get_all_values (open_ws ws)) = COLUMNS).
  { destruct (open_ws_cases ws) as [[H ->] | [_ ->]]; [assumption | reflexivity]. }
  split; [|split; [|split; [|split]]].
  - intros H. destruct (open_ws_cases ws) as [[_ E] | [N _]]; [assumption | contradiction].
  - intros H. destruct (open_ws_cases ws) as [[E _] | [_ E]]; [contradiction | assumption].
  - exact Hh.
  - destruct (open_ws_cases (open_ws ws)) as [[_ E] | [N _]]; [assumption | contradiction].
  - destruct (Nat.le_gt_cases 2 (length (open_ws ws))) as [H2 | H1].
    + destruct (@sheet_to_df_returns (open_ws ws) H2) as (df & E & Hl & Hn & _).
      { now rewrite Hh. }
      exists df. split; [assumption|]. split; [assumption|].
      rewrite Hn. destruct (open_ws ws); simpl; lia.
    + exists (new_frame COLUMNS). unfold sheet_to_df. rewrite get_all_values_length.
      assert (E : (length (open_ws ws) <=? 1)%nat = true) by (apply Nat.leb_le; lia).
      rewrite E. split; [reflexivity|]. split; [apply labels_new_frame|].
      destruct (open_ws ws) as [|r [|r' l]]; simpl in *; try reflexivity; lia.
Qed.

End DecisionFacts.

(** ** The profit loop of the decision script *)

Lemma float_equiv_refl (x : float) : float_equiv x x.
Proof. destruct x; simpl; try reflexivity. Qed.

Lemma fadd_equiv (x y v : float) :
  float_equiv x y -> float_equiv (fadd x v) (fadd y v).
Proof.
  destruct x as [|s|a], y as [|t|b]; simpl; try easy.
  - intros ->. apply float_equiv_refl.
  - intros H. destruct v; simpl; try easy. now rewrite H.
Qed.

Lemma fsub_one_equiv (x y : float) :
  float_equiv x y -> float_equiv (fsub x (Fin 1)) (fadd y (Fin (- (1)))).
Proof.
  destruct x as [|s|a], y as [|t|b]; simpl; try easy.
  intros H. rewrite H. reflexivity.
Qed.

Lemma fadd_zero_equiv (x y : float) :
  float_equiv x y -> float_equiv x (fadd y (Fin 0)).
Proof.
  destruct x as [|s|a], y as [|t|b]; simpl; try easy.
  intros H. rewrite H. ring.
Qed.

Lemma profit_loop_nan (quota : list float) (esito : Series) :
  profit_loop quota esito NaN = NaN.
Proof.
  revert esito. induction quota as [|q quota IH]; intros [|e esito]; try reflexivity.
  cbn [profit_loop].
  destruct (String.eqb (outcome_text e) "Vinta"); [apply IH|].
  destruct (String.eqb (outcome_text e) "Persa"); apply IH.
Qed.

Lemma profit_loop_sum (quota : list float) (esito : Series) (acc acc' : float) :
  odds_given quota esito = true -> float_equiv acc acc' ->
  float_equiv (profit_loop quota esito acc)
    (fold_left fadd (filter (fun x => negb (isnan x)) (profit_rows quota esito)) acc').
Proof.
  revert esito acc acc'.
  induction quota as [|q quota IH]; intros [|e esito] acc acc' Hg He;
    try exact He.
  cbn [odds_given] in Hg. apply andb_true_iff in Hg. destruct Hg as [Hq Hg].
  cbn [profit_loop profit_rows]. unfold profit_unit_stake.
  destruct (String.eqb (outcome_text e) "Vinta") eqn:Ev.
  - cbn [orb negb] in Hq. apply negb_true_iff in Hq. rewrite Hq.
    assert (Hn : isnan (fsub q (Fin 1)) = false) by now destruct q.
    cbn [filter]. rewrite Hn. cbn [negb fold_left].
    apply IH; [assumption|]. now apply fadd_equiv.
  - destruct (String.eqb (outcome_text e) "Persa") eqn:Ep.
    + cbn [orb negb] in Hq. apply negb_true_iff in Hq. rewrite Hq.
      cbn [filter isnan negb fold_left].
      apply IH; [assumption|]. now apply fsub_one_equiv.
    + assert (E : (if isnan q then Fin 0 else Fin 0) = Fin 0) by now destruct (isnan q).
      rewrite E. cbn [filter isnan negb fold_left].
      apply IH; [assumption|]. now apply fadd_zero_equiv.
Qed.

(** The profit loop adds up what [profit_unit_stake] gives row by row as long
    as every won or lost wager has odds; one won wager with null odds makes
    its result [nan]. *)
Theorem profit_loop_unguarded (quota : list float) (esito : Series) :
  (odds_given quota esito = true ->
   float_equiv (profit_loop quota esito (Fin 0))
     (series_sum (profit_rows quota esito)))
  /\ (won_without_odds quota esito = true ->
      forall profit, profit_loop quota esito profit = NaN).
Proof.
  split.
  - intros H. apply profit_loop_sum; [assumption | apply float_equiv_refl].
  - revert esito. induction quota as [|q quota IH]; intros [|e esito] H profit;
      try discriminate.
    cbn [won_without_odds] in H. cbn [profit_loop].
    destruct (String.eqb (outcome_text e) "Vinta") eqn:Ev.
    + destruct (isnan q) eqn:Eq.
      * destruct q; try discriminate.
        replace (fadd profit (fsub NaN (Fin 1))) with NaN by now destruct profit.
        apply profit_loop_nan.
      * cbn [andb orb] in H. now apply IH.
    + cbn [andb orb] in H.
      destruct (String.eqb (outcome_text e) "Persa"); now apply IH.
Qed.

(** ** What a write leaves on the sheet *)

Section WriteFacts.

Context {R : Runtime}.

(** Whatever the worksheet held, a write that returns leaves the header of
    the kind and one row per row of the table, every row as wide as the
    header: the grid is what [get_all_values] reads, and the next header
    repair finds nothing to do. *)
Theorem write_leaves_table (now : string) (ws : Worksheet) (df : DataFrame)
  (kind : string) (req : list string) (ws' : Worksheet) :
  wf df = true ->
  required_cols_of kind = Ok req ->
  _write_generic now ws df kind = Ok ws' ->
  row_values1 ws' = req
  /\ Forall (fun r => length r = length req) ws'
  /\ length (tl ws') = (if empty df then 0 else nrows df)%nat
  /\ get_all_values ws' = ws'
  /\ _ensure_header ws' req = (ws', req)
  /\ forall ws0, _write_generic now ws0 df kind = Ok ws'.
Proof.
  intros Hwf Hk Hw.
  assert (Hind : forall ws0, _write_generic now ws0 df kind = Ok ws').
  { intros ws0. rewrite <- Hw. unfold _write_generic. rewrite Hk. reflexivity. }
  unfold _write_generic in Hw. rewrite Hk in Hw. cbn [bind] in Hw.
  destruct (_normalize now (Some df) req kind) as [out|e] eqn:En; [|discriminate].
  cbn [bind] in Hw. injection Hw as <-.
  assert (Hout : labels out = req /\ nrows out = (if empty df then 0 else nrows df)%nat).
  { destruct (empty df) eqn:He.
    - unfold _normalize in En. rewrite He in En. injection En as <-.
      split; [apply labels_new_frame | reflexivity].
    - destruct (@normalize_output _ now df out kind req Hwf He Hk En)
        as (z & order & _ & _ & ->).
      split; [|reflexivity]. unfold labels. cbn [cols].
      rewrite reorder_labels. now apply coerced_cols_labels. }
  destruct Hout as [Hl Hn].
  assert (Hrect : Forall (fun r => length r = length req) (req :: values_tolist out)).
  { constructor; [reflexivity|]. eapply Forall_impl; [|apply values_tolist_rows].
    cbn beta. intros r ->. rewrite <- Hl. unfold labels. now rewrite length_map. }
  split; [reflexivity|]. split; [exact Hrect|].
  split; [cbn [tl]; now rewrite values_tolist_length|].
  split; [exact (get_all_values_rectangular Hrect)|].
  split; [exact (ensure_header_written kind (values_tolist out) Hk) | exact Hind].
Qed.

End WriteFacts.

(** ** The properties above at the example tables *)

(** A kind "storico" is refused by the load and by the write, whatever the
    worksheet holds. *)
Lemma unknown_kind_rejected_witness :
  (forall now ws, _load_generic now ws "storico" = Raise ValueError)
  /\ (forall now ws df, _write_generic now ws df "storico" = Raise ValueError).
Proof.
  destruct (@unknown_kind_rejected cpython "storico" eq_refl eq_refl)
    as (Hl & Hw & _).
  split; assumption.
Defined.

(** [hand_sheet] loads as a table of two rows with the columns of the single
    wagers, and its two data rows stay as they are. *)
Lemma load_sheet_returns_witness :
  exists ws' out,
    _load_generic today hand_sheet "singole" = Ok (ws', out)
    /\ labels out = REQUIRED_COLUMNS_SINGOLE
    /\ nrows out = 2%nat
    /\ tl ws' = tl hand_sheet
    /\ forall c, In c REQUIRED_COLUMNS_SINGOLE -> In c (row_values1 ws').
Proof.
  apply (@load_sheet_returns cpython today hand_sheet "singole"
           REQUIRED_COLUMNS_SINGOLE).
  - reflexivity.
  - reflexivity.
  - repeat constructor.
  - cbn. lia.
  - reflexivity.
  - repeat constructor.
Defined.

Lemma stored_singole_canonical : canonical REQUIRED_COLUMNS_SINGOLE stored_singole.
Proof.
  exists [1; 4]%Z. eexists. split; [reflexivity|]. split; [reflexivity|].
  split; [repeat constructor|].
  split; [split; [repeat (constructor; [cbn; lia|]); constructor | cbn; lia]|].
  split; [reflexivity|]. repeat constructor.
Defined.

Lemma stored_multiple_canonical : canonical REQUIRED_COLUMNS_MULTIPLE stored_multiple.
Proof.
  exists [2]%Z. eexists. split; [reflexivity|]. split; [reflexivity|].
  split; [repeat constructor|].
  split; [split; [repeat (constructor; [cbn; lia|]); constructor | cbn; lia]|].
  split; [reflexivity|]. repeat constructor.
Defined.

(** A third single wager added to [stored_singole]. *)
Lemma add_singola_appends_witness :
  exists next zs,
    let df2 := with_row stored_singole
                 (new_singola Ref.strip next today "Serie B" " Pisa - Bari "
                    "MG 1-3" (Fin (8 # 5)) "In attesa" "") in
    add_singola Ref.strip today "2024-05-02" [] stored_singole "Serie B"
      " Pisa - Bari " "MG 1-3" (Fin (8 # 5)) "In attesa" ""
    = Ok (next, REQUIRED_COLUMNS_SINGOLE :: values_tolist df2)
    /\ getitem stored_singole "ID" = Ok (integers zs)
    /\ Forall (fun z => (z < next)%Z) zs
    /\ (zs = [] -> next = 1%Z)
    /\ (zs <> [] -> In (next - 1)%Z zs)
    /\ canonical REQUIRED_COLUMNS_SINGOLE df2
    /\ (reads_back df2 = true ->
        forall now'',
          load_singole now'' (REQUIRED_COLUMNS_SINGOLE :: values_tolist df2)
          = Ok (REQUIRED_COLUMNS_SINGOLE :: values_tolist df2, df2)).
Proof.
  apply (@add_singola_appends cpython Ref.strip today "2024-05-02" [] stored_singole
           "Serie B" " Pisa - Bari " "MG 1-3" (Fin (8 # 5)) "In attesa" "").
  - exact stored_singole_canonical.
  - reflexivity.
  - reflexivity.
  - reflexivity.
  - reflexivity.
Defined.

(** A second combination wager added to [stored_multiple]. *)
Lemma add_multipla_appends_witness :
  exists next zs,
    let df2 := with_row stored_multiple
                 (new_multipla Ref.strip next today "c + d" (Fin 3) (Fin 5)
                    "In attesa" " prova ") in
    add_multipla Ref.strip today "2024-05-02" [] stored_multiple "c + d" (Fin 3)
      (Fin 5) "In attesa" " prova "
    = Ok (next, REQUIRED_COLUMNS_MULTIPLE :: values_tolist df2)
    /\ getitem stored_multiple "ID" = Ok (integers zs)
    /\ Forall (fun z => (z < next)%Z) zs
    /\ (zs = [] -> next = 1%Z)
    /\ (zs <> [] -> In (next - 1)%Z zs)
    /\ canonical REQUIRED_COLUMNS_MULTIPLE df2
    /\ (reads_back df2 = true ->
        forall now'',
          load_multiple now'' (REQUIRED_COLUMNS_MULTIPLE :: values_tolist df2)
          = Ok (REQUIRED_COLUMNS_MULTIPLE :: values_tolist df2, df2)).
Proof.
  apply (@add_multipla_appends cpython Ref.strip today "2024-05-02" []
           stored_multiple "c + d" (Fin 3) (Fin 5) "In attesa" " prova ").
  - exact stored_multiple_canonical.
  - reflexivity.
  - reflexivity.
  - reflexivity.
  - reflexivity.
Defined.

(** The report of [stored_singole]: two closed wagers, one won. *)
Lemma report_counts_witness :
  exists r,
    report_singole stored_singole = Ok r
    /\ (wins r + losses r = tot_closed r)%nat
    /\ (tot_closed r + pending r = nrows stored_singole)%nat
    /\ (exists q, win_rate r = Fin q /\ 0 <= q /\ q <= 100)
    /\ (tot_closed r = 0%nat ->
        win_rate r = Fin 0 /\ profit_total r = Fin 0 /\ roi r = Fin 0).
Proof.
  apply (@report_counts cpython stored_singole
           [Num (Fin (9 # 5)); Num NaN] [Str "Vinta"; Str "Persa"]);
    reflexivity.
Defined.

Lemma report_profit_bounded_witness :
  exists r p y,
    report_singole stored_singole = Ok r
    /\ (Z.of_nat (wins r + losses r) <= max_exact)%Z
    /\ profit_total r = Fin p
    /\ - inject_Z (Z.of_nat (losses r)) <= p
    /\ p <= inject_Z (Z.of_nat (wins r)) * inject_Z max_exact
    /\ roi r = Fin y
    /\ - (100) <= y
    /\ y <= 100 * inject_Z max_exact.
Proof.
  apply (@report_profit_bounded cpython stored_singole
           [Num (Fin (9 # 5)); Num NaN] [Str "Vinta"; Str "Persa"]);
    try reflexivity.
  cbn. lia.
Defined.

(** The two scripts load [hand_sheet] alike. *)
Lemma storico_agrees_witness :
  load_from_sheet today hand_sheet = load_singole today hand_sheet
  /\ forall ws0 df,
       wf df = true ->
       forallb (fun c => negb (isna c)) (column df "Partita") = true ->
       forallb (fun c => negb (isna c)) (column df "Mercato") = true ->
       write_to_sheet today ws0 df = write_singole today ws0 df.
Proof.
  apply (@storico_agrees cpython today hand_sheet).
  - reflexivity.
  - repeat constructor.
Defined.

(** The new row of [edited_table] has no "Partita": the single-table script
    stores the text "None" for it. *)
Lemma storico_keeps_nulls_witness :
  exists out ws',
    _normalize_storico today (Some edited_table) = Ok out
    /\ (exists s, getitem out "Partita" = Ok s /\ In PyNone s)
    /\ (forall ws, write_to_sheet today ws edited_table = Ok ws')
    /\ (exists r, In r (tl ws') /\ nth 3 r "" = "None")
    /\ exists out' s',
         _normalize today (Some edited_table) REQUIRED_COLUMNS_SINGOLE "singole"
         = Ok out'
         /\ getitem out' "Partita" = Ok s'
         /\ ~ In PyNone s'.
Proof.
  apply (@storico_keeps_nulls cpython today edited_table 1).
  - reflexivity.
  - reflexivity.
  - repeat constructor.
  - reflexivity.
Defined.

(** The report of [stored_multiple]: one won wager at odds 4 and stake 10. *)
Lemma report_multiple_bounded_witness :
  exists r p s y,
    report_multiple stored_multiple = Ok r
    /\ (Z.of_nat (tot_closed_m r) <= max_exact)%Z
    /\ profit_total_m r = Fin p
    /\ stake_total_m r = Fin s
    /\ 0 <= s
    /\ s <= inject_Z (Z.of_nat (tot_closed_m r)) * inject_Z max_exact
    /\ - s <= p
    /\ p <= inject_Z max_exact * s
    /\ roi_m r = Fin y
    /\ - (100) <= y
    /\ y <= 100 * inject_Z max_exact.
Proof.
  apply (@report_multiple_bounded cpython stored_multiple
           [Num (Fin 4)] [Num (Fin 10)] [Str "Vinta"]);
    try reflexivity.
  cbn. lia.
Defined.

(** [duplicated_table] written over a worksheet kept by hand. *)
Lemma write_leaves_table_witness :
  exists ws',
    _write_generic today hand_sheet duplicated_table "singole" = Ok ws'
    /\ row_values1 ws' = REQUIRED_COLUMNS_SINGOLE
    /\ Forall (fun r => length r = length REQUIRED_COLUMNS_SINGOLE) ws'
    /\ length (tl ws') = 3%nat
    /\ get_all_values ws' = ws'
    /\ _ensure_header ws' REQUIRED_COLUMNS_SINGOLE = (ws', REQUIRED_COLUMNS_SINGOLE)
    /\ forall ws0, _write_generic today ws0 duplicated_table "singole" = Ok ws'.
Proof.
  eexists. split; [vm_compute; reflexivity|].
  apply (@write_leaves_table cpython today hand_sheet duplicated_table "singole"
           REQUIRED_COLUMNS_SINGOLE).
  - reflexivity.
  - reflexivity.
  - vm_compute. reflexivity.
Defined.
